(** * The one-fell-swoop network: sigmoid layers, batched backpropagation, SGD

    A shallow embedding of the code cells of [one-fell-swoop.ipynb].

    Conventions of the embedding.
    - A float64 entry is an exact real number ([R]); [np.exp] is [exp].
    - A two-axis [ndarray] is the list of its rows ([matrix]); an array of
      shape (n, 1) is a list of n one-element rows.  A three-axis array whose
      leading axis is the mini-batch axis is the list of its slices
      ([stack]).  The column count of an array without rows is not
      recorded, which is why the statements about shapes ask for positive
      layer sizes.
    - A Python exception is a [Raise] in the [result] type.  numpy raises
      [ValueError] when two operand shapes do not fit; the embedding raises
      it whenever the shapes differ, so the broadcasting of an axis of
      length one against a longer axis (other than the batch axis the code
      relies on) is not part of the model.  Every statement below is about
      operands whose shapes agree exactly.
    - The notebook records Python 3.6.8, hence a numpy no later than 1.19:
      [np.asarray] on a ragged nested sequence builds an array of objects. *)

From Stdlib Require Import Reals Lra Lia ZArith.
From stdpp Require Import list.

(** ** Exceptions *)

Inductive exn : Type :=
| ValueError
| IndexError
| ZeroDivisionError.

Inductive result (A : Type) : Type :=
| Ok (a : A)
| Raise (e : exn).

Arguments Ok {A} a.
Arguments Raise {A} e.

Definition bind {A B : Type} (r : result A) (k : A -> result B) : result B :=
  match r with
  | Ok a => k a
  | Raise e => Raise e
  end.

Notation "'let*' x := c 'in' k" := (bind c (fun x => k))
  (at level 10, x pattern, c at level 100, k at level 200).

(** A [for] loop whose body may raise: the state is threaded from one
    iteration to the next and the first exception ends the loop. *)
Fixpoint for_each {A S : Type} (body : S -> A -> result S) (s : S) (l : list A)
  : result S :=
  match l with
  | [] => Ok s
  | x :: l' => let* s' := body s x in for_each body s' l'
  end.

(** A list comprehension whose element expression may raise. *)
Fixpoint comprehension {A B : Type} (f : A -> result B) (l : list A)
  : result (list B) :=
  match l with
  | [] => Ok []
  | x :: l' => let* y := f x in let* ys := comprehension f l' in Ok (y :: ys)
  end.

(** ** Python sequences *)

(** [l[k]] with Python's negative indices. *)
Definition py_pos {A : Type} (l : list A) (k : Z) : result nat :=
  let n := Z.of_nat (length l) in
  let j := if (k <? 0)%Z then (k + n)%Z else k in
  if ((0 <=? j) && (j <? n))%Z then Ok (Z.to_nat j) else Raise IndexError.

Definition py_getitem {A : Type} (l : list A) (k : Z) : result A :=
  let* j := py_pos l k in
  match l !! j with
  | Some x => Ok x
  | None => Raise IndexError
  end.

(** [l[k] = v]. *)
Definition py_setitem {A : Type} (l : list A) (k : Z) (v : A) : result (list A) :=
  let* j := py_pos l k in Ok (<[j := v]> l).

(** [l[k : k + m]] for [0 <= k] and [0 <= m]. *)
Definition py_slice {A : Type} (l : list A) (k m : nat) : list A :=
  take m (drop k l).

(** [range(0, stop, step)]: the number of items is
    [(stop + step - 1) // step] for a positive step. *)
Definition py_range0 (stop : nat) (step : Z) : result (list nat) :=
  if (step =? 0)%Z then Raise ValueError
  else if (step <? 0)%Z then Ok []
  else
    let s := Z.to_nat step in
    Ok ((fun i => i * s) <$> seq 0 ((stop + s - 1) / s)).

(** ** Arrays *)

Definition matrix : Type := list (list R).
Definition stack : Type := list matrix.

Definition has_shape (r c : nat) (m : matrix) : Prop :=
  length m = r /\ Forall (fun row => length row = c) m.

Definition same_shape (a b : matrix) : bool :=
  bool_decide (length <$> a = length <$> b).

(** An array of shape (n, 1) from the list of its entries, and back
    ([ndarray.flatten], row-major). *)
Definition column (v : list R) : matrix := (fun t => [t]) <$> v.
Definition flatten (m : matrix) : list R := concat m.

Definition mmap (f : R -> R) (m : matrix) : matrix := map (map f) m.
Definition mzip (f : R -> R -> R) (a b : matrix) : matrix :=
  zip_with (zip_with f) a b.

(** Elementwise binary operators of two arrays. *)
Definition elementwise (f : R -> R -> R) (a b : matrix) : result matrix :=
  if same_shape a b then Ok (mzip f a b) else Raise ValueError.

Definition madd : matrix -> matrix -> result matrix := elementwise Rplus.
Definition msub : matrix -> matrix -> result matrix := elementwise Rminus.
Definition mmul : matrix -> matrix -> result matrix := elementwise Rmult.

(** [c * m] for a Python float [c]. *)
Definition scale (c : R) (m : matrix) : matrix := mmap (Rmult c) m.

(** [np.zeros(m.shape)] *)
Definition zeros_like (m : matrix) : matrix := mmap (fun _ => 0%R) m.

Fixpoint transpose (m : matrix) : matrix :=
  match m with
  | [] => []
  | r :: m' =>
      match m' with
      | [] => (fun t => [t]) <$> r
      | _ :: _ => zip_with cons r (transpose m')
      end
  end.

Definition dot_product (u v : list R) : R :=
  foldr Rplus 0%R (zip_with Rmult u v).

Definition matmul_entries (a b : matrix) : matrix :=
  (fun r => dot_product r <$> transpose b) <$> a.

(** [np.matmul] (and [np.dot]) of two two-axis arrays: the column count of
    the first must be the row count of the second. *)
Definition matmul (a b : matrix) : result matrix :=
  if forallb (fun r => length r =? length b) a
  then Ok (matmul_entries a b)
  else Raise ValueError.

(** ** Basic math functions *)

Definition sigmoid1 (t : R) : R := (1 / (1 + exp (- t)))%R.

(** [def sigmoid(z): return 1.0 / (1.0 + np.exp(-z))] *)
Definition sigmoid (z : matrix) : matrix := mmap sigmoid1 z.

(** [def sigmoid_prime(z): return sigmoid(z) * (1 - sigmoid(z))]; the two
    factors have the shape of [z], so the product never raises. *)
Definition sigmoid_prime (z : matrix) : matrix :=
  mzip Rmult (sigmoid z) (mmap (fun s => (1 - s)%R) (sigmoid z)).

(** [def cost_derivative(output_activations, y): return (output_activations - y)] *)
Definition cost_derivative (output_activations y : matrix) : result matrix :=
  msub output_activations y.

(** The same operations on arrays with a leading batch axis. *)
Module Batch.

Definition zip_checked (f : matrix -> matrix -> result matrix) (s t : stack)
  : result stack :=
  if length s =? length t
  then comprehension (fun p => f p.1 p.2) (zip s t)
  else Raise ValueError.

(** [np.matmul(w, s)]: the two-axis [w] is used for every slice. *)
Definition matmul_left (w : matrix) (s : stack) : result stack :=
  comprehension (matmul w) s.

(** [np.matmul(s, t)]: slice by slice. *)
Definition matmul (s t : stack) : result stack := zip_checked matmul s t.

(** [s + b]: the two-axis [b] is added to every slice. *)
Definition add_each (s : stack) (b : matrix) : result stack :=
  comprehension (fun z => madd z b) s.

Definition mul (s t : stack) : result stack := zip_checked mmul s t.

(** [s.transpose(0, 2, 1)] *)
Definition transpose (s : stack) : stack := transpose <$> s.

(** [s.sum(axis = 0)].  An empty stack is never built: [np.stack] raises
    on an empty sequence. *)
Definition sum (s : stack) : matrix :=
  match s with
  | [] => []
  | m :: ms => foldl (mzip Rplus) m ms
  end.

Definition sigmoid (s : stack) : stack := sigmoid <$> s.
Definition sigmoid_prime (s : stack) : stack := sigmoid_prime <$> s.
Definition cost_derivative (output_activations y : stack) : result stack :=
  zip_checked cost_derivative output_activations y.

End Batch.

(** ** The neural network *)

Record Network : Type := {
  num_layers : nat;
  biases : list matrix;
  weights : list matrix
}.

(** [np.random.randn(r, c)]: the samples are read from a stream [g] at
    cursor [k], row by row. *)
Definition randn (g : nat -> R) (k r c : nat) : matrix :=
  (fun i => (fun j => g (k + i * c + j)) <$> seq 0 c) <$> seq 0 r.

(** [[np.random.randn(y, 1) for y in layers[1:]]], with the cursor after it. *)
Fixpoint init_biases (g : nat -> R) (k : nat) (outs : list nat)
  : list matrix * nat :=
  match outs with
  | [] => ([], k)
  | y :: outs' =>
      let '(bs, k') := init_biases g (k + y * 1) outs' in
      (randn g k y 1 :: bs, k')
  end.

(** [[np.random.randn(y, x) for x, y in zip(layers[:-1], layers[1:])]] *)
Fixpoint init_weights (g : nat -> R) (k : nat) (pairs : list (nat * nat))
  : list matrix * nat :=
  match pairs with
  | [] => ([], k)
  | (x, y) :: pairs' =>
      let '(ws, k') := init_weights g (k + y * x) pairs' in
      (randn g k y x :: ws, k')
  end.

Definition init_network (g : nat -> R) (layers : list nat) : Network :=
  let '(bs, k) := init_biases g 0 (drop 1 layers) in
  let '(ws, _) :=
    init_weights g k (zip (take (length layers - 1) layers) (drop 1 layers)) in
  {| num_layers := length layers; biases := bs; weights := ws |}.

(** *** Forward propagation *)

Definition feedforward (nn : Network) (a : matrix) : result matrix :=
  for_each
    (fun a '(b, w) =>
       let* wa := matmul w a in
       let* z := madd wa b in
       Ok (sigmoid z))
    a (zip (biases nn) (weights nn)).

(** *** Evaluation *)

(** [np.argmax] of a flattened array: the first position of the largest
    entry; an empty array raises. *)
Fixpoint argmax_scan (best : R) (best_i i : nat) (l : list R) : nat :=
  match l with
  | [] => best_i
  | t :: l' =>
      if Rlt_dec best t
      then argmax_scan t i (S i) l'
      else argmax_scan best best_i (S i) l'
  end.

Definition argmax (m : matrix) : result nat :=
  match flatten m with
  | [] => Raise ValueError
  | t :: l => Ok (argmax_scan t 0 1 l)
  end.

(** A labelled test sample: the entries of the input column and the class. *)
Definition test_sample : Type := list R * Z.

Definition int_of_bool (b : bool) : nat := if b then 1 else 0.

Definition evaluate (nn : Network) (test_data : list test_sample) : result nat :=
  let* test_results :=
    comprehension
      (fun '(x, y) =>
         let* out := feedforward nn (column x) in
         let* i := argmax out in
         Ok (i, y))
      test_data in
  Ok (foldr Nat.add 0 ((fun '(x, y) => int_of_bool (Z.of_nat x =? y)%Z) <$> test_results)).

(** *** Backpropagation *)

(** A training sample: the entries of the input column and of the target
    column. *)
Definition sample : Type := list R * list R.

(** [ax, ay = tuple(t for t in np.asarray(mini_batch).transpose())].
    When all the arrays of the mini-batch have one shape (n, 1),
    [np.asarray] builds a numeric array of shape (B, 2, n, 1); its transpose
    has a leading axis of length 1, and unpacking one item into two names
    raises.  So does unpacking the empty transpose of an empty mini-batch.
    Otherwise the array is a (B, 2) array of objects and its transpose has
    the row of inputs and the row of targets. *)
Definition unpack_mini_batch (mini_batch : list sample)
  : result (list (list R) * list (list R)) :=
  match mini_batch with
  | [] => Raise ValueError
  | (x0, _) :: _ =>
      if forallb
           (fun '(x, y) => (length x =? length x0) && (length y =? length x0))
           mini_batch
      then Raise ValueError
      else Ok (mini_batch.*1, mini_batch.*2)
  end.

(** [np.stack]: the arrays must have one shape, and there must be one. *)
Definition np_stack (vs : list (list R)) : result stack :=
  match vs with
  | [] => Raise ValueError
  | v0 :: _ =>
      if forallb (fun v => length v =? length v0) vs
      then Ok (column <$> vs)
      else Raise ValueError
  end.

(** The body of [for b, w in zip(nn.biases, nn.weights)] in
    [batch_backprop]. *)
Definition forward_step (state : stack * list stack * list stack)
    (layer : matrix * matrix) : result (stack * list stack * list stack) :=
  let '(activation, activations, zs) := state in
  let '(b, w) := layer in
  let* wa := Batch.matmul_left w activation in
  let* z := Batch.add_each wa b in
  let activation := Batch.sigmoid z in
  Ok (activation, activations ++ [activation], zs ++ [z]).

(** The [# feedforward] part of [batch_backprop]: the list of all
    activations and the list of all [z] arrays, layer by layer. *)
Definition forward_pass (nn : Network) (x : stack)
  : result (list stack * list stack) :=
  let* (activation, activations, zs) :=
    for_each forward_step (x, [x], []) (zip (biases nn) (weights nn)) in
  Ok (activations, zs).

(** The body of [for i in range(2, nn.num_layers)]. *)
Definition backward_step (nn : Network) (activations zs : list stack)
    (state : stack * list matrix * list matrix) (i : Z)
  : result (stack * list matrix * list matrix) :=
  let '(delta, nabla_b, nabla_w) := state in
  let* z := py_getitem zs (- i) in
  let sp := Batch.sigmoid_prime z in
  let* w := py_getitem (weights nn) (- i + 1) in
  let* wd := Batch.matmul_left (transpose w) delta in
  let* delta := Batch.mul wd sp in
  let* nabla_b := py_setitem nabla_b (- i) (Batch.sum delta) in
  let* a_prev := py_getitem activations (- i - 1) in
  let* dw := Batch.matmul delta (Batch.transpose a_prev) in
  let* nabla_w := py_setitem nabla_w (- i) (Batch.sum dw) in
  Ok (delta, nabla_b, nabla_w).

(** The [# backward pass] part of [batch_backprop]. *)
Definition backward_pass (nn : Network) (y : stack) (activations zs : list stack)
    (nabla_b nabla_w : list matrix) : result (list matrix * list matrix) :=
  (* 1. starting from the output layer *)
  let* a_last := py_getitem activations (-1) in
  let* cd := Batch.cost_derivative a_last y in
  let* z_last := py_getitem zs (-1) in
  let* delta := Batch.mul cd (Batch.sigmoid_prime z_last) in
  let* nabla_b := py_setitem nabla_b (-1) (Batch.sum delta) in
  let* a_prev := py_getitem activations (-2) in
  let* dw := Batch.matmul delta (Batch.transpose a_prev) in
  let* nabla_w := py_setitem nabla_w (-1) (Batch.sum dw) in
  (* 2. continue back to the input layer *)
  let* (delta, nabla_b, nabla_w) :=
    for_each (backward_step nn activations zs) (delta, nabla_b, nabla_w)
      (Z.of_nat <$> seq 2 (num_layers nn - 2)) in
  Ok (nabla_b, nabla_w).

Definition batch_backprop (nn : Network) (mini_batch : list sample)
  : result (list matrix * list matrix) :=
  let nabla_b := zeros_like <$> biases nn in
  let nabla_w := zeros_like <$> weights nn in
  (* mini-batch components *)
  let* (ax, ay) := unpack_mini_batch mini_batch in
  let* x := np_stack ax in
  let* y := np_stack ay in
  let* (activations, zs) := forward_pass nn x in
  backward_pass nn y activations zs nabla_b nabla_w.

(** *** Worker function *)

(** [eta / len(mini_batch)] *)
Definition py_div (eta : R) (n : nat) : result R :=
  if n =? 0 then Raise ZeroDivisionError else Ok (eta / INR n)%R.

(** [[p - (eta / len(mini_batch)) * g for p, g in zip(params, nabla)]] *)
Definition descend (eta : R) (len : nat) (params nabla : list matrix)
  : result (list matrix) :=
  comprehension
    (fun '(p, g) => let* c := py_div eta len in msub p (scale c g))
    (zip params nabla).

(** The two lists of zero arrays the function builds first are replaced by
    the result of [batch_backprop] before any use.  The function then
    rebinds [nn.weights], then [nn.biases]; the network after the call is
    returned with the outcome. *)
Definition batch_stochastic_gradient_descent
    (nn : Network) (mini_batch : list sample) (eta : R)
  : Network * result unit :=
  match batch_backprop nn mini_batch with
  | Raise e => (nn, Raise e)
  | Ok (nabla_b, nabla_w) =>
      match descend eta (length mini_batch) (weights nn) nabla_w with
      | Raise e => (nn, Raise e)
      | Ok ws =>
          let nn1 := {| num_layers := num_layers nn; biases := biases nn;
                        weights := ws |} in
          match descend eta (length mini_batch) (biases nn1) nabla_b with
          | Raise e => (nn1, Raise e)
          | Ok bs =>
              ({| num_layers := num_layers nn1; biases := bs;
                  weights := weights nn1 |}, Ok tt)
          end
      end
  end.

(** ** Learning *)

(** The state of Python's random generator: the stream of the integers it
    will produce and the position reached in it. *)
Record rng : Type := {
  tape : nat -> nat;
  cursor : nat
}.

(** [randbelow(n)] for a positive [n]: the next integer, reduced below [n]. *)
Definition randbelow (g : rng) (n : nat) : nat * rng :=
  (tape g (cursor g) `mod` n, {| tape := tape g; cursor := S (cursor g) |}).

(** [x[i], x[j] = x[j], x[i]]; both positions are inside the list whenever
    [random.shuffle] runs it. *)
Definition swap {A : Type} (x : list A) (i j : nat) : list A :=
  match x !! j, x !! i with
  | Some xj, Some xi => <[j := xi]> (<[i := xj]> x)
  | _, _ => x
  end.

(** [random.shuffle(x)]:
    [for i in reversed(range(1, len(x))): j = randbelow(i + 1); swap]. *)
Definition shuffle {A : Type} (g : rng) (x : list A) : list A * rng :=
  foldl
    (fun '(x, g) i => let '(j, g') := randbelow g (i + 1) in (swap x i j, g'))
    (x, g) (reverse (seq 1 (length x - 1))).

(** [[training_data[k : k + mini_batch_size]
      for k in range(0, n, mini_batch_size)]] *)
Definition mini_batches_of {A : Type} (training_data : list A) (n : nat)
    (mini_batch_size : Z) : result (list (list A)) :=
  let* ks := py_range0 n mini_batch_size in
  Ok ((fun k => py_slice training_data k (Z.to_nat mini_batch_size)) <$> ks).

(** [for mini_batch in mini_batches: batch_stochastic_gradient_descent(...)] *)
Fixpoint train_mini_batches (nn : Network) (mini_batches : list (list sample))
    (eta : R) : Network * result unit :=
  match mini_batches with
  | [] => (nn, Ok tt)
  | mini_batch :: rest =>
      match batch_stochastic_gradient_descent nn mini_batch eta with
      | (nn', Ok _) => train_mini_batches nn' rest eta
      | (nn', Raise e) => (nn', Raise e)
      end
  end.

(** What [learn] prints after an epoch. *)
Inductive report : Type :=
| Accuracy (epoch : nat) (percent : R)
| Complete (epoch : nat).

(** The objects [learn] changes: the network, the caller's list of training
    samples (shuffled in place), the random generator and the console. *)
Record store : Type := {
  st_nn : Network;
  st_training_data : list sample;
  st_rng : rng;
  st_printed : list report
}.

Definition set_nn (st : store) (nn : Network) : store :=
  {| st_nn := nn; st_training_data := st_training_data st;
     st_rng := st_rng st; st_printed := st_printed st |}.

Definition set_shuffled (st : store) (p : list sample * rng) : store :=
  {| st_nn := st_nn st; st_training_data := p.1;
     st_rng := p.2; st_printed := st_printed st |}.

Definition print (st : store) (r : report) : store :=
  {| st_nn := st_nn st; st_training_data := st_training_data st;
     st_rng := st_rng st; st_printed := st_printed st ++ [r] |}.

(** The body of [for j in range(epochs)]; [test_data] is [None] when the
    caller passes no test data. *)
Definition learn_epoch (n : nat) (mini_batch_size : Z) (learning_rate : R)
    (test_data : option (list test_sample)) (st : store) (j : nat)
  : store * result unit :=
  let st := set_shuffled st (shuffle (st_rng st) (st_training_data st)) in
  match mini_batches_of (st_training_data st) n mini_batch_size with
  | Raise e => (st, Raise e)
  | Ok mini_batches =>
      let '(nn', r) := train_mini_batches (st_nn st) mini_batches learning_rate in
      let st := set_nn st nn' in
      match r with
      | Raise e => (st, Raise e)
      | Ok _ =>
          match test_data with
          | Some (t :: ts) =>
              match evaluate nn' (t :: ts) with
              | Raise e => (st, Raise e)
              | Ok c =>
                  (print st (Accuracy (j + 1)
                               (100 * INR c / INR (length (t :: ts)))%R),
                   Ok tt)
              end
          | _ => (print st (Complete (j + 1)), Ok tt)
          end
      end
  end.

Fixpoint learn_epochs (body : store -> nat -> store * result unit) (st : store)
    (js : list nat) : store * result unit :=
  match js with
  | [] => (st, Ok tt)
  | j :: js' =>
      match body st j with
      | (st', Ok _) => learn_epochs body st' js'
      | (st', Raise e) => (st', Raise e)
      end
  end.

Definition learn (st : store) (epochs : nat) (mini_batch_size : Z)
    (learning_rate : R) (test_data : option (list test_sample))
  : store * result unit :=
  let n := length (st_training_data st) in
  learn_epochs (learn_epoch n mini_batch_size learning_rate test_data) st
    (seq 0 epochs).

(** ** Shapes of networks and data *)

Definition stack_shape (B r c : nat) (s : stack) : Prop :=
  length s = B /\ Forall (has_shape r c) s.

(** The invariant of the parameter store for the layer sizes [sizes]: one
    bias column and one weight matrix per transition between consecutive
    layers, of the shapes the sizes fix. *)
Definition network_ok (sizes : list nat) (nn : Network) : Prop :=
  num_layers nn = length sizes /\
  length (biases nn) = length sizes - 1 /\
  length (weights nn) = length sizes - 1 /\
  forall i n_in n_out b w,
    sizes !! i = Some n_in -> sizes !! S i = Some n_out ->
    biases nn !! i = Some b -> weights nn !! i = Some w ->
    has_shape n_out 1 b /\ has_shape n_out n_in w.

Definition positive_sizes (sizes : list nat) : Prop :=
  Forall (fun n => 0 < n) sizes.

(** The same invariant along the list of layers, for inductions. *)
Inductive layers_ok : nat -> list nat -> list (matrix * matrix) -> Prop :=
| layers_ok_nil n : layers_ok n [] []
| layers_ok_cons n_in n_out outs b w layers :
    has_shape n_out 1 b ->
    has_shape n_out n_in w ->
    layers_ok n_out outs layers ->
    layers_ok n_in (n_out :: outs) ((b, w) :: layers).

(** Every sample of a mini-batch has an input of the first layer's size and
    a target of the last layer's size. *)
Definition batch_ok (sizes : list nat) (mini_batch : list sample) : Prop :=
  Forall
    (fun s => head sizes = Some (length s.1) /\ last sizes = Some (length s.2))
    mini_batch.

(** ** The equations of the forward pass *)

(** One transition: [z = W.a + b], then [a = sigmoid(z)], on arrays whose
    shapes fit. *)
Definition pre_activation (b w a : matrix) : matrix :=
  mzip Rplus (matmul_entries w a) b.

Definition transition (b w a : matrix) : matrix :=
  sigmoid (pre_activation b w a).

(** The activation after the first [k] transitions of the network. *)
Fixpoint activation_after (nn : Network) (a : matrix) (k : nat) : matrix :=
  match k with
  | 0 => a
  | S k' =>
      match biases nn !! k', weights nn !! k' with
      | Some b, Some w => transition b w (activation_after nn a k')
      | _, _ => activation_after nn a k'
      end
  end.

Definition forward (layers : list (matrix * matrix)) (a : matrix) : matrix :=
  foldl (fun a '(b, w) => transition b w a) a layers.

Definition unit_interval (m : matrix) : Prop :=
  Forall (Forall (fun t => (0 < t < 1)%R)) m.

(** ** A small network and data for it

    Layer sizes [2; 1; 3], and the two-sample mini-batch used with it. *)

Definition example_sizes : list nat := [2; 1; 3].

Definition example_network : Network :=
  {| num_layers := 3;
     biases := [ [[0%R]] ; [[0%R]; [1%R]; [1%R]] ];
     weights := [ [[1%R; 0%R]] ; [[1%R]; [2%R]; [3%R]] ] |}.

Definition example_batch : list sample :=
  [ ([1%R; 0%R], [1%R; 0%R; 0%R]) ; ([0%R; 1%R], [0%R; 0%R; 1%R]) ].

(** The toy network of layer sizes [2; 2] with its two samples: inputs and
    targets have the same length. *)

Definition square_network : Network :=
  {| num_layers := 2;
     biases := [ [[0%R]; [0%R]] ];
     weights := [ [[1%R; 0%R]; [0%R; 1%R]] ] |}.

Definition square_batch : list sample :=
  [ ([1%R; 0%R], [1%R; 0%R]) ; ([0%R; 1%R], [0%R; 1%R]) ].

(** ** The equations of backpropagation

    The quantities of the backward pass on stacks whose shapes fit, without
    the shape checks. *)

(** [z = W.a + b] on every slice. *)
Definition affine (b w : matrix) (s : stack) : stack :=
  pre_activation b w <$> s.

(** The [z] arrays of the transitions in order, from the input stack [a]. *)
Fixpoint forward_zs (layers : list (matrix * matrix)) (a : stack) : list stack :=
  match layers with
  | [] => []
  | (b, w) :: rest =>
      let z := affine b w a in
      z :: forward_zs rest (Batch.sigmoid z)
  end.

(** The activations: the input, then the [sigmoid] of every [z]. *)
Definition forward_activations (layers : list (matrix * matrix)) (a : stack)
  : list stack :=
  a :: (Batch.sigmoid <$> forward_zs layers a).

(** [(a_L - y) * sigmoid_prime(z_L)], elementwise. *)
Definition output_delta (a_last y z_last : stack) : stack :=
  zip_with (mzip Rmult) (zip_with (mzip Rminus) a_last y)
    (Batch.sigmoid_prime z_last).

(** [(W_next^T . delta_next) * sigmoid_prime(z)], elementwise. *)
Definition hidden_delta (w_next : matrix) (delta_next z : stack) : stack :=
  zip_with (mzip Rmult) (matmul_entries (transpose w_next) <$> delta_next)
    (Batch.sigmoid_prime z).

(** The delta summed over the batch axis. *)
Definition bias_gradient (delta : stack) : matrix := Batch.sum delta.

(** The batch-sum of delta times the transposed previous activation. *)
Definition weight_gradient (delta a_prev : stack) : matrix :=
  Batch.sum (zip_with matmul_entries delta (Batch.transpose a_prev)).

(** The delta of the transition [d] steps before the last one, for [K]
    transitions with weights [ws], [z] arrays [zs] and activations [acts]. *)
Fixpoint delta_back (ws : list matrix) (zs acts : list stack) (y : stack)
    (d : nat) : stack :=
  let K := length zs in
  match d with
  | 0 => output_delta (acts !!! K) y (zs !!! (K - 1))
  | S d' =>
      hidden_delta (ws !!! (K - 1 - d')) (delta_back ws zs acts y d')
        (zs !!! (K - 2 - d'))
  end.

(** The gradients the equations give for the stacked inputs [x] and
    targets [y]: the entry of transition [t] comes from the delta
    [K - 1 - t] steps before the last. *)
Definition backprop_gradients (nn : Network) (x y : stack)
  : list matrix * list matrix :=
  let layers := zip (biases nn) (weights nn) in
  let zs := forward_zs layers x in
  let acts := forward_activations layers x in
  let K := length zs in
  ((fun t => bias_gradient (delta_back (weights nn) zs acts y (K - 1 - t)))
     <$> seq 0 K,
   (fun t =>
      weight_gradient (delta_back (weights nn) zs acts y (K - 1 - t))
        (acts !!! t)) <$> seq 0 K).

(** The update rule on one parameter [p] with gradient [g]:
    [p - (eta / len) * g]. *)
Definition descent (eta : R) (len : nat) (p g : matrix) : matrix :=
  mzip Rminus p (scale (eta / INR len) g).

(** ** The unbatched reference

    The loop-based per-sample backpropagation that the batched one is
    cross-checked against is not among the sources.  It is modelled as the
    algorithm of the specification's section 4.3 for one sample [(x, y)],
    on two-axis arrays and without a batch axis. *)

(** Modelled from the spec: the forward pass of the missing per-sample
    backpropagation, retaining every layer's [z] and activation (including
    the input as activation 0). *)
Definition reference_forward_step (state : matrix * list matrix * list matrix)
    (layer : matrix * matrix) : result (matrix * list matrix * list matrix) :=
  let '(activation, activations, zs) := state in
  let '(b, w) := layer in
  let* wa := matmul w activation in
  let* z := madd wa b in
  let activation := sigmoid z in
  Ok (activation, activations ++ [activation], zs ++ [z]).

(** Modelled from the spec: one step of the backward walk of the missing
    per-sample backpropagation, [delta = (W_next^T . delta) *
    sigmoid_prime(z)], with the bias gradient [delta] and the weight
    gradient [delta . a_prev^T]. *)
Definition reference_backward_step (nn : Network) (activations zs : list matrix)
    (state : matrix * list matrix * list matrix) (i : Z)
  : result (matrix * list matrix * list matrix) :=
  let '(delta, nabla_b, nabla_w) := state in
  let* z := py_getitem zs (- i) in
  let sp := sigmoid_prime z in
  let* w := py_getitem (weights nn) (- i + 1) in
  let* wd := matmul (transpose w) delta in
  let* delta := mmul wd sp in
  let* nabla_b := py_setitem nabla_b (- i) delta in
  let* a_prev := py_getitem activations (- i - 1) in
  let* dw := matmul delta (transpose a_prev) in
  let* nabla_w := py_setitem nabla_w (- i) dw in
  Ok (delta, nabla_b, nabla_w).

(** Modelled from the spec: the missing per-sample backpropagation.  The
    output-layer error is [(a_L - y) * sigmoid_prime(z_L)]; the gradients of
    the one sample are returned, one per bias column and one per weight
    matrix. *)
Definition backprop_reference (nn : Network) (x y : matrix)
  : result (list matrix * list matrix) :=
  let nabla_b := zeros_like <$> biases nn in
  let nabla_w := zeros_like <$> weights nn in
  let* (activation, activations, zs) :=
    for_each reference_forward_step (x, [x], [])
      (zip (biases nn) (weights nn)) in
  let* a_last := py_getitem activations (-1) in
  let* cd := cost_derivative a_last y in
  let* z_last := py_getitem zs (-1) in
  let* delta := mmul cd (sigmoid_prime z_last) in
  let* nabla_b := py_setitem nabla_b (-1) delta in
  let* a_prev := py_getitem activations (-2) in
  let* dw := matmul delta (transpose a_prev) in
  let* nabla_w := py_setitem nabla_w (-1) dw in
  let* (delta, nabla_b, nabla_w) :=
    for_each (reference_backward_step nn activations zs)
      (delta, nabla_b, nabla_w) (Z.of_nat <$> seq 2 (num_layers nn - 2)) in
  Ok (nabla_b, nabla_w).

(** A one-sample stack. *)
Definition one (m : matrix) : stack := [m].

(** The state of the reference's loops as the state of the batched loops
    on a one-sample mini-batch. *)
Definition lift_forward (s : matrix * list matrix * list matrix)
  : stack * list stack * list stack :=
  ([s.1.1], one <$> s.1.2, one <$> s.2).

Definition lift_backward (s : matrix * list matrix * list matrix)
  : stack * list matrix * list matrix :=
  ([s.1.1], s.1.2, s.2).

(** ** Mini-batches and predictions, as the specification words them *)

(** The slices [l[0:s]], [l[s:2s]], ... *)
Definition slices {A : Type} (l : list A) (s count : nat) : list (list A) :=
  (fun i => take s (drop (i * s) l)) <$> seq 0 count.

(** [i] is the position of the largest entry of [l], the lowest one when
    the largest entry occurs several times. *)
Definition first_max (l : list R) (i : nat) : Prop :=
  exists t, l !! i = Some t
    /\ (forall j u, l !! j = Some u -> (u <= t)%R)
    /\ (forall j u, j < i -> l !! j = Some u -> (u < t)%R).

Definition predicted_class (nn : Network) (x : list R) (i : nat) : Prop :=
  exists out, feedforward nn (column x) = Ok out /\ first_max (flatten out) i.

(** The test samples whose label is the predicted class. *)
Definition matches (test_data : list test_sample) (predictions : list nat)
  : list (test_sample * nat) :=
  filter (fun p => p.1.2 = Z.of_nat p.2) (zip test_data predictions).

Definition example_rng : rng := {| tape := fun k => 7 * k + 3; cursor := 0 |}.

Definition example_test_data : list test_sample :=
  [ ([1%R; 0%R], 2%Z) ; ([0%R; 1%R], 0%Z) ].

Definition example_store : store :=
  {| st_nn := example_network; st_training_data := example_batch;
     st_rng := example_rng; st_printed := [] |}.

(** ** The rest of the notebook *)

(** One entry of [sigmoid_prime(z)], for the entry [t] of [z]:
    [sigmoid(t) * (1 - sigmoid(t))]. *)
Definition sigmoid_prime1 (t : R) : R := (sigmoid1 t * (1 - sigmoid1 t))%R.

(** *** MNIST data *)

(** [def one_hot_encode(j): e = np.zeros((10, 1)); e[j] = 1.0; return e].
    The integer index selects a row, negative indices counting from the
    end; the scalar fills the row. *)
Definition one_hot_encode (j : Z) : result matrix :=
  let e := replicate 10 [0%R] in
  let* i := py_pos e j in
  Ok (alter (map (fun _ => 1%R)) i e).

(** [np.reshape(x, (784, 1))] of a one-axis array [x], as the list of the
    entries of the column: the array must have 784 entries. *)
Definition reshape_784 (x : list R) : result (list R) :=
  if length x =? 784 then Ok x else Raise ValueError.

(** What [load_data()] unpickles for one of the three data sets: the images,
    one row of pixels each, and the digits. *)
Definition dataset : Type := list (list R) * list Z.

(** [def load_data_wrapper()], from the three data sets [load_data()]
    returned.  The list comprehensions run in the source's order; [zip]
    stops at the shorter of its two arguments.  A training sample keeps
    the entries of its (784, 1) input and of its (10, 1) target, as
    [sample] does. *)
Definition load_data_wrapper (tr_d va_d te_d : dataset)
  : result (list sample * list test_sample * list test_sample) :=
  let* training_inputs := comprehension reshape_784 tr_d.1 in
  let* training_results := comprehension one_hot_encode tr_d.2 in
  let training_data := zip training_inputs (flatten <$> training_results) in
  let* validation_inputs := comprehension reshape_784 va_d.1 in
  let validation_data := zip validation_inputs va_d.2 in
  let* test_inputs := comprehension reshape_784 te_d.1 in
  let test_data := zip test_inputs te_d.2 in
  Ok (training_data, validation_data, test_data).

(** One image of 784 black pixels with the digit 3, for the three data
    sets. *)
Definition example_dataset : dataset := ([replicate 784 0%R], [3%Z]).

(** The layer sizes of the network the notebook trains:
    [init_network([784, 30, 10])]. *)
Definition mnist_sizes : list nat := [784; 30; 10].

(** *** Outcomes of a run *)

(** The outcome is not a division by zero. *)
Definition no_zero_division {A : Type} (r : result A) : Prop :=
  r <> Raise ZeroDivisionError.

(** What [learn] prints after epoch [j] (counted from 0): the accuracy on a
    non-empty test set, a percentage of a count [c] of its samples, or the
    completion notice. *)
Definition epoch_report (test_data : option (list test_sample)) (j : nat)
    (r : report) : Prop :=
  match test_data with
  | Some (t :: ts) =>
      exists c, c <= length (t :: ts) /\
        r = Accuracy (j + 1) (100 * INR c / INR (length (t :: ts)))%R
  | _ => r = Complete (j + 1)
  end.

(* ===================================================================== *)
(** * Properties *)
(* ===================================================================== *)

(** ** Shapes *)

Section shapes.
Implicit Types (a b m w : matrix) (s : stack) (r c n p : nat).

Lemma has_shape_lengths r c m : has_shape r c m <-> length <$> m = replicate r c.
Proof.
  unfold has_shape. split.
  - intros [<- H]. induction H as [|row m' Hrow _ IH]; csimpl; [done|]. by rewrite Hrow, IH.
  - revert r. induction m as [|row m' IH]; intros [|r] Heq; simplify_eq/=; [done|].
    destruct (IH r) as [-> ?]; [done|]. split; [done|]. by constructor.
Qed.

Lemma same_shape_true a b : same_shape a b = true <-> length <$> a = length <$> b.
Proof. unfold same_shape. apply bool_decide_eq_true. Qed.

Lemma mmap_lengths f m : length <$> mmap f m = length <$> m.
Proof. unfold mmap. induction m; csimpl; [done|]. by rewrite length_map, IHm. Qed.

Lemma mzip_lengths f a b :
  length <$> a = length <$> b -> length <$> mzip f a b = length <$> a.
Proof.
  unfold mzip. revert b.
  induction a as [|r a IH]; intros [|r' b] Heq; simplify_eq/=; [done|].
  rewrite length_zip_with, IH by done. f_equal. lia.
Qed.

Lemma mmap_shape f r c m : has_shape r c m -> has_shape r c (mmap f m).
Proof. rewrite !has_shape_lengths, mmap_lengths. done. Qed.

Lemma mzip_shape f r c a b :
  has_shape r c a -> has_shape r c b -> has_shape r c (mzip f a b).
Proof.
  rewrite !has_shape_lengths. intros Ha Hb. rewrite mzip_lengths; congruence.
Qed.

Lemma elementwise_ok f r c a b :
  has_shape r c a -> has_shape r c b -> elementwise f a b = Ok (mzip f a b).
Proof.
  rewrite !has_shape_lengths. intros Ha Hb. unfold elementwise.
  replace (same_shape a b) with true; [done|].
  symmetry. apply same_shape_true. congruence.
Qed.

Lemma column_shape (v : list R) : has_shape (length v) 1 (column v).
Proof.
  unfold column. split; [by rewrite length_fmap|].
  apply Forall_fmap, Forall_true. done.
Qed.

Lemma transpose_shape r c m : 0 < r -> has_shape r c m -> has_shape c r (transpose m).
Proof.
  intros Hr [<- Hm]. induction Hm as [|row m' Hrow Hm' IH]; [simpl in Hr; lia|].
  destruct m' as [|row' m''].
  - simpl. split; [by rewrite length_fmap|]. apply Forall_fmap, Forall_true. done.
  - destruct IH as [IH1 IH2]; [simpl; lia|].
    change (transpose (row :: row' :: m'')) with (zip_with cons row (transpose (row' :: m''))).
    split.
    + rewrite length_zip_with. lia.
    + eapply Forall_zip_with_snd; [|exact IH2].
      apply Forall_true. intros x y Hy. simpl in *. lia.
Qed.

Lemma matmul_ok n c p a b :
  has_shape n c a -> has_shape c p b -> matmul a b = Ok (matmul_entries a b).
Proof.
  intros [_ Ha] [Hb _]. unfold matmul.
  replace (forallb _ a) with true; [done|].
  symmetry. apply Is_true_true, forallb_True. eapply Forall_impl; [exact Ha|].
  intros row Hrow. simpl in *. apply Is_true_true, Nat.eqb_eq. lia.
Qed.

Lemma matmul_shape n c p a b :
  0 < c -> has_shape n c a -> has_shape c p b -> has_shape n p (matmul_entries a b).
Proof.
  intros Hc [Ha _] Hb. apply transpose_shape in Hb as [Hb _]; [|done].
  unfold matmul_entries. split; [by rewrite length_fmap|].
  apply Forall_fmap, Forall_true. intros row. simpl. by rewrite length_fmap.
Qed.
End shapes.

(** ** The forward pass *)

Lemma layers_ok_of_lookups n0 outs (bs ws : list matrix) :
  length bs = length outs -> length ws = length outs ->
  (forall i n_in n_out b w,
      (n0 :: outs) !! i = Some n_in -> (n0 :: outs) !! S i = Some n_out ->
      bs !! i = Some b -> ws !! i = Some w ->
      has_shape n_out 1 b /\ has_shape n_out n_in w) ->
  layers_ok n0 outs (zip bs ws).
Proof.
  revert n0 bs ws.
  induction outs as [|n1 outs IH]; intros n0 [|b bs] [|w ws] Hb Hw Hall;
    simplify_eq/=; [constructor|].
  destruct (Hall 0 n0 n1 b w) as [? ?]; try done.
  constructor; [done..|]. apply IH; [done..|].
  intros i n_in n_out b' w' ? ? ? ?. by apply (Hall (S i)).
Qed.

Lemma network_ok_layers n0 outs nn :
  network_ok (n0 :: outs) nn -> layers_ok n0 outs (zip (biases nn) (weights nn)).
Proof.
  intros (_ & Hb & Hw & Hall). simpl in Hb, Hw.
  apply layers_ok_of_lookups; [lia..|done].
Qed.

Lemma transition_ok n_in n_out b w a :
  0 < n_in ->
  has_shape n_out 1 b -> has_shape n_out n_in w -> has_shape n_in 1 a ->
  (let* wa := matmul w a in let* z := madd wa b in Ok (sigmoid z))
  = Ok (transition b w a)
  /\ has_shape n_out 1 (transition b w a).
Proof.
  intros Hpos Hb Hw Ha.
  pose proof (matmul_shape _ _ _ _ _ Hpos Hw Ha) as Hwa.
  rewrite (matmul_ok _ _ _ _ _ Hw Ha). simpl.
  unfold madd. rewrite (elementwise_ok _ _ _ _ _ Hwa Hb). simpl.
  split; [done|]. apply mmap_shape, mzip_shape; done.
Qed.

Lemma feedforward_layers n outs layers a :
  layers_ok n outs layers -> positive_sizes (n :: outs) -> has_shape n 1 a ->
  for_each
    (fun a '(b, w) =>
       let* wa := matmul w a in let* z := madd wa b in Ok (sigmoid z))
    a layers = Ok (forward layers a)
  /\ forall m, last (n :: outs) = Some m -> has_shape m 1 (forward layers a).
Proof.
  intros Hl. revert a.
  induction Hl as [n|n_in n_out outs b w layers Hb Hw Hl IH]; intros a Hpos Ha.
  - split; [done|]. intros m [= <-]. done.
  - apply Forall_cons in Hpos as [Hn Hpos].
    destruct (transition_ok _ _ _ _ _ Hn Hb Hw Ha) as [Heq Hshape].
    destruct (IH _ Hpos Hshape) as [IH1 IH2].
    cbn [for_each]. rewrite Heq. cbn [bind].
    split; [exact IH1|]. intros m. rewrite last_cons_cons. apply IH2.
Qed.

Lemma activation_after_forward nn a k :
  k <= length (zip (biases nn) (weights nn)) ->
  activation_after nn a k = forward (take k (zip (biases nn) (weights nn))) a.
Proof.
  induction k as [|k IH]; intros Hk; [done|].
  destruct (lookup_lt_is_Some_2 (zip (biases nn) (weights nn)) k) as [[b w] Hbw]; [lia|].
  rewrite (take_S_r _ _ _ Hbw). unfold forward. rewrite foldl_app. simpl.
  apply lookup_zip_with_Some in Hbw as (b' & w' & ? & -> & ->). simplify_eq.
  fold (forward (take k (zip (biases nn) (weights nn))) a).
  rewrite <- IH by lia. done.
Qed.

Lemma feedforward_ends_in_sigmoid layers a out :
  layers <> [] ->
  for_each
    (fun a '(b, w) =>
       let* wa := matmul w a in let* z := madd wa b in Ok (sigmoid z))
    a layers = Ok out ->
  exists z, out = sigmoid z.
Proof.
  revert a. induction layers as [|[b w] layers IH]; intros a Hne Hrun; [done|].
  cbn [for_each] in Hrun.
  destruct (matmul w a) as [wa|]; [|done]. cbn [bind] in Hrun.
  destruct (madd wa b) as [z|]; [|done]. cbn [bind] in Hrun.
  destruct layers as [|l layers].
  - simpl in Hrun. exists z. congruence.
  - eapply IH; [done|exact Hrun].
Qed.

Lemma sigmoid1_bounds t : (0 < sigmoid1 t < 1)%R.
Proof.
  unfold sigmoid1. pose proof (exp_pos (- t)) as He.
  split.
  - apply Rdiv_lt_0_compat; lra.
  - apply (Rmult_lt_reg_r (1 + exp (- t))); [lra|].
    unfold Rdiv. rewrite Rmult_assoc, Rinv_l by lra. lra.
Qed.

Lemma sigmoid_unit_interval z : unit_interval (sigmoid z).
Proof.
  unfold unit_interval, sigmoid, mmap.
  apply Forall_fmap, Forall_true. intros row.
  apply Forall_fmap, Forall_true. intros t. apply sigmoid1_bounds.
Qed.

Lemma feedforward_network_ok sizes nn x :
  network_ok sizes nn -> positive_sizes sizes -> head sizes = Some (length x) ->
  feedforward nn (column x)
  = Ok (forward (zip (biases nn) (weights nn)) (column x))
  /\ forall m, last sizes = Some m ->
       has_shape m 1 (forward (zip (biases nn) (weights nn)) (column x)).
Proof.
  intros Hnn Hpos Hx. destruct sizes as [|n0 outs]; [done|].
  simpl in Hx. injection Hx as ->.
  apply (feedforward_layers _ _ _ (column x) (network_ok_layers _ _ _ Hnn) Hpos).
  apply column_shape.
Qed.

Lemma example_network_ok : network_ok example_sizes example_network.
Proof.
  repeat split; try reflexivity;
    destruct i as [|[|[|i]]]; simplify_eq/=; repeat constructor.
Qed.

Lemma example_sizes_positive : positive_sizes example_sizes.
Proof. repeat constructor. Qed.

(** ** Forward propagation: the claims *)

(** C3.  For a network that satisfies the shape invariant of its layer sizes
    and an input column of the first layer's size, [feedforward] returns the
    activation obtained by applying the L-1 transitions in order, each one
    [z = W.a + b] followed by [a = sigmoid(z)]; the result has the last
    layer's size.  [feedforward] is a function of the network and the input
    only: it returns a value and changes no parameter. *)
Theorem feedforward_applies_transitions sizes nn x :
  network_ok sizes nn -> positive_sizes sizes -> head sizes = Some (length x) ->
  feedforward nn (column x)
  = Ok (activation_after nn (column x) (length sizes - 1))
  /\ (forall m, last sizes = Some m ->
        has_shape m 1 (activation_after nn (column x) (length sizes - 1)))
  /\ (forall k, k < length sizes - 1 ->
        exists b w, biases nn !! k = Some b /\ weights nn !! k = Some w /\
          activation_after nn (column x) (S k)
          = sigmoid
              (mzip Rplus (matmul_entries w (activation_after nn (column x) k)) b)).
Proof.
  intros Hnn Hpos Hx.
  destruct (feedforward_network_ok _ _ _ Hnn Hpos Hx) as [Hrun Hshape].
  destruct Hnn as (_ & Hb & Hw & _).
  assert (length (zip (biases nn) (weights nn)) = length sizes - 1) as Hlen.
  { rewrite length_zip. lia. }
  rewrite activation_after_forward, <- Hlen, firstn_all by lia.
  split; [done|]. split; [done|].
  intros k Hk.
  destruct (lookup_lt_is_Some_2 (biases nn) k) as [b Hbk]; [lia|].
  destruct (lookup_lt_is_Some_2 (weights nn) k) as [w Hwk]; [lia|].
  exists b, w. simpl. rewrite Hbk, Hwk. done.
Qed.

Lemma feedforward_applies_transitions_witness :
  feedforward example_network (column [1%R; 0%R])
  = Ok (activation_after example_network (column [1%R; 0%R]) 2).
Proof.
  apply (feedforward_applies_transitions example_sizes example_network
           [1%R; 0%R] example_network_ok example_sizes_positive eq_refl).
Defined.

(** C10.  Over the reals, every entry of the array [feedforward] returns for
    a network with at least one transition lies strictly between 0 and 1:
    the array is the [sigmoid] of the last pre-activation.  This holds for
    the output on an input column of the first layer's size, which
    [feedforward] does return, and for whatever else it returns. *)
Theorem feedforward_output_in_unit_interval sizes nn x :
  network_ok sizes nn -> positive_sizes sizes -> 2 <= length sizes ->
  head sizes = Some (length x) ->
  (exists out, feedforward nn (column x) = Ok out /\ unit_interval out)
  /\ (forall a out, feedforward nn a = Ok out -> unit_interval out).
Proof.
  intros Hnn Hpos HL Hx.
  destruct (feedforward_network_ok _ _ _ Hnn Hpos Hx) as [Hrun _].
  destruct Hnn as (_ & Hb & Hw & _).
  assert (zip (biases nn) (weights nn) <> []) as Hne.
  { intros H. apply (f_equal length) in H. rewrite length_zip in H.
    simpl in H. lia. }
  assert (forall a out, feedforward nn a = Ok out -> unit_interval out) as Hall.
  { intros a out Ha.
    destruct (feedforward_ends_in_sigmoid _ _ _ Hne Ha) as [z ->].
    apply sigmoid_unit_interval. }
  split; [|exact Hall]. eexists. split; [exact Hrun|]. by eapply Hall.
Qed.

Lemma feedforward_output_in_unit_interval_witness :
  exists out,
    feedforward example_network (column [1%R; 0%R]) = Ok out /\ unit_interval out.
Proof.
  apply (feedforward_output_in_unit_interval example_sizes example_network
           [1%R; 0%R] example_network_ok example_sizes_positive).
  - simpl. lia.
  - reflexivity.
Defined.

(** ** Shuffling and mini-batches *)

Lemma swap_Permutation {A} (x : list A) i j : swap x i j ≡ₚ x.
Proof.
  unfold swap. destruct (x !! j) as [xj|] eqn:Hj; [|done].
  destruct (x !! i) as [xi|] eqn:Hi; [|done].
  by apply Permutation_insert_swap.
Qed.

Lemma shuffle_steps_Permutation {A} (ks : list nat) g (x : list A) :
  (foldl
     (fun '(x, g) i => let '(j, g') := randbelow g (i + 1) in (swap x i j, g'))
     (x, g) ks).1 ≡ₚ x.
Proof.
  revert x g. induction ks as [|i ks IH]; intros x g; [done|].
  cbn [foldl]. destruct (randbelow g (i + 1)) as [j g'].
  rewrite IH. apply swap_Permutation.
Qed.

Lemma shuffle_Permutation {A} g (x : list A) : (shuffle g x).1 ≡ₚ x.
Proof. apply shuffle_steps_Permutation. Qed.

Lemma shuffle_length {A} g (x : list A) : length (shuffle g x).1 = length x.
Proof. apply Permutation_length, shuffle_Permutation. Qed.

Lemma py_range0_positive stop (s : nat) :
  0 < s ->
  py_range0 stop (Z.of_nat s) = Ok ((fun i => i * s) <$> seq 0 ((stop + s - 1) / s)).
Proof.
  intros Hs. unfold py_range0.
  destruct (Z.eqb_spec (Z.of_nat s) 0); [lia|].
  destruct (Z.ltb_spec (Z.of_nat s) 0); [lia|].
  by rewrite Nat2Z.id.
Qed.

Lemma mini_batches_of_positive {A} (l : list A) n (s : nat) :
  0 < s ->
  mini_batches_of l n (Z.of_nat s) = Ok (slices l s ((n + s - 1) / s)).
Proof.
  intros Hs. unfold mini_batches_of. rewrite py_range0_positive by done.
  cbn [bind]. rewrite Nat2Z.id. unfold slices, py_slice.
  by rewrite <- list_fmap_compose.
Qed.

Lemma concat_slices {A} (l : list A) s count :
  concat (slices l s count) = take (count * s) l.
Proof.
  unfold slices. induction count as [|count IH]; [done|].
  rewrite seq_S, fmap_app, concat_app, IH. simpl. rewrite app_nil_r.
  rewrite take_take_drop. f_equal. lia.
Qed.

Lemma slices_lookup {A} (l : list A) s count i b :
  slices l s count !! i = Some b <-> i < count /\ b = take s (drop (i * s) l).
Proof.
  unfold slices. rewrite list_lookup_fmap, fmap_Some. split.
  - intros (k & Hk & ->). apply lookup_seq in Hk as [-> ?]. done.
  - intros [Hi ->]. exists i. split; [|done]. apply lookup_seq. done.
Qed.

Lemma ceil_div_bounds n s :
  0 < s -> let c := (n + s - 1) / s in (c * s < n + s) /\ n <= c * s.
Proof.
  intros Hs c. subst c.
  pose proof (Nat.div_mod (n + s - 1) s ltac:(lia)) as Hdm.
  pose proof (Nat.mod_upper_bound (n + s - 1) s ltac:(lia)) as Hub.
  nia.
Qed.

(** C5, as amended.  In each epoch of [learn], for a positive mini-batch
    size [m], the mini-batches are the contiguous slices [0:m], [m:2m], ...
    of the shuffled training set, in order: their concatenation is the
    shuffled set, every batch but the last has [m] samples, the last has
    [n mod m] samples when that is not zero, and a non-empty training set
    with [n <= m] gives the single batch of all the samples.  There are
    [ceil(n / m)] batches, none of them empty: an empty training set gives
    no batch at all. *)
Theorem learn_mini_batches (training_data : list sample) g (m : Z) :
  (0 < m)%Z ->
  let l := (shuffle g training_data).1 in
  let n := length training_data in
  let s := Z.to_nat m in
  exists bs,
    mini_batches_of l n m = Ok bs /\
    concat bs = l /\
    (forall i b, bs !! i = Some b -> b = take s (drop (i * s) l)) /\
    (forall i b, bs !! i = Some b -> S i < length bs -> length b = s) /\
    (n `mod` s <> 0 -> exists b, last bs = Some b /\ length b = n `mod` s) /\
    (0 < n -> n <= s -> bs = [l]) /\
    length bs = (n + s - 1) / s /\
    (forall i b, bs !! i = Some b -> 0 < length b <= s) /\
    (n = 0 -> bs = []).
Proof.
  intros Hm l n s.
  assert (0 < s) as Hs by (subst s; lia).
  assert (length l = n) as Hl by apply shuffle_length.
  destruct (ceil_div_bounds n s Hs) as [Hc1 Hc2].
  set (c := (n + s - 1) / s) in *.
  exists (slices l s c).
  assert (length (slices l s c) = c) as Hlen.
  { unfold slices. by rewrite length_fmap, length_seq. }
  split; [|split; [|split; [|split; [|split; [|split; [|split; [|split]]]]]]].
  - replace m with (Z.of_nat s) by (subst s; lia).
    by apply mini_batches_of_positive.
  - rewrite concat_slices. apply take_ge. lia.
  - intros i b Hb. by apply slices_lookup in Hb as [_ ->].
  - intros i b Hb Hi. apply slices_lookup in Hb as [_ ->].
    rewrite length_take, length_drop. nia.
  - intros Hmod.
    pose proof (Nat.div_mod n s ltac:(lia)) as Hdm.
    pose proof (Nat.mod_upper_bound n s ltac:(lia)) as Hub.
    assert (c = S (n / s)) as Hc by nia.
    exists (take s (drop (n / s * s) l)). split.
    + rewrite last_lookup, Hlen, Hc. simpl. apply slices_lookup. split; [lia|done].
    + rewrite length_take, length_drop. nia.
  - intros Hn Hns. assert (c = 1) as -> by nia.
    unfold slices. simpl. rewrite drop_0, take_ge by lia. done.
  - exact Hlen.
  - intros i b Hb. apply slices_lookup in Hb as [Hi ->].
    rewrite length_take, length_drop. nia.
  - intros Hn. assert (c = 0) as -> by nia. done.
Qed.

Lemma learn_mini_batches_witness :
  exists bs,
    mini_batches_of (shuffle example_rng example_batch).1 2 2 = Ok bs /\
    concat bs = (shuffle example_rng example_batch).1.
Proof.
  destruct (learn_mini_batches example_batch example_rng 2 eq_refl)
    as (bs & H1 & H2 & _).
  exists bs. split; [exact H1 | exact H2].
Defined.

(** The claim as stated fails for the empty training set: [m >= n] holds and
    [range(0, 0, m)] is empty, so the epoch has no batch, not one. *)
Lemma empty_training_set_has_no_batch :
  (1 >= Z.of_nat (length (@nil sample)))%Z /\
  mini_batches_of (shuffle example_rng (@nil sample)).1 (length (@nil sample)) 1
  = Ok [] /\
  ~ (exists b,
        mini_batches_of (shuffle example_rng (@nil sample)).1
          (length (@nil sample)) 1 = Ok [b]).
Proof.
  split; [simpl; lia|]. split; [reflexivity|]. intros [b Hb]. discriminate Hb.
Qed.

(** ** The training loop *)

Lemma learn_epoch_training_data n m eta test st j :
  st_training_data (learn_epoch n m eta test st j).1
  = (shuffle (st_rng st) (st_training_data st)).1.
Proof.
  unfold learn_epoch.
  destruct (mini_batches_of _ n m) as [bs|e]; [|done].
  destruct (train_mini_batches _ bs eta) as [nn' [[]|e]]; [|done].
  destruct test as [[|t ts]|]; [done| |done].
  destruct (evaluate nn' (t :: ts)); done.
Qed.



Lemma mini_batches_of_zero {A} (l : list A) n :
  mini_batches_of l n 0 = Raise ValueError.
Proof. reflexivity. Qed.

(** C6.  With a mini-batch size of zero and at least one epoch, [learn]
    raises [ValueError] in the first epoch, when [range(0, n, 0)] is
    evaluated to build the mini-batches: no mini-batch exists, the network
    is the one before the call, nothing has been printed, and the division
    by the mini-batch length (which would raise [ZeroDivisionError]) is not
    what fails. *)
Theorem learn_zero_mini_batch_size st epochs eta test :
  st_training_data st <> [] -> 0 < epochs ->
  let after := learn st epochs 0 eta test in
  after.2 = Raise ValueError
  /\ st_nn after.1 = st_nn st
  /\ st_printed after.1 = st_printed st
  /\ mini_batches_of (st_training_data after.1)
       (length (st_training_data st)) 0 = Raise ValueError.
Proof.
  intros _ Hepochs. destruct epochs as [|epochs]; [lia|].
  split; [done|]. split; [done|]. split; [done|]. apply mini_batches_of_zero.
Qed.

(** ** Evaluation *)

Lemma first_max_snoc_lt p i t u :
  first_max p i -> p !! i = Some t -> (t < u)%R -> first_max (p ++ [u]) (length p).
Proof.
  intros (t' & Hi & Hall & Hlow) Hit Htu.
  assert (t' = t) as -> by congruence.
  exists u. split; [|split].
  - rewrite lookup_app_r, Nat.sub_diag by lia. done.
  - intros j v Hj. apply lookup_app_Some in Hj as [Hj|[_ Hj]].
    + specialize (Hall _ _ Hj). lra.
    + apply list_lookup_singleton_Some in Hj as [_ ->]. lra.
  - intros j v Hlt Hj. rewrite lookup_app_l in Hj by done.
    specialize (Hall _ _ Hj). lra.
Qed.

Lemma first_max_snoc_ge p i t u :
  first_max p i -> p !! i = Some t -> ~ (t < u)%R -> first_max (p ++ [u]) i.
Proof.
  intros (t' & Hi & Hall & Hlow) Hit Htu.
  assert (t' = t) as -> by congruence.
  exists t. split; [|split].
  - apply lookup_app_l_Some. done.
  - intros j v Hj. apply lookup_app_Some in Hj as [Hj|[_ Hj]].
    + by eapply Hall.
    + apply list_lookup_singleton_Some in Hj as [_ ->]. lra.
  - intros j v Hlt Hj. apply lookup_lt_Some in Hit.
    rewrite lookup_app_l in Hj by lia. by eapply Hlow.
Qed.

Lemma argmax_scan_first_max p best best_i l :
  first_max p best_i -> p !! best_i = Some best ->
  first_max (p ++ l) (argmax_scan best best_i (length p) l).
Proof.
  revert p best best_i. induction l as [|u l IH]; intros p best best_i Hmax Hbest.
  - simpl. by rewrite app_nil_r.
  - simpl. rewrite (cons_middle u p l), app_assoc.
    replace (S (length p)) with (length (p ++ [u])) by (rewrite length_app; simpl; lia).
    destruct (Rlt_dec best u) as [Hlt|Hge].
    + apply IH.
      * by eapply first_max_snoc_lt.
      * rewrite lookup_app_r, Nat.sub_diag by lia. done.
    + apply IH.
      * by eapply first_max_snoc_ge.
      * by apply lookup_app_l_Some.
Qed.

Lemma argmax_first_max m i : argmax m = Ok i -> first_max (flatten m) i.
Proof.
  unfold argmax. destruct (flatten m) as [|t l]; [done|].
  intros [= <-]. apply (argmax_scan_first_max [t] t 0 l); [|done].
  exists t. split; [done|]. split.
  - intros [|j] u Hj; simplify_eq/=. lra.
  - intros j u Hj. lia.
Qed.

Lemma first_max_unique l i j : first_max l i -> first_max l j -> i = j.
Proof.
  intros (t & Hi & Hall & Hlow) (u & Hj & Hall' & Hlow').
  destruct (Nat.lt_trichotomy i j) as [Hlt|[->|Hlt]]; [|done|].
  - specialize (Hlow' _ _ Hlt Hi). specialize (Hall _ _ Hj). lra.
  - specialize (Hlow _ _ Hlt Hj). specialize (Hall' _ _ Hi). lra.
Qed.

Lemma argmax_column_ok m out : 0 < m -> has_shape m 1 out -> exists i, argmax out = Ok i.
Proof.
  intros Hm [Hlen Hrows]. unfold argmax, flatten.
  destruct out as [|row out]; [simpl in Hlen; lia|].
  apply Forall_cons in Hrows as [Hrow _].
  destruct row as [|t row]; [done|]. simpl. eauto.
Qed.

Lemma evaluate_sum_matches (test_data : list test_sample) (ps : list nat) :
  length ps = length test_data ->
  foldr Nat.add 0
    ((fun '(x, y) => int_of_bool (Z.of_nat x =? y)%Z) <$> zip ps test_data.*2)
  = length (matches test_data ps).
Proof.
  unfold matches. revert ps.
  induction test_data as [|[x y] td IH]; intros [|p ps] Hlen; simplify_eq/=; [done|].
  rewrite IH by done. rewrite filter_cons. simpl.
  destruct (Z.eqb_spec (Z.of_nat p) y) as [Heq|Hne].
  - rewrite decide_True by done. done.
  - rewrite decide_False by done. done.
Qed.

Lemma evaluate_results sizes nn (test_data : list test_sample) :
  network_ok sizes nn -> positive_sizes sizes ->
  Forall (fun s => head sizes = Some (length s.1)) test_data ->
  exists ps,
    Forall2 (fun s i => predicted_class nn s.1 i) test_data ps /\
    comprehension
      (fun '(x, y) =>
         let* out := feedforward nn (column x) in
         let* i := argmax out in
         Ok (i, y))
      test_data = Ok (zip ps test_data.*2).
Proof.
  intros Hnn Hpos Htd.
  induction Htd as [|[x y] td Hx _ (ps & Hps & Hrun)]; [by exists []|].
  simpl in Hx.
  destruct (feedforward_network_ok _ _ _ Hnn Hpos Hx) as [Hff Hshape].
  destruct (last sizes) as [m|] eqn:Hlast;
    [|apply last_None in Hlast; by subst sizes].
  assert (0 < m) as Hm.
  { apply last_Some in Hlast as [sizes' ->].
    unfold positive_sizes in Hpos. rewrite Forall_app, Forall_singleton in Hpos.
    tauto. }
  destruct (argmax_column_ok m _ Hm (Hshape m eq_refl)) as [i Hi].
  exists (i :: ps). split.
  - constructor; [|done]. eexists. split; [exact Hff|]. by apply argmax_first_max.
  - cbn [comprehension]. rewrite Hff. cbn [bind]. rewrite Hi. cbn [bind].
    rewrite Hrun. done.
Qed.

(** C7.  For a network that satisfies its shape invariant and test inputs
    of the first layer's size, [evaluate] returns the number of samples
    whose label is the predicted class, the predicted class being the
    position of the largest entry of the [feedforward] output and the
    lowest such position when the entry is repeated (there is one such
    class for an input).  Hence the count is
    the size of the data when every label is the predicted class, and 0
    when none is. *)
Theorem evaluate_counts_matches sizes nn (test_data : list test_sample) :
  network_ok sizes nn -> positive_sizes sizes ->
  Forall (fun s => head sizes = Some (length s.1)) test_data ->
  (forall x i j, predicted_class nn x i -> predicted_class nn x j -> i = j) /\
  exists predictions,
    Forall2 (fun s i => predicted_class nn s.1 i) test_data predictions /\
    evaluate nn test_data = Ok (length (matches test_data predictions)) /\
    (Forall2 (fun s i => s.2 = Z.of_nat i) test_data predictions ->
     evaluate nn test_data = Ok (length test_data)) /\
    (Forall2 (fun s i => s.2 <> Z.of_nat i) test_data predictions ->
     evaluate nn test_data = Ok 0).
Proof.
  intros Hnn Hpos Htd. split.
  { intros x i j (out & Hout & Hi) (out' & Hout' & Hj).
    assert (out' = out) as -> by congruence. by eapply first_max_unique. }
  destruct (evaluate_results _ _ _ Hnn Hpos Htd) as (ps & Hps & Hrun).
  assert (evaluate nn test_data = Ok (length (matches test_data ps))) as Heval.
  { unfold evaluate. rewrite Hrun. cbn [bind].
    rewrite evaluate_sum_matches; [done|]. symmetry. by eapply Forall2_length. }
  exists ps. split; [done|]. split; [done|]. split.
  - intros Hall. rewrite Heval. f_equal. unfold matches. clear -Hall.
    induction Hall as [|s i td ps Hsi _ IH]; [done|].
    change (zip (s :: td) (i :: ps)) with ((s, i) :: zip td ps).
    rewrite filter_cons, decide_True by done. cbn [length]. f_equal. exact IH.
  - intros Hnone. rewrite Heval. f_equal. unfold matches. clear -Hnone.
    induction Hnone as [|s i td ps Hsi _ IH]; [done|].
    change (zip (s :: td) (i :: ps)) with ((s, i) :: zip td ps).
    rewrite filter_cons, decide_False by done. exact IH.
Qed.

Lemma learn_zero_mini_batch_size_witness :
  (learn example_store 1 0 3 None).2 = Raise ValueError
  /\ st_nn (learn example_store 1 0 3 None).1 = example_network.
Proof.
  destruct (learn_zero_mini_batch_size example_store 1 3 None)
    as (H1 & H2 & _); [discriminate | lia | ].
  split; [exact H1 | exact H2].
Defined.

Lemma evaluate_counts_matches_witness :
  exists predictions,
    Forall2 (fun s i => predicted_class example_network s.1 i)
      example_test_data predictions /\
    evaluate example_network example_test_data
    = Ok (length (matches example_test_data predictions)).
Proof.
  destruct (evaluate_counts_matches example_sizes example_network
              example_test_data example_network_ok example_sizes_positive)
    as (_ & ps & H1 & H2 & _).
  - repeat constructor.
  - exists ps. split; [exact H1 | exact H2].
Defined.

(** ** Python indexing and loops *)

Lemma py_pos_neg {A} (l : list A) (i : nat) :
  0 < i <= length l -> py_pos l (- Z.of_nat i) = Ok (length l - i).
Proof.
  intros Hi. unfold py_pos.
  destruct (Z.ltb_spec (- Z.of_nat i) 0); [|lia].
  destruct (Z.leb_spec 0 (- Z.of_nat i + Z.of_nat (length l))); [|lia].
  destruct (Z.ltb_spec (- Z.of_nat i + Z.of_nat (length l)) (Z.of_nat (length l)));
    [|lia].
  simpl. f_equal. lia.
Qed.

Lemma py_getitem_neg {A} (l : list A) (i : nat) x :
  0 < i <= length l -> l !! (length l - i) = Some x ->
  py_getitem l (- Z.of_nat i) = Ok x.
Proof.
  intros Hi Hx.
  unfold py_getitem. rewrite py_pos_neg by lia. cbn [bind]. by rewrite Hx.
Qed.

Lemma py_setitem_neg {A} (l : list A) (i : nat) v :
  0 < i <= length l ->
  py_setitem l (- Z.of_nat i) v = Ok (<[length l - i := v]> l).
Proof. intros Hi. unfold py_setitem. by rewrite py_pos_neg. Qed.

Lemma for_each_seq_invariant {St} (body : St -> Z -> result St)
    (P : nat -> St -> Prop) start count s :
  P start s ->
  (forall i s, start <= i < start + count -> P i s ->
     exists s', body s (Z.of_nat i) = Ok s' /\ P (S i) s') ->
  exists s',
    for_each body s (Z.of_nat <$> seq start count) = Ok s' /\ P (start + count) s'.
Proof.
  revert start s. induction count as [|count IH]; intros start s Hs Hstep.
  - exists s. rewrite Nat.add_0_r. done.
  - destruct (Hstep start s) as (s1 & Hbody & Hs1); [lia|done|].
    destruct (IH (S start) s1) as (s2 & Hrun & Hs2); [done| |].
    { intros i s' Hi. apply Hstep. lia. }
    exists s2. csimpl. rewrite Hbody. cbn [bind].
    replace (start + S count) with (S start + count) by lia. done.
Qed.

Lemma comprehension_ok {A B} (f : A -> result B) (g : A -> B) l :
  Forall (fun x => f x = Ok (g x)) l -> comprehension f l = Ok (g <$> l).
Proof.
  induction 1 as [|x l Hx _ IH]; [done|].
  cbn [comprehension]. rewrite Hx. cbn [bind]. rewrite IH. done.
Qed.

Lemma insert_take_last {A} (l r : list A) n v :
  n < length l -> <[n := v]> (take (S n) l ++ r) = take n l ++ v :: r.
Proof.
  intros Hn. destruct (lookup_lt_is_Some_2 l n Hn) as [x Hx].
  rewrite (take_S_r _ _ _ Hx), <- app_assoc.
  assert (length (take n l) = n) as Hlen by (rewrite length_take; lia).
  rewrite <- Hlen at 1. rewrite <- (Nat.add_0_r (length (take n l))).
  rewrite insert_app_r. done.
Qed.

Lemma insert_last_take {A} (l : list A) n v :
  length l = S n -> <[n := v]> l = take n l ++ [v].
Proof.
  intros Hl. rewrite <- (insert_take_last l [] n v) by lia.
  rewrite app_nil_r. f_equal. symmetry. apply take_ge. lia.
Qed.

(** ** Shapes of stacks *)

Lemma stack_shape_fmap (f : matrix -> matrix) B r c r' c' s :
  (forall m, has_shape r c m -> has_shape r' c' (f m)) ->
  stack_shape B r c s -> stack_shape B r' c' (f <$> s).
Proof.
  intros Hf [Hlen Hall]. split; [by rewrite length_fmap|].
  apply Forall_fmap. eapply Forall_impl; [exact Hall|]. exact Hf.
Qed.

Lemma stack_shape_zip_with (f : matrix -> matrix -> matrix) B r1 c1 r2 c2 r c s t :
  (forall m1 m2, has_shape r1 c1 m1 -> has_shape r2 c2 m2 -> has_shape r c (f m1 m2)) ->
  stack_shape B r1 c1 s -> stack_shape B r2 c2 t ->
  stack_shape B r c (zip_with f s t).
Proof.
  intros Hf [Hs Hall] [Ht Hall']. split; [rewrite length_zip_with; lia|].
  eapply Forall_zip_with_fst; [exact Hall|].
  eapply Forall_impl; [exact Hall'|]. intros m2 H2 m1 H1. by apply Hf.
Qed.

Lemma zip_checked_ok (f : matrix -> matrix -> result matrix)
    (g : matrix -> matrix -> matrix) B r1 c1 r2 c2 s t :
  (forall m1 m2, has_shape r1 c1 m1 -> has_shape r2 c2 m2 -> f m1 m2 = Ok (g m1 m2)) ->
  stack_shape B r1 c1 s -> stack_shape B r2 c2 t ->
  Batch.zip_checked f s t = Ok (zip_with g s t).
Proof.
  intros Hf [Hs Hall] [Ht Hall']. unfold Batch.zip_checked.
  rewrite Hs, Ht, Nat.eqb_refl.
  rewrite (comprehension_ok _ (fun p => g p.1 p.2)).
  - f_equal. clear. revert t. induction s as [|m s IH]; intros [|m' t]; csimpl; [done..|].
    by rewrite IH.
  - clear Hs Ht. revert t Hall'. induction Hall as [|m s Hm _ IH]; intros t Hall'; [done|].
    destruct Hall' as [|m' t Hm' Hall']; [done|].
    constructor; [by apply Hf|]. by apply IH.
Qed.

Lemma sigmoid_shape r c z : has_shape r c z -> has_shape r c (sigmoid z).
Proof. apply mmap_shape. Qed.

Lemma sigmoid_prime_shape r c z : has_shape r c z -> has_shape r c (sigmoid_prime z).
Proof.
  intros Hz. unfold sigmoid_prime.
  apply mzip_shape; [|apply mmap_shape]; by apply sigmoid_shape.
Qed.

Lemma pre_activation_shape n_in n_out b w a :
  0 < n_in ->
  has_shape n_out 1 b -> has_shape n_out n_in w -> has_shape n_in 1 a ->
  has_shape n_out 1 (pre_activation b w a).
Proof.
  intros Hpos Hb Hw Ha. apply mzip_shape; [|done]. by eapply matmul_shape.
Qed.

Lemma batch_sum_shape B r c s :
  0 < B -> stack_shape B r c s -> has_shape r c (Batch.sum s).
Proof.
  intros HB [Hlen Hall]. destruct Hall as [|m s Hm Hall]; [simpl in Hlen; lia|].
  simpl. clear Hlen HB. revert m Hm.
  induction Hall as [|m' s Hm' _ IH]; intros m Hm; [done|].
  simpl. apply IH. by apply mzip_shape.
Qed.

(** ** The forward pass of [batch_backprop] *)

Lemma affine_ok B n_in n_out b w s :
  0 < n_in ->
  has_shape n_out 1 b -> has_shape n_out n_in w -> stack_shape B n_in 1 s ->
  (let* wa := Batch.matmul_left w s in Batch.add_each wa b) = Ok (affine b w s)
  /\ stack_shape B n_out 1 (affine b w s).
Proof.
  intros Hpos Hb Hw Hs. split.
  - unfold Batch.matmul_left, Batch.add_each.
    rewrite (comprehension_ok _ (matmul_entries w)).
    + cbn [bind]. rewrite (comprehension_ok _ (fun z => mzip Rplus z b)).
      * unfold affine. by rewrite <- list_fmap_compose.
      * apply Forall_fmap. destruct Hs as [_ Hs].
        eapply Forall_impl; [exact Hs|]. intros a Ha. simpl.
        eapply elementwise_ok; [|exact Hb]. by eapply matmul_shape.
    + destruct Hs as [_ Hs]. eapply Forall_impl; [exact Hs|].
      intros a Ha. by eapply matmul_ok.
  - eapply stack_shape_fmap; [|exact Hs].
    intros a Ha. by eapply pre_activation_shape.
Qed.

Lemma forward_loop_ok B n outs layers a accA accZ :
  layers_ok n outs layers -> positive_sizes (n :: outs) -> stack_shape B n 1 a ->
  exists act,
    for_each forward_step (a, accA, accZ) layers
    = Ok (act, accA ++ (Batch.sigmoid <$> forward_zs layers a),
          accZ ++ forward_zs layers a)
  /\ Forall2 (fun z m => stack_shape B m 1 z) (forward_zs layers a) outs.
Proof.
  intros Hl. revert a accA accZ.
  induction Hl as [n|n_in n_out outs b w layers Hb Hw Hl IH];
    intros a accA accZ Hpos Ha.
  - exists a. simpl. rewrite !app_nil_r. split; [done|constructor].
  - apply Forall_cons in Hpos as [Hn Hpos].
    destruct (affine_ok _ _ _ _ _ _ Hn Hb Hw Ha) as [Hrun Hz].
    assert (stack_shape B n_out 1 (Batch.sigmoid (affine b w a))) as Hact.
    { eapply stack_shape_fmap; [|exact Hz]. apply sigmoid_shape. }
    destruct (IH (Batch.sigmoid (affine b w a))
                (accA ++ [Batch.sigmoid (affine b w a)])
                (accZ ++ [affine b w a]) Hpos Hact) as (act & Hloop & Hshapes).
    exists act. split; [|by constructor].
    cbn [for_each forward_step].
    destruct (Batch.matmul_left w a) as [wa|e]; [|done]. cbn [bind] in Hrun |- *.
    rewrite Hrun. cbn [bind]. etrans; [exact Hloop|].
    csimpl. by rewrite <- !app_assoc.
Qed.

Lemma forward_pass_ok B n outs nn x :
  layers_ok n outs (zip (biases nn) (weights nn)) -> positive_sizes (n :: outs) ->
  stack_shape B n 1 x ->
  forward_pass nn x
  = Ok (forward_activations (zip (biases nn) (weights nn)) x,
        forward_zs (zip (biases nn) (weights nn)) x)
  /\ Forall2 (fun z m => stack_shape B m 1 z)
       (forward_zs (zip (biases nn) (weights nn)) x) outs.
Proof.
  intros Hl Hpos Hx.
  destruct (forward_loop_ok B n outs _ x [x] [] Hl Hpos Hx) as (act & Hloop & Hz).
  split; [|done]. unfold forward_pass. rewrite Hloop. done.
Qed.

(** ** The backward pass of [batch_backprop] *)

Lemma output_delta_ok B n a y z :
  stack_shape B n 1 a -> stack_shape B n 1 y -> stack_shape B n 1 z ->
  (let* cd := Batch.cost_derivative a y in Batch.mul cd (Batch.sigmoid_prime z))
  = Ok (output_delta a y z)
  /\ stack_shape B n 1 (output_delta a y z).
Proof.
  intros Ha Hy Hz.
  assert (stack_shape B n 1 (zip_with (mzip Rminus) a y)) as Hcd.
  { eapply stack_shape_zip_with; [|exact Ha|exact Hy]. apply mzip_shape. }
  assert (stack_shape B n 1 (Batch.sigmoid_prime z)) as Hsp.
  { eapply stack_shape_fmap; [|exact Hz]. apply sigmoid_prime_shape. }
  split.
  - unfold Batch.cost_derivative, cost_derivative, msub.
    rewrite (zip_checked_ok (fun a0 y0 => elementwise Rminus a0 y0)
               (mzip Rminus) _ _ _ _ _ _ _ (elementwise_ok Rminus n 1) Ha Hy).
    cbn [bind]. unfold Batch.mul, mmul.
    by rewrite (zip_checked_ok _ (mzip Rmult) _ _ _ _ _ _ _
                  (elementwise_ok Rmult n 1) Hcd Hsp).
  - eapply stack_shape_zip_with; [|exact Hcd|exact Hsp]. apply mzip_shape.
Qed.

Lemma hidden_delta_ok B n m w delta z :
  0 < m ->
  has_shape m n w -> stack_shape B m 1 delta -> stack_shape B n 1 z ->
  (let* wd := Batch.matmul_left (transpose w) delta in
   Batch.mul wd (Batch.sigmoid_prime z))
  = Ok (hidden_delta w delta z)
  /\ stack_shape B n 1 (hidden_delta w delta z).
Proof.
  intros Hm Hw Hd Hz.
  pose proof (transpose_shape _ _ _ Hm Hw) as Hwt.
  assert (stack_shape B n 1 (matmul_entries (transpose w) <$> delta)) as Hwd.
  { eapply stack_shape_fmap; [|exact Hd]. intros d. by apply matmul_shape. }
  assert (stack_shape B n 1 (Batch.sigmoid_prime z)) as Hsp.
  { eapply stack_shape_fmap; [|exact Hz]. apply sigmoid_prime_shape. }
  split.
  - unfold Batch.matmul_left.
    rewrite (comprehension_ok _ (matmul_entries (transpose w))).
    + cbn [bind]. unfold Batch.mul, mmul.
      by rewrite (zip_checked_ok _ (mzip Rmult) _ _ _ _ _ _ _
                    (elementwise_ok Rmult n 1) Hwd Hsp).
    + destruct Hd as [_ Hd]. eapply Forall_impl; [exact Hd|].
      intros d Hdd. by eapply matmul_ok.
  - eapply stack_shape_zip_with; [|exact Hwd|exact Hsp]. apply mzip_shape.
Qed.

Lemma weight_gradient_ok B n m delta a :
  0 < B -> 0 < m ->
  stack_shape B n 1 delta -> stack_shape B m 1 a ->
  Batch.matmul delta (Batch.transpose a)
  = Ok (zip_with matmul_entries delta (Batch.transpose a))
  /\ has_shape n m (weight_gradient delta a).
Proof.
  intros HB Hm Hd Ha.
  assert (stack_shape B 1 m (Batch.transpose a)) as Hat.
  { eapply stack_shape_fmap; [|exact Ha]. intros c. by apply transpose_shape. }
  split.
  - unfold Batch.matmul. eapply zip_checked_ok; [|exact Hd|exact Hat].
    intros m1 m2. apply matmul_ok.
  - apply (batch_sum_shape B); [done|].
    eapply stack_shape_zip_with; [|exact Hd|exact Hat].
    intros m1 m2. apply matmul_shape. lia.
Qed.

Section backward.
Context (nn : Network) (B K : nat) (sz : nat -> nat).
Context (zs acts : list stack) (y : stack).
Hypothesis HB : 0 < B.
Hypothesis HK : 0 < K.
Hypothesis HL : num_layers nn = S K.
Hypothesis Hpos : forall t, t <= K -> 0 < sz t.
Hypothesis Hws_len : length (weights nn) = K.
Hypothesis Hws :
  forall t w, weights nn !! t = Some w -> has_shape (sz (S t)) (sz t) w.
Hypothesis Hzs_len : length zs = K.
Hypothesis Hzs : forall t z, zs !! t = Some z -> stack_shape B (sz (S t)) 1 z.
Hypothesis Hacts_len : length acts = S K.
Hypothesis Hacts : forall t a, acts !! t = Some a -> stack_shape B (sz t) 1 a.
Hypothesis Hy : stack_shape B (sz K) 1 y.

Local Abbreviation D := (delta_back (weights nn) zs acts y).
Local Abbreviation Gb := (fun t => bias_gradient (D (K - 1 - t))).
Local Abbreviation Gw := (fun t => weight_gradient (D (K - 1 - t)) (acts !!! t)).

Lemma zs_lookup t : t < K -> zs !! t = Some (zs !!! t).
Proof. intros. apply list_lookup_lookup_total_lt. lia. Qed.

Lemma acts_lookup t : t <= K -> acts !! t = Some (acts !!! t).
Proof. intros. apply list_lookup_lookup_total_lt. lia. Qed.

Lemma ws_lookup t : t < K -> weights nn !! t = Some (weights nn !!! t).
Proof. intros. apply list_lookup_lookup_total_lt. lia. Qed.

Lemma delta_back_0 :
  (let* cd := Batch.cost_derivative (acts !!! K) y in
   Batch.mul cd (Batch.sigmoid_prime (zs !!! (K - 1))))
  = Ok (D 0)
  /\ stack_shape B (sz K) 1 (D 0).
Proof.
  cbn [delta_back]. rewrite Hzs_len. apply output_delta_ok; [|done|].
  - apply Hacts, acts_lookup. lia.
  - replace (sz K) with (sz (S (K - 1))) by (f_equal; lia).
    apply Hzs, zs_lookup. lia.
Qed.

Lemma delta_back_S d :
  S d < K -> stack_shape B (sz (K - d)) 1 (D d) ->
  (let* wd := Batch.matmul_left (transpose (weights nn !!! (K - 1 - d))) (D d) in
   Batch.mul wd (Batch.sigmoid_prime (zs !!! (K - 2 - d))))
  = Ok (D (S d))
  /\ stack_shape B (sz (K - S d)) 1 (D (S d)).
Proof.
  intros Hd Hshape. cbn [delta_back]. rewrite Hzs_len.
  apply hidden_delta_ok with (m := sz (K - d)); [apply Hpos; lia| |done|].
  - replace (K - d) with (S (K - 1 - d)) by lia.
    replace (K - S d) with (K - 1 - d) by lia.
    apply Hws, ws_lookup. lia.
  - replace (K - S d) with (S (K - 2 - d)) by lia.
    apply Hzs, zs_lookup. lia.
Qed.

Lemma delta_back_shape d : d < K -> stack_shape B (sz (K - d)) 1 (D d).
Proof.
  induction d as [|d IH]; intros Hd.
  - rewrite Nat.sub_0_r. apply delta_back_0.
  - apply delta_back_S; [done|]. apply IH. lia.
Qed.

Lemma gradient_shapes t :
  t < K ->
  has_shape (sz (S t)) 1 (Gb t) /\ has_shape (sz (S t)) (sz t) (Gw t).
Proof.
  intros Ht. pose proof (delta_back_shape (K - 1 - t) ltac:(lia)) as Hd.
  replace (K - (K - 1 - t)) with (S t) in Hd by lia.
  split.
  - by apply (batch_sum_shape B).
  - apply (weight_gradient_ok B (sz (S t)) (sz t));
      [done|apply Hpos; lia|exact Hd|apply Hacts, acts_lookup; lia].
Qed.

Lemma backward_lengths (nb0 : list matrix) (G : nat -> matrix) d :
  length nb0 = K -> S d <= K ->
  length (take (K - 1 - d) nb0 ++ (G <$> seq (K - 1 - d) (S d))) = K.
Proof.
  intros Hlen Hd. rewrite length_app, length_take, length_fmap, length_seq. lia.
Qed.

Lemma backward_insert (nb0 : list matrix) (G : nat -> matrix) d v :
  length nb0 = K -> S (S d) <= K -> v = G (K - 2 - d) ->
  <[K - S (S d) := v]> (take (K - 1 - d) nb0 ++ (G <$> seq (K - 1 - d) (S d)))
  = take (K - 1 - S d) nb0 ++ (G <$> seq (K - 1 - S d) (S (S d))).
Proof.
  intros Hlen Hd ->.
  replace (K - 1 - d) with (S (K - 2 - d)) by lia.
  replace (K - S (S d)) with (K - 2 - d) by lia.
  replace (K - 1 - S d) with (K - 2 - d) by lia.
  rewrite insert_take_last by lia. done.
Qed.

Lemma backward_step_ok nb0 nw0 d :
  length nb0 = K -> length nw0 = K -> S (S d) <= K ->
  backward_step nn acts zs
    (D d,
     take (K - 1 - d) nb0 ++ (Gb <$> seq (K - 1 - d) (S d)),
     take (K - 1 - d) nw0 ++ (Gw <$> seq (K - 1 - d) (S d)))
    (Z.of_nat (S (S d)))
  = Ok (D (S d),
        take (K - 1 - S d) nb0 ++ (Gb <$> seq (K - 1 - S d) (S (S d))),
        take (K - 1 - S d) nw0 ++ (Gw <$> seq (K - 1 - S d) (S (S d)))).
Proof.
  intros Hnb Hnw Hd. unfold backward_step.
  rewrite (py_getitem_neg zs (S (S d)) (zs !!! (K - 2 - d)));
    [|lia|rewrite Hzs_len; replace (K - S (S d)) with (K - 2 - d) by lia;
          apply zs_lookup; lia].
  cbn [bind].
  replace (- Z.of_nat (S (S d)) + 1)%Z with (- Z.of_nat (S d))%Z by lia.
  rewrite (py_getitem_neg (weights nn) (S d) (weights nn !!! (K - 1 - d)));
    [|lia|rewrite Hws_len; replace (K - S d) with (K - 1 - d) by lia;
          apply ws_lookup; lia].
  cbn [bind].
  destruct (delta_back_S d ltac:(lia) (delta_back_shape d ltac:(lia)))
    as [Hrun Hshape].
  destruct (Batch.matmul_left _ (D d)) as [wd|e]; [|done].
  cbn [bind] in Hrun |- *. rewrite Hrun. cbn [bind].
  rewrite py_setitem_neg by (rewrite backward_lengths; lia).
  cbn [bind].
  replace (- Z.of_nat (S (S d)) - 1)%Z with (- Z.of_nat (S (S (S d))))%Z by lia.
  rewrite (py_getitem_neg acts (S (S (S d))) (acts !!! (K - 2 - d)));
    [|lia|rewrite Hacts_len; replace (S K - S (S (S d))) with (K - 2 - d) by lia;
          apply acts_lookup; lia].
  cbn [bind].
  destruct (weight_gradient_ok B (sz (K - S d)) (sz (K - 2 - d)) (D (S d))
              (acts !!! (K - 2 - d)) HB) as [Hmm _];
    [apply Hpos; lia|done|apply Hacts, acts_lookup; lia|].
  rewrite Hmm. cbn [bind].
  rewrite py_setitem_neg by (rewrite backward_lengths; lia).
  cbn [bind]. rewrite !backward_lengths by lia.
  rewrite (backward_insert nb0 Gb), (backward_insert nw0 Gw); try done.
  - by replace (K - 1 - (K - 2 - d)) with (S d) by lia.
  - by replace (K - 1 - (K - 2 - d)) with (S d) by lia.
Qed.

Lemma backward_pass_ok nb0 nw0 :
  length nb0 = K -> length nw0 = K ->
  backward_pass nn y acts zs nb0 nw0 = Ok (Gb <$> seq 0 K, Gw <$> seq 0 K).
Proof.
  intros Hnb Hnw. unfold backward_pass.
  change (-1)%Z with (- Z.of_nat 1)%Z. change (-2)%Z with (- Z.of_nat 2)%Z.
  rewrite (py_getitem_neg acts 1 (acts !!! K));
    [|lia|rewrite Hacts_len; replace (S K - 1) with K by lia;
          apply acts_lookup; lia].
  cbn [bind].
  destruct delta_back_0 as [Hrun Hshape].
  destruct (Batch.cost_derivative (acts !!! K) y) as [cd|e]; [|done].
  cbn [bind] in Hrun |- *.
  rewrite (py_getitem_neg zs 1 (zs !!! (K - 1)));
    [|lia|rewrite Hzs_len; apply zs_lookup; lia].
  cbn [bind]. rewrite Hrun. cbn [bind].
  rewrite py_setitem_neg by lia. cbn [bind].
  rewrite (py_getitem_neg acts 2 (acts !!! (K - 1)));
    [|lia|rewrite Hacts_len; replace (S K - 2) with (K - 1) by lia;
          apply acts_lookup; lia].
  cbn [bind].
  destruct (weight_gradient_ok B (sz K) (sz (K - 1)) (D 0)
              (acts !!! (K - 1)) HB) as [Hmm _];
    [apply Hpos; lia|done|apply Hacts, acts_lookup; lia|].
  rewrite Hmm. cbn [bind].
  rewrite py_setitem_neg by lia. cbn [bind].
  destruct (for_each_seq_invariant (backward_step nn acts zs)
              (fun i s => exists d, i = S (S d) /\
                 s = (D d,
                      take (K - 1 - d) nb0 ++ (Gb <$> seq (K - 1 - d) (S d)),
                      take (K - 1 - d) nw0 ++ (Gw <$> seq (K - 1 - d) (S d))))
              2 (num_layers nn - 2)
              (D 0, <[length nb0 - 1 := Batch.sum (D 0)]> nb0,
               <[length nw0 - 1 :=
                   Batch.sum (zip_with matmul_entries (D 0)
                                (Batch.transpose (acts !!! (K - 1))))]> nw0))
    as (s' & Hloop & d & Hd & ->).
  - exists 0. split; [done|]. rewrite Hnb, Hnw, Nat.sub_0_r.
    rewrite !insert_last_take by lia. csimpl.
    by replace (K - 1 - (K - 1)) with 0 by lia.
  - intros i s Hi (d & -> & ->). eexists. split.
    + apply backward_step_ok; [done..|lia].
    + exists (S d). done.
  - rewrite Hloop. cbn [bind]. rewrite HL in Hd.
    assert (d = K - 1) as -> by lia.
    replace (K - 1 - (K - 1)) with 0 by lia.
    replace (S (K - 1)) with K by lia. done.
Qed.
End backward.

(** ** [batch_backprop] on a network and a mini-batch that fit *)

Lemma unpack_mini_batch_ok (mini_batch : list sample) :
  (exists s, head mini_batch = Some s /\ length s.1 <> length s.2) ->
  unpack_mini_batch mini_batch = Ok (mini_batch.*1, mini_batch.*2).
Proof.
  intros ([x y] & Hhead & Hne). destruct mini_batch as [|[x' y'] mb]; [done|].
  simpl in Hhead. injection Hhead as -> ->. simpl in Hne.
  unfold unpack_mini_batch. cbn [forallb].
  destruct (Nat.eqb_spec (length y) (length x)) as [Heq|_]; [lia|].
  by rewrite Nat.eqb_refl.
Qed.

Lemma np_stack_ok n (vs : list (list R)) :
  vs <> [] -> Forall (fun v => length v = n) vs ->
  np_stack vs = Ok (column <$> vs)
  /\ stack_shape (length vs) n 1 (column <$> vs).
Proof.
  intros Hne Hall. split.
  - destruct vs as [|v0 vs]; [done|]. unfold np_stack.
    replace (forallb _ (v0 :: vs)) with true; [done|].
    symmetry. apply Is_true_true, forallb_True.
    pose proof (Forall_inv Hall) as H0. simpl in H0.
    eapply Forall_impl; [exact Hall|]. intros v Hv. simpl in Hv.
    apply Is_true_true, Nat.eqb_eq. lia.
  - split; [by rewrite length_fmap|].
    apply Forall_fmap. eapply Forall_impl; [exact Hall|].
    intros v <-. apply column_shape.
Qed.

Lemma batch_ok_inputs n0 outs (mini_batch : list sample) :
  batch_ok (n0 :: outs) mini_batch ->
  Forall (fun v => length v = n0) mini_batch.*1.
Proof.
  intros Hmb. apply Forall_fmap. eapply Forall_impl; [exact Hmb|].
  intros s [Hs _]. simpl in *. congruence.
Qed.

Lemma batch_ok_targets sizes n_last (mini_batch : list sample) :
  last sizes = Some n_last -> batch_ok sizes mini_batch ->
  Forall (fun v => length v = n_last) mini_batch.*2.
Proof.
  intros Hlast Hmb. apply Forall_fmap. eapply Forall_impl; [exact Hmb|].
  intros s [_ Hs]. simpl in *. congruence.
Qed.

Section fitting.
Context (n0 : nat) (outs : list nat) (nn : Network) (B : nat) (x y : stack).
Local Abbreviation sizes := (n0 :: outs).
Local Abbreviation layers := (zip (biases nn) (weights nn)).
Local Abbreviation zs := (forward_zs layers x).
Local Abbreviation acts := (forward_activations layers x).
Local Abbreviation K := (length outs).
Hypothesis Hnn : network_ok sizes nn.
Hypothesis Hpos : positive_sizes sizes.
Hypothesis HK : 0 < K.
Hypothesis HB : 0 < B.
Hypothesis Hx : stack_shape B n0 1 x.
Hypothesis Hy : stack_shape B (sizes !!! K) 1 y.

Lemma fitting_forward :
  forward_pass nn x = Ok (acts, zs)
  /\ Forall2 (fun z m => stack_shape B m 1 z) zs outs.
Proof.
  apply (forward_pass_ok B n0 outs nn x); [|done..].
  by apply network_ok_layers.
Qed.

Lemma fitting_zs_length : length zs = K.
Proof. destruct fitting_forward as [_ Hz]. by apply Forall2_length in Hz. Qed.

Lemma fitting_sizes t : t <= K -> 0 < sizes !!! t.
Proof.
  intros Ht. unfold positive_sizes in Hpos. rewrite Forall_lookup in Hpos.
  apply (Hpos t). apply list_lookup_lookup_total_lt. simpl. fold K. lia.
Qed.

Lemma fitting_weights t w :
  weights nn !! t = Some w -> has_shape (sizes !!! S t) (sizes !!! t) w.
Proof.
  intros Hw. destruct Hnn as (_ & Hbl & Hwl & Hall).
  pose proof (lookup_lt_Some _ _ _ Hw) as Ht.
  simpl in Hbl, Hwl. rewrite Nat.sub_0_r in Hbl, Hwl.
  destruct (lookup_lt_is_Some_2 (biases nn) t) as [b Hb]; [lia|].
  apply (Hall t _ _ b w); [| |done..];
    apply list_lookup_lookup_total_lt; simpl; lia.
Qed.

Lemma fitting_zs t z : zs !! t = Some z -> stack_shape B (sizes !!! S t) 1 z.
Proof.
  intros Hz. destruct fitting_forward as [_ Hall].
  destruct (Forall2_lookup_l _ _ _ _ _ Hall Hz) as (m & Hm & Hshape).
  simpl. by rewrite (list_lookup_total_correct _ _ _ Hm).
Qed.

Lemma fitting_acts t a : acts !! t = Some a -> stack_shape B (sizes !!! t) 1 a.
Proof.
  destruct t as [|t]; simpl.
  - intros [= <-]. done.
  - rewrite list_lookup_fmap. intros Ha.
    apply fmap_Some in Ha as (z & Hz & ->).
    eapply stack_shape_fmap; [|by apply fitting_zs].
    apply sigmoid_shape.
Qed.

Lemma fitting_acts_length : length acts = S K.
Proof.
  unfold acts, forward_activations. simpl. rewrite length_fmap.
  f_equal. exact fitting_zs_length.
Qed.

Lemma fitting_backward nb0 nw0 :
  length nb0 = K -> length nw0 = K ->
  backward_pass nn y acts zs nb0 nw0 = Ok (backprop_gradients nn x y).
Proof.
  intros Hnb Hnw. destruct Hnn as (HL & Hbl & Hwl & _).
  simpl in HL, Hbl, Hwl. rewrite Nat.sub_0_r in Hbl, Hwl.
  rewrite (backward_pass_ok nn B K (fun t => sizes !!! t) zs acts y);
    try done.
  - unfold backprop_gradients. fold layers zs acts.
    by rewrite fitting_zs_length.
  - exact fitting_sizes.
  - exact fitting_weights.
  - exact fitting_zs_length.
  - exact fitting_zs.
  - exact fitting_acts_length.
  - exact fitting_acts.
Qed.

Lemma fitting_gradient_shapes t :
  t < K ->
  exists gb gw,
    (backprop_gradients nn x y).1 !! t = Some gb /\
    (backprop_gradients nn x y).2 !! t = Some gw /\
    has_shape (sizes !!! S t) 1 gb /\
    has_shape (sizes !!! S t) (sizes !!! t) gw.
Proof.
  intros Ht. destruct Hnn as (HL & Hbl & Hwl & _).
  simpl in HL, Hbl, Hwl. rewrite Nat.sub_0_r in Hbl, Hwl.
  unfold backprop_gradients. fold layers zs acts. rewrite fitting_zs_length.
  cbn [fst snd]. rewrite !list_lookup_fmap, !lookup_seq_lt by done.
  eexists _, _. split; [done|]. split; [done|].
  apply (gradient_shapes nn B K (fun t => sizes !!! t) zs acts y); try done.
  - exact fitting_sizes.
  - exact fitting_weights.
  - exact fitting_zs_length.
  - exact fitting_zs.
  - exact fitting_acts_length.
  - exact fitting_acts.
Qed.
End fitting.

Lemma unpack_mini_batch_same_length n (mini_batch : list sample) :
  Forall (fun s => length s.1 = n /\ length s.2 = n) mini_batch ->
  unpack_mini_batch mini_batch = Raise ValueError.
Proof.
  intros Hall. destruct mini_batch as [|[x0 y0] mb]; [done|].
  unfold unpack_mini_batch.
  replace (forallb _ ((x0, y0) :: mb)) with true; [done|].
  symmetry. apply Is_true_true, forallb_True.
  pose proof (Forall_inv Hall) as [H0 _]. simpl in H0.
  eapply Forall_impl; [exact Hall|]. intros [x' y'] [Hx Hy]. simpl in *.
  apply andb_True. split; apply Is_true_true, Nat.eqb_eq; lia.
Qed.

Lemma batch_backprop_same_length sizes nn (mini_batch : list sample) :
  batch_ok sizes mini_batch -> head sizes = last sizes ->
  batch_backprop nn mini_batch = Raise ValueError.
Proof.
  intros Hmb Heq. unfold batch_backprop.
  destruct (head sizes) as [n|] eqn:Hhead.
  - rewrite (unpack_mini_batch_same_length n); [done|].
    eapply Forall_impl; [exact Hmb|]. intros s [Hs1 Hs2].
    rewrite <- Heq in Hs2. split; congruence.
  - destruct mini_batch as [|s mb]; [done|].
    apply Forall_inv in Hmb as [Hs _]. congruence.
Qed.

Lemma batch_backprop_fits sizes nn (mini_batch : list sample) :
  network_ok sizes nn -> positive_sizes sizes -> 2 <= length sizes ->
  batch_ok sizes mini_batch -> mini_batch <> [] -> head sizes <> last sizes ->
  batch_backprop nn mini_batch
  = Ok (backprop_gradients nn (column <$> mini_batch.*1) (column <$> mini_batch.*2)).
Proof.
  intros Hnn Hpos HL Hmb Hne Hsizes.
  destruct sizes as [|n0 outs]; [simpl in HL; lia|].
  assert (0 < length outs) as HK by (simpl in HL; lia).
  assert (last (n0 :: outs) = Some ((n0 :: outs) !!! length outs)) as Hlast.
  { rewrite last_lookup. simpl. apply list_lookup_lookup_total_lt. simpl. lia. }
  pose proof (batch_ok_inputs _ _ _ Hmb) as Hxs.
  pose proof (batch_ok_targets _ _ _ Hlast Hmb) as Hys.
  assert (mini_batch.*1 <> []) as Hne1 by (by destruct mini_batch).
  assert (mini_batch.*2 <> []) as Hne2 by (by destruct mini_batch).
  destruct (np_stack_ok _ _ Hne1 Hxs) as [Hx Hxshape].
  destruct (np_stack_ok _ _ Hne2 Hys) as [Hy Hyshape].
  rewrite length_fmap in Hxshape, Hyshape.
  assert (0 < length mini_batch) as HB by (destruct mini_batch; [done|simpl; lia]).
  unfold batch_backprop. rewrite unpack_mini_batch_ok.
  - cbn [bind]. rewrite Hx. cbn [bind]. rewrite Hy. cbn [bind].
    destruct (fitting_forward n0 outs nn (length mini_batch) _ Hnn Hpos Hxshape)
      as [Hfwd _].
    rewrite Hfwd. cbn [bind].
    destruct Hnn as (HLn & Hbl & Hwl & Hall).
    apply (fitting_backward n0 outs nn (length mini_batch));
      try done; rewrite length_fmap; simpl in *; lia.
  - destruct mini_batch as [|s mb]; [done|]. exists s. split; [done|].
    apply Forall_inv in Hmb as [Hs1 Hs2]. rewrite Hlast in Hs2.
    simpl in Hs1. intros Heq. apply Hsizes. rewrite Hlast. simpl. congruence.
Qed.

Lemma backprop_gradients_lengths nn x y :
  length (backprop_gradients nn x y).1 = length (zip (biases nn) (weights nn))
  /\ length (backprop_gradients nn x y).2 = length (zip (biases nn) (weights nn)).
Proof.
  unfold backprop_gradients. cbn [fst snd].
  rewrite !length_fmap, !length_seq.
  assert (forall layers a, length (forward_zs layers a) = length layers) as H.
  { induction layers as [|[b w] layers IH]; intros a; simpl; [done|]. by rewrite IH. }
  by rewrite H.
Qed.

(** ** The update rule *)

Lemma descend_ok eta len (params nabla : list matrix) :
  0 < len ->
  Forall2 (fun p g => exists r c, has_shape r c p /\ has_shape r c g) params nabla ->
  descend eta len params nabla = Ok (zip_with (descent eta len) params nabla).
Proof.
  intros Hlen Hall. unfold descend.
  rewrite (comprehension_ok _ (fun pg => descent eta len pg.1 pg.2)).
  - f_equal. clear. revert nabla.
    induction params as [|p params IH]; intros [|g nabla]; csimpl; [done..|].
    by rewrite IH.
  - induction Hall as [|p g params nabla (r & c & Hp & Hg) _ IH]; [done|].
    constructor; [|done]. simpl. unfold py_div.
    destruct (Nat.eqb_spec len 0); [lia|]. cbn [bind]. unfold msub.
    eapply elementwise_ok; [exact Hp|]. by apply mmap_shape.
Qed.

Lemma descent_shape eta len r c p g :
  has_shape r c p -> has_shape r c g -> has_shape r c (descent eta len p g).
Proof. intros Hp Hg. apply mzip_shape; [done|]. by apply mmap_shape. Qed.

Lemma gradients_fit sizes nn (mini_batch : list sample) :
  network_ok sizes nn -> positive_sizes sizes -> 2 <= length sizes ->
  batch_ok sizes mini_batch -> mini_batch <> [] ->
  let g := backprop_gradients nn (column <$> mini_batch.*1)
             (column <$> mini_batch.*2) in
  length g.1 = length sizes - 1 /\ length g.2 = length sizes - 1 /\
  forall i n_in n_out,
    sizes !! i = Some n_in -> sizes !! S i = Some n_out ->
    exists gb gw, g.1 !! i = Some gb /\ g.2 !! i = Some gw /\
      has_shape n_out 1 gb /\ has_shape n_out n_in gw.
Proof.
  intros Hnn Hpos HL Hmb Hne g.
  destruct sizes as [|n0 outs]; [simpl in HL; lia|].
  assert (0 < length outs) as HK by (simpl in HL; lia).
  assert (last (n0 :: outs) = Some ((n0 :: outs) !!! length outs)) as Hlast.
  { rewrite last_lookup. simpl. apply list_lookup_lookup_total_lt. simpl. lia. }
  pose proof (batch_ok_inputs _ _ _ Hmb) as Hxs.
  pose proof (batch_ok_targets _ _ _ Hlast Hmb) as Hys.
  assert (mini_batch.*1 <> []) as Hne1 by (by destruct mini_batch).
  assert (mini_batch.*2 <> []) as Hne2 by (by destruct mini_batch).
  destruct (np_stack_ok _ _ Hne1 Hxs) as [_ Hxshape].
  destruct (np_stack_ok _ _ Hne2 Hys) as [_ Hyshape].
  rewrite length_fmap in Hxshape, Hyshape.
  assert (0 < length mini_batch) as HB by (destruct mini_batch; [done|simpl; lia]).
  destruct (backprop_gradients_lengths nn (column <$> mini_batch.*1)
              (column <$> mini_batch.*2)) as [Hl1 Hl2].
  pose proof Hnn as (_ & Hbl & Hwl & _).
  rewrite length_zip in Hl1, Hl2.
  split; [subst g; lia|]. split; [subst g; lia|].
  intros i n_in n_out Hin Hout.
  assert (i < length outs) as Hi.
  { apply lookup_lt_Some in Hout. simpl in Hout. lia. }
  destruct (fitting_gradient_shapes n0 outs nn (length mini_batch) _ _
              Hnn Hpos HK HB Hxshape Hyshape i Hi) as (gb & gw & Hgb & Hgw & Hs1 & Hs2).
  exists gb, gw. split; [done|]. split; [done|].
  rewrite (list_lookup_total_correct _ _ _ Hout) in Hs1, Hs2.
  rewrite (list_lookup_total_correct _ _ _ Hin) in Hs2. done.
Qed.

Lemma network_ok_lookup sizes nn i :
  network_ok sizes nn -> i < length sizes - 1 ->
  exists n_in n_out b w,
    sizes !! i = Some n_in /\ sizes !! S i = Some n_out /\
    biases nn !! i = Some b /\ weights nn !! i = Some w /\
    has_shape n_out 1 b /\ has_shape n_out n_in w.
Proof.
  intros (_ & Hbl & Hwl & Hall) Hi.
  destruct (lookup_lt_is_Some_2 sizes i) as [n_in Hin]; [lia|].
  destruct (lookup_lt_is_Some_2 sizes (S i)) as [n_out Hout]; [lia|].
  destruct (lookup_lt_is_Some_2 (biases nn) i) as [b Hb]; [lia|].
  destruct (lookup_lt_is_Some_2 (weights nn) i) as [w Hw]; [lia|].
  exists n_in, n_out, b, w. repeat (split; [done|]). by eapply Hall.
Qed.

Lemma sgd_fits sizes nn (mini_batch : list sample) eta :
  network_ok sizes nn -> positive_sizes sizes -> 2 <= length sizes ->
  batch_ok sizes mini_batch -> mini_batch <> [] -> head sizes <> last sizes ->
  let g := backprop_gradients nn (column <$> mini_batch.*1)
             (column <$> mini_batch.*2) in
  batch_stochastic_gradient_descent nn mini_batch eta
  = ({| num_layers := num_layers nn;
        biases := zip_with (descent eta (length mini_batch)) (biases nn) g.1;
        weights := zip_with (descent eta (length mini_batch)) (weights nn) g.2 |},
     Ok tt).
Proof.
  intros Hnn Hpos HL Hmb Hne Hsizes g.
  destruct (gradients_fit _ _ _ Hnn Hpos HL Hmb Hne) as (Hl1 & Hl2 & Hshapes).
  fold g in Hl1, Hl2, Hshapes.
  pose proof Hnn as (_ & Hbl & Hwl & _).
  assert (0 < length mini_batch) as HB by (destruct mini_batch; [done|simpl; lia]).
  unfold batch_stochastic_gradient_descent.
  rewrite (batch_backprop_fits sizes) by done. fold g.
  destruct g as [gb gw]. cbn [fst snd] in *.
  rewrite descend_ok; [|done|].
  - cbn [biases weights num_layers]. rewrite descend_ok; [done|done|].
    apply Forall2_same_length_lookup_2; [lia|]. intros i b g' Hb Hg.
    destruct (network_ok_lookup _ _ i Hnn) as (n_in & n_out & b' & w & Hin & Hout & Hb' & _ & Hsb & _).
    { apply lookup_lt_Some in Hb. lia. }
    destruct (Hshapes i _ _ Hin Hout) as (gb' & _ & Hgb & _ & Hs & _).
    simplify_eq. eauto.
  - apply Forall2_same_length_lookup_2; [lia|]. intros i w g' Hw Hg.
    destruct (network_ok_lookup _ _ i Hnn) as (n_in & n_out & b & w' & Hin & Hout & _ & Hw' & _ & Hsw).
    { apply lookup_lt_Some in Hw. lia. }
    destruct (Hshapes i _ _ Hin Hout) as (_ & gw' & _ & Hgw & _ & Hs).
    simplify_eq. eauto.
Qed.

Lemma sgd_network_ok sizes nn (mini_batch : list sample) eta :
  network_ok sizes nn -> positive_sizes sizes -> 2 <= length sizes ->
  batch_ok sizes mini_batch ->
  network_ok sizes (batch_stochastic_gradient_descent nn mini_batch eta).1.
Proof.
  intros Hnn Hpos HL Hmb.
  destruct (decide (mini_batch = [])) as [->|Hne]; [done|].
  destruct (decide (head sizes = last sizes)) as [Heq|Hsizes].
  { unfold batch_stochastic_gradient_descent.
    by rewrite (batch_backprop_same_length sizes). }
  rewrite (sgd_fits sizes) by done. cbn [fst].
  destruct (gradients_fit _ _ _ Hnn Hpos HL Hmb Hne) as (Hl1 & Hl2 & Hshapes).
  pose proof Hnn as (HLn & Hbl & Hwl & _).
  split; [done|]. cbn [biases weights].
  split; [rewrite length_zip_with; lia|]. split; [rewrite length_zip_with; lia|].
  intros i n_in n_out b w Hin Hout Hb Hw.
  apply lookup_zip_with_Some in Hb as (b0 & gb & -> & Hb0 & Hgb).
  apply lookup_zip_with_Some in Hw as (w0 & gw & -> & Hw0 & Hgw).
  destruct Hnn as (_ & _ & _ & Hall).
  destruct (Hall i _ _ _ _ Hin Hout Hb0 Hw0) as [Hsb Hsw].
  destruct (Hshapes i _ _ Hin Hout) as (gb' & gw' & Hgb' & Hgw' & Hs1 & Hs2).
  simplify_eq. split; by apply descent_shape.
Qed.

(** ** The invariant of the parameter store *)

Lemma randn_shape g k r c : has_shape r c (randn g k r c).
Proof.
  unfold randn. split; [by rewrite length_fmap, length_seq|].
  apply Forall_fmap, Forall_true. intros i. simpl.
  by rewrite length_fmap, length_seq.
Qed.

Lemma init_biases_shapes g k outs :
  Forall2 (fun b y => has_shape y 1 b) (init_biases g k outs).1 outs.
Proof.
  revert k. induction outs as [|y outs IH]; intros k; simpl; [constructor|].
  specialize (IH (k + y * 1)). destruct (init_biases g (k + y * 1) outs) as [bs k'].
  constructor; [apply randn_shape|done].
Qed.

Lemma init_weights_shapes g k (pairs : list (nat * nat)) :
  Forall2 (fun w p => has_shape p.2 p.1 w) (init_weights g k pairs).1 pairs.
Proof.
  revert k. induction pairs as [|[x y] pairs IH]; intros k; simpl; [constructor|].
  specialize (IH (k + y * x)). destruct (init_weights g (k + y * x) pairs) as [ws k'].
  constructor; [apply randn_shape|done].
Qed.

Lemma init_network_ok g layers : network_ok layers (init_network g layers).
Proof.
  unfold init_network.
  pose proof (init_biases_shapes g 0 (drop 1 layers)) as Hb.
  destruct (init_biases g 0 (drop 1 layers)) as [bs k].
  pose proof (init_weights_shapes g k
                (zip (take (length layers - 1) layers) (drop 1 layers))) as Hw.
  destruct (init_weights g k _) as [ws k']. cbn [fst] in *.
  pose proof (Forall2_length _ _ _ Hb) as Hbl.
  pose proof (Forall2_length _ _ _ Hw) as Hwl.
  rewrite length_drop in Hbl. rewrite length_zip, length_take, length_drop in Hwl.
  split; [done|]. cbn [biases weights]. split; [lia|]. split; [lia|].
  intros i n_in n_out b w Hin Hout Hbi Hwi. split.
  - eapply (Forall2_lookup_lr _ _ _ i b n_out Hb); [done|].
    by rewrite lookup_drop.
  - eapply (Forall2_lookup_lr _ _ _ i w (n_in, n_out) Hw); [done|].
    apply lookup_zip_with_Some. exists n_in, n_out. split; [done|].
    split; [|by rewrite lookup_drop].
    apply lookup_take_Some. split; [done|].
    apply lookup_lt_Some in Hwi. lia.
Qed.

Lemma mini_batches_batch_ok sizes (training_data : list sample) n m bs :
  batch_ok sizes training_data ->
  mini_batches_of training_data n m = Ok bs ->
  Forall (batch_ok sizes) bs.
Proof.
  intros Htd. unfold mini_batches_of.
  destruct (py_range0 n m) as [ks|e]; [|done]. cbn [bind]. intros [= <-].
  apply Forall_fmap, Forall_true. intros k. simpl. unfold py_slice.
  by apply Forall_take, Forall_drop.
Qed.

Lemma train_mini_batches_network_ok sizes nn bs eta :
  network_ok sizes nn -> positive_sizes sizes -> 2 <= length sizes ->
  Forall (batch_ok sizes) bs ->
  network_ok sizes (train_mini_batches nn bs eta).1.
Proof.
  intros Hnn Hpos HL Hbs. revert nn Hnn.
  induction Hbs as [|mb bs Hmb _ IH]; intros nn Hnn; [done|].
  cbn [train_mini_batches].
  pose proof (sgd_network_ok sizes nn mb eta Hnn Hpos HL Hmb) as Hstep.
  destruct (batch_stochastic_gradient_descent nn mb eta) as [nn' [[]|e]].
  - by apply IH.
  - done.
Qed.

Lemma learn_epoch_network_ok sizes n m eta test st j :
  positive_sizes sizes -> 2 <= length sizes ->
  network_ok sizes (st_nn st) -> batch_ok sizes (st_training_data st) ->
  network_ok sizes (st_nn (learn_epoch n m eta test st j).1)
  /\ batch_ok sizes (st_training_data (learn_epoch n m eta test st j).1).
Proof.
  intros Hpos HL Hnn Htd. split.
  - unfold learn_epoch.
    destruct (mini_batches_of _ n m) as [bs|e] eqn:Hbs; [|done].
    apply (mini_batches_batch_ok sizes) in Hbs.
    + pose proof (train_mini_batches_network_ok sizes _ bs eta Hnn Hpos HL Hbs)
        as Htrain. cbn [set_shuffled st_nn] in *.
      destruct (train_mini_batches _ bs eta) as [nn' [[]|e]]; [|done].
      destruct test as [[|t ts]|]; [done| |done].
      destruct (evaluate nn' (t :: ts)); done.
    + cbn [set_shuffled st_training_data]. unfold batch_ok.
      by rewrite shuffle_Permutation.
  - rewrite learn_epoch_training_data. unfold batch_ok.
    by rewrite shuffle_Permutation.
Qed.

Lemma learn_network_ok sizes st epochs m eta test :
  positive_sizes sizes -> 2 <= length sizes ->
  network_ok sizes (st_nn st) -> batch_ok sizes (st_training_data st) ->
  network_ok sizes (st_nn (learn st epochs m eta test).1).
Proof.
  intros Hpos HL. unfold learn.
  generalize (length (st_training_data st)) as n. intros n.
  generalize (seq 0 epochs) as js. intros js. revert st.
  induction js as [|j js IH]; intros st Hnn Htd; [done|].
  cbn [learn_epochs].
  destruct (learn_epoch_network_ok sizes n m eta test st j Hpos HL Hnn Htd)
    as [Hnn' Htd'].
  destruct (learn_epoch n m eta test st j) as [st' [[]|e]]; [|done].
  by apply IH.
Qed.

(** ** One-sample mini-batches and the unbatched reference *)

Lemma comprehension_one {A B} (f : A -> result B) a :
  comprehension f [a] = let* r := f a in Ok [r].
Proof. simpl. by destruct (f a). Qed.

Lemma matmul_left_one w a :
  Batch.matmul_left w [a] = let* r := matmul w a in Ok [r].
Proof. apply comprehension_one. Qed.

Lemma add_each_one z b :
  Batch.add_each [z] b = let* r := madd z b in Ok [r].
Proof. apply (comprehension_one (fun z => madd z b)). Qed.

Lemma zip_checked_one f a b :
  Batch.zip_checked f [a] [b] = let* r := f a b in Ok [r].
Proof. unfold Batch.zip_checked. simpl. by destruct (f a b). Qed.

Lemma py_getitem_one (l : list matrix) k :
  py_getitem (one <$> l) k = let* r := py_getitem l k in Ok [r].
Proof.
  unfold py_getitem, py_pos. rewrite length_fmap.
  destruct (_ && _)%bool; [|done]. cbn [bind].
  rewrite list_lookup_fmap. by destruct (l !! _).
Qed.

Lemma for_each_simulation {A S T} (phi : S -> T)
    (body_s : S -> A -> result S) (body_t : T -> A -> result T) s l :
  (forall s x, body_t (phi s) x = let* s' := body_s s x in Ok (phi s')) ->
  for_each body_t (phi s) l = let* s' := for_each body_s s l in Ok (phi s').
Proof.
  intros Hstep. revert s. induction l as [|x l IH]; intros s; [done|].
  cbn [for_each]. rewrite Hstep. destruct (body_s s x) as [s'|e]; [|done].
  cbn [bind]. apply IH.
Qed.

Lemma forward_step_one s layer :
  forward_step (lift_forward s) layer
  = let* s' := reference_forward_step s layer in Ok (lift_forward s').
Proof.
  destruct s as [[a acts] zs], layer as [b w].
  unfold forward_step, reference_forward_step, lift_forward. cbn [fst snd].
  rewrite matmul_left_one. destruct (matmul w a) as [wa|e]; [|done].
  cbn [bind]. rewrite add_each_one. destruct (madd wa b) as [z|e]; [|done].
  cbn [bind fst snd]. by rewrite !fmap_app.
Qed.

Lemma backward_step_one nn acts zs s i :
  backward_step nn (one <$> acts) (one <$> zs) (lift_backward s) i
  = let* s' := reference_backward_step nn acts zs s i in Ok (lift_backward s').
Proof.
  destruct s as [[delta nb] nw].
  unfold backward_step, reference_backward_step, lift_backward. cbn [fst snd].
  rewrite py_getitem_one. destruct (py_getitem zs (- i)) as [z|e]; [|done].
  cbn [bind]. destruct (py_getitem (weights nn) (- i + 1)) as [w|e]; [|done].
  cbn [bind]. rewrite matmul_left_one.
  destruct (matmul (transpose w) delta) as [wd|e]; [|done].
  cbn [bind]. unfold Batch.mul, Batch.sigmoid_prime. cbn [fmap list_fmap].
  rewrite (zip_checked_one mmul). destruct (mmul wd _) as [delta'|e]; [|done].
  cbn [bind Batch.sum foldl].
  destruct (py_setitem nb (- i) delta') as [nb'|e]; [|done].
  cbn [bind]. rewrite py_getitem_one.
  destruct (py_getitem acts (- i - 1)) as [a_prev|e]; [|done].
  cbn [bind]. unfold Batch.matmul, Batch.transpose. cbn [fmap list_fmap].
  rewrite (zip_checked_one matmul).
  destruct (matmul delta' (transpose a_prev)) as [dw|e]; [|done].
  cbn [bind Batch.sum foldl].
  destruct (py_setitem nw (- i) dw) as [nw'|e]; done.
Qed.

Lemma batch_backprop_one_sample nn x y :
  length x <> length y ->
  batch_backprop nn [(x, y)] = backprop_reference nn (column x) (column y).
Proof.
  intros Hxy. unfold batch_backprop, backprop_reference.
  rewrite unpack_mini_batch_ok by (exists (x, y); done).
  cbn [bind fmap list_fmap fst snd]. unfold np_stack. cbn [forallb].
  rewrite !Nat.eqb_refl. cbn [andb bind fmap list_fmap].
  unfold forward_pass.
  change ([column x], [[column x]], @nil stack)
    with (lift_forward (column x, [column x], [])).
  rewrite (for_each_simulation lift_forward reference_forward_step forward_step)
    by apply forward_step_one.
  destruct (for_each reference_forward_step _ _) as [[[a acts] zs]|e]; [|done].
  cbn [bind lift_forward fst snd]. unfold backward_pass.
  rewrite py_getitem_one. destruct (py_getitem acts (-1)) as [a_last|e]; [|done].
  cbn [bind]. unfold Batch.cost_derivative.
  rewrite (zip_checked_one cost_derivative).
  destruct (cost_derivative a_last (column y)) as [cd|e]; [|done].
  cbn [bind]. rewrite py_getitem_one.
  destruct (py_getitem zs (-1)) as [z_last|e]; [|done].
  cbn [bind]. unfold Batch.mul, Batch.sigmoid_prime. cbn [fmap list_fmap].
  rewrite (zip_checked_one mmul). destruct (mmul cd _) as [delta|e]; [|done].
  cbn [bind Batch.sum foldl].
  destruct (py_setitem _ (-1) delta) as [nb|e]; [|done].
  cbn [bind]. rewrite py_getitem_one.
  destruct (py_getitem acts (-2)) as [a_prev|e]; [|done].
  cbn [bind]. unfold Batch.matmul, Batch.transpose. cbn [fmap list_fmap].
  rewrite (zip_checked_one matmul).
  destruct (matmul delta (transpose a_prev)) as [dw|e]; [|done].
  cbn [bind Batch.sum foldl].
  destruct (py_setitem _ (-1) dw) as [nw|e]; [|done].
  cbn [bind].
  change ([delta], nb, nw) with (lift_backward (delta, nb, nw)).
  rewrite (for_each_simulation lift_backward
             (reference_backward_step nn acts zs)
             (backward_step nn (one <$> acts) (one <$> zs)))
    by apply backward_step_one.
  by destruct (for_each (reference_backward_step nn acts zs) _ _) as [[[d nb'] nw']|e].
Qed.

(** ** The backpropagation equations *)

Lemma forward_activations_cons b w layers x :
  forward_activations ((b, w) :: layers) x
  = x :: forward_activations layers (Batch.sigmoid (affine b w x)).
Proof. done. Qed.

Lemma forward_zs_lookup layers x t b w a :
  layers !! t = Some (b, w) -> forward_activations layers x !! t = Some a ->
  forward_zs layers x !! t = Some (affine b w a).
Proof.
  revert x t. induction layers as [|[b0 w0] layers IH]; intros x t Hl Ha; [done|].
  rewrite forward_activations_cons in Ha. destruct t as [|t].
  - simpl in *. by simplify_eq.
  - simpl in Hl, Ha. cbn [forward_zs]. simpl. by apply IH.
Qed.

Lemma forward_zs_length layers x : length (forward_zs layers x) = length layers.
Proof.
  revert x. induction layers as [|[b w] layers IH]; intros x; simpl; [done|].
  by rewrite IH.
Qed.

Lemma batch_backprop_equations sizes nn (mini_batch : list sample) :
  network_ok sizes nn -> positive_sizes sizes -> 2 <= length sizes ->
  batch_ok sizes mini_batch -> mini_batch <> [] -> head sizes <> last sizes ->
  let x := column <$> mini_batch.*1 in
  let y := column <$> mini_batch.*2 in
  let K := length sizes - 1 in
  exists nabla_b nabla_w zs acts deltas,
    batch_backprop nn mini_batch = Ok (nabla_b, nabla_w) /\
    length nabla_b = K /\ length nabla_w = K /\
    length zs = K /\ length acts = S K /\ length deltas = K /\
    acts !! 0 = Some x /\
    (forall t b w a,
        biases nn !! t = Some b -> weights nn !! t = Some w ->
        acts !! t = Some a ->
        zs !! t = Some (affine b w a) /\
        acts !! S t = Some (Batch.sigmoid (affine b w a))) /\
    (forall a z,
        acts !! K = Some a -> zs !! (K - 1) = Some z ->
        deltas !! (K - 1) = Some (output_delta a y z)) /\
    (forall t w d z,
        weights nn !! S t = Some w -> deltas !! S t = Some d ->
        zs !! t = Some z ->
        deltas !! t = Some (hidden_delta w d z)) /\
    (forall t d a,
        deltas !! t = Some d -> acts !! t = Some a ->
        nabla_b !! t = Some (bias_gradient d) /\
        nabla_w !! t = Some (weight_gradient d a)).
Proof.
  intros Hnn Hpos HL Hmb Hne Hsizes x y K.
  pose proof (batch_backprop_fits _ _ _ Hnn Hpos HL Hmb Hne Hsizes) as Hrun.
  fold x y in Hrun. pose proof Hnn as (_ & Hbl & Hwl & _). fold K in Hbl, Hwl.
  set (layers := zip (biases nn) (weights nn)).
  set (zs := forward_zs layers x).
  set (acts := forward_activations layers x).
  assert (length zs = K) as Hzs.
  { unfold zs. rewrite forward_zs_length. unfold layers. rewrite length_zip. lia. }
  set (D := delta_back (weights nn) zs acts y).
  exists (backprop_gradients nn x y).1, (backprop_gradients nn x y).2, zs, acts,
    ((fun t => D (K - 1 - t)) <$> seq 0 K).
  assert (forall t, (backprop_gradients nn x y).1 !! t
                    = (fun t => bias_gradient (D (K - 1 - t))) <$> seq 0 K !! t)
    as Hgb.
  { intros t. unfold backprop_gradients. fold layers zs acts D.
    cbn [fst]. rewrite Hzs. by rewrite list_lookup_fmap. }
  assert (forall t, (backprop_gradients nn x y).2 !! t
                    = (fun t => weight_gradient (D (K - 1 - t)) (acts !!! t))
                        <$> seq 0 K !! t)
    as Hgw.
  { intros t. unfold backprop_gradients. fold layers zs acts D.
    cbn [snd]. rewrite Hzs. by rewrite list_lookup_fmap. }
  destruct (backprop_gradients_lengths nn x y) as [Hl1 Hl2].
  fold layers in Hl1, Hl2. rewrite <- (forward_zs_length layers x) in Hl1, Hl2.
  fold zs in Hl1, Hl2.
  split; [by destruct (backprop_gradients nn x y)|].
  split; [lia|]. split; [lia|]. split; [done|].
  split.
  { change (length acts) with (S (length (Batch.sigmoid <$> zs))).
    rewrite length_fmap. lia. }
  split; [by rewrite length_fmap, length_seq|].
  split; [done|].
  split; [|split; [|split]].
  - intros t b w a Hb Hw Ha.
    assert (zs !! t = Some (affine b w a)) as Hz.
    { apply forward_zs_lookup; [|done]. apply lookup_zip_with_Some. eauto. }
    split; [done|]. unfold acts, forward_activations. simpl.
    fold zs. by rewrite list_lookup_fmap, Hz.
  - intros a z Ha Hz. rewrite list_lookup_fmap, lookup_seq_lt by lia. simpl.
    replace (K - 1 - (K - 1)) with 0 by lia. unfold D. cbn [delta_back].
    rewrite Hzs. rewrite (list_lookup_total_correct _ _ _ Ha).
    by rewrite (list_lookup_total_correct _ _ _ Hz).
  - intros t w d z Hw Hd Hz.
    pose proof (lookup_lt_Some _ _ _ Hw) as Ht.
    rewrite list_lookup_fmap, lookup_seq_lt in Hd by lia. simpl in Hd.
    injection Hd as <-.
    rewrite list_lookup_fmap, lookup_seq_lt by lia. simpl.
    replace (K - 1 - t) with (S (K - 1 - S t)) by lia.
    unfold D at 1. cbn [delta_back]. fold D. rewrite Hzs.
    replace (K - 1 - (K - 1 - S t)) with (S t) by lia.
    replace (K - 2 - (K - 1 - S t)) with t by lia.
    rewrite (list_lookup_total_correct _ _ _ Hw).
    by rewrite (list_lookup_total_correct _ _ _ Hz).
  - intros t d a Hd Ha.
    apply list_lookup_fmap_Some in Hd as (t' & Hd & Ht').
    apply lookup_seq in Ht' as [-> Ht]. simpl in Hd. subst d.
    rewrite Hgb, Hgw, !lookup_seq_lt by lia. simpl.
    by rewrite (list_lookup_total_correct _ _ _ Ha).
Qed.

Lemma example_batch_ok : batch_ok example_sizes example_batch.
Proof. repeat constructor. Qed.

(** ** The update rule and the invariant: the claims *)

(** The update rule, for the gradients [batch_backprop] returned.  For a
    network that satisfies its shape invariant, a non-empty mini-batch of B
    samples that fit it, and any learning rate [eta]: when [batch_backprop]
    returns the gradients [(nabla_b, nabla_w)], which it does when the
    first and the last layer sizes differ (lemma [batch_backprop_fits]),
    [batch_stochastic_gradient_descent] completes, there is one gradient
    per parameter, afterwards every weight matrix is
    [W - (eta / B) * nabla_W] and every bias is [b - (eta / B) * nabla_b],
    and [num_layers], the only other field, is unchanged. *)
Theorem sgd_applies_update_rule sizes nn (mini_batch : list sample) eta
    nabla_b nabla_w :
  network_ok sizes nn -> positive_sizes sizes -> 2 <= length sizes ->
  batch_ok sizes mini_batch -> mini_batch <> [] ->
  batch_backprop nn mini_batch = Ok (nabla_b, nabla_w) ->
  let after := batch_stochastic_gradient_descent nn mini_batch eta in
  let step := (eta / INR (length mini_batch))%R in
  after.2 = Ok tt /\
  num_layers after.1 = num_layers nn /\
  length nabla_w = length (weights nn) /\
  length nabla_b = length (biases nn) /\
  length (weights after.1) = length (weights nn) /\
  length (biases after.1) = length (biases nn) /\
  (forall i w g, weights nn !! i = Some w -> nabla_w !! i = Some g ->
     weights after.1 !! i = Some (mzip Rminus w (scale step g))) /\
  (forall i b g, biases nn !! i = Some b -> nabla_b !! i = Some g ->
     biases after.1 !! i = Some (mzip Rminus b (scale step g))).
Proof.
  intros Hnn Hpos HL Hmb Hne Hbp after step.
  destruct (decide (head sizes = last sizes)) as [Heq|Hsizes].
  { by rewrite (batch_backprop_same_length sizes) in Hbp. }
  rewrite (batch_backprop_fits sizes) in Hbp by done.
  destruct (gradients_fit _ _ _ Hnn Hpos HL Hmb Hne) as (Hl1 & Hl2 & _).
  pose proof Hnn as (_ & Hbl & Hwl & _).
  subst after. rewrite (sgd_fits sizes) by done.
  assert (backprop_gradients nn (column <$> mini_batch.*1)
            (column <$> mini_batch.*2) = (nabla_b, nabla_w)) as Hg by congruence.
  rewrite Hg in Hl1, Hl2 |- *. cbn [fst snd] in *.
  cbn [num_layers biases weights].
  split; [done|]. split; [done|]. split; [lia|]. split; [lia|].
  split; [rewrite length_zip_with; lia|].
  split; [rewrite length_zip_with; lia|].
  split.
  - intros i w g Hwi Hgi. apply lookup_zip_with_Some. by exists w, g.
  - intros i b g Hbi Hgi. apply lookup_zip_with_Some. by exists b, g.
Qed.

Lemma sgd_applies_update_rule_witness :
  (batch_stochastic_gradient_descent example_network example_batch 3).2 = Ok tt.
Proof.
  pose proof (batch_backprop_fits example_sizes example_network example_batch
                example_network_ok example_sizes_positive) as Hbp.
  destruct (sgd_applies_update_rule example_sizes example_network example_batch 3
              _ _ example_network_ok example_sizes_positive
              ltac:(simpl; lia) example_batch_ok ltac:(discriminate)
              (Hbp ltac:(simpl; lia) example_batch_ok ltac:(discriminate)
                   ltac:(discriminate)))
    as [H _].
  exact H.
Defined.

Lemma square_network_ok : network_ok [2; 2] square_network.
Proof.
  repeat split; try reflexivity;
    destruct i as [|[|i]]; simplify_eq/=; repeat constructor.
Qed.

Lemma sgd_same_length sizes nn (mini_batch : list sample) eta :
  batch_ok sizes mini_batch -> head sizes = last sizes ->
  batch_stochastic_gradient_descent nn mini_batch eta = (nn, Raise ValueError).
Proof.
  intros Hmb Heq. unfold batch_stochastic_gradient_descent.
  by rewrite (batch_backprop_same_length sizes).
Qed.

(** C2.  The claim holds when the first and the last layer sizes differ
    (lemma [sgd_fits]: the network after the call has every weight
    [W - (eta / B) * nabla_W] and every bias [b - (eta / B) * nabla_b]).
    It fails on the network of layer sizes [2; 2], which satisfies the
    shape invariant, with a non-empty mini-batch of samples that fit it:
    [batch_backprop] raises, the exception leaves
    [batch_stochastic_gradient_descent] before either assignment, and for
    every learning rate the call ends in [ValueError] with no weight and no
    bias updated. *)
Theorem sgd_square_network_raises :
  network_ok [2; 2] square_network /\ positive_sizes [2; 2] /\
  batch_ok [2; 2] square_batch /\ square_batch <> [] /\
  forall eta,
    batch_stochastic_gradient_descent square_network square_batch eta
    = (square_network, Raise ValueError).
Proof.
  split; [exact square_network_ok|].
  split; [repeat constructor|].
  assert (batch_ok [2; 2] square_batch) as Hmb by repeat constructor.
  split; [exact Hmb|]. split; [discriminate|].
  intros eta. by apply (sgd_same_length [2; 2]).
Qed.

(** C8.  The network [init_network] builds for the layer sizes [sizes] has
    L-1 bias columns and L-1 weight matrices, the i-th of shapes
    (sizes[i+1], 1) and (sizes[i+1], sizes[i]).  For a network with that
    invariant and samples that fit it, the network after
    [batch_stochastic_gradient_descent] has the invariant again; when the
    update is made, the gradients [batch_backprop] returned have the shapes
    of the parameters they are subtracted from.  So the network has the
    invariant after [learn], however it ends. *)
Theorem shape_invariant_holds (g : nat -> R) sizes nn (mini_batch : list sample)
    eta st epochs m test :
  positive_sizes sizes -> 2 <= length sizes ->
  network_ok sizes nn -> batch_ok sizes mini_batch ->
  network_ok sizes (st_nn st) -> batch_ok sizes (st_training_data st) ->
  network_ok sizes (init_network g sizes) /\
  network_ok sizes (batch_stochastic_gradient_descent nn mini_batch eta).1 /\
  (mini_batch <> [] -> head sizes <> last sizes ->
   (batch_stochastic_gradient_descent nn mini_batch eta).2 = Ok tt /\
   exists nabla_b nabla_w,
     batch_backprop nn mini_batch = Ok (nabla_b, nabla_w) /\
     length nabla_b = length sizes - 1 /\ length nabla_w = length sizes - 1 /\
     forall i n_in n_out,
       sizes !! i = Some n_in -> sizes !! S i = Some n_out ->
       exists gb gw, nabla_b !! i = Some gb /\ nabla_w !! i = Some gw /\
         has_shape n_out 1 gb /\ has_shape n_out n_in gw) /\
  network_ok sizes (st_nn (learn st epochs m eta test).1).
Proof.
  intros Hpos HL Hnn Hmb Hst Htd.
  split; [apply init_network_ok|].
  split; [by apply sgd_network_ok|].
  split; [|by apply learn_network_ok].
  intros Hne Hsizes. split; [by rewrite (sgd_fits sizes)|].
  eexists _, _. split; [by apply (batch_backprop_fits sizes)|].
  by apply gradients_fit.
Qed.

Lemma shape_invariant_holds_witness :
  network_ok example_sizes (init_network INR example_sizes) /\
  network_ok example_sizes
    (batch_stochastic_gradient_descent example_network example_batch 3).1 /\
  network_ok example_sizes (st_nn (learn example_store 2 1 3 None).1).
Proof.
  destruct (shape_invariant_holds INR example_sizes example_network example_batch
              3 example_store 2 1 None example_sizes_positive
              ltac:(simpl; lia) example_network_ok example_batch_ok
              example_network_ok example_batch_ok)
    as (H1 & H2 & _ & H4).
  split; [exact H1|]. split; [exact H2|exact H4].
Defined.

(** ** Backpropagation: the claims *)

(** C1.  The claim holds when the input and the target sizes differ (lemma
    [batch_backprop_equations]).  It fails on the network of layer sizes
    [2; 2], which satisfies the shape invariant, with a non-empty
    mini-batch of samples that fit it: inputs and targets have one shape,
    [np.asarray] builds a single numeric array, and unpacking its
    transpose into [ax, ay] raises, so no gradient is returned. *)
Theorem batch_backprop_square_network_raises :
  network_ok [2; 2] square_network /\ positive_sizes [2; 2] /\
  batch_ok [2; 2] square_batch /\ square_batch <> [] /\
  batch_backprop square_network square_batch = Raise ValueError.
Proof.
  split; [|split; [|split; [|split]]].
  - repeat split; try reflexivity;
      destruct i as [|[|i]]; simplify_eq/=; repeat constructor.
  - repeat constructor.
  - repeat constructor.
  - discriminate.
  - reflexivity.
Qed.

(** C4.  On a one-sample mini-batch whose input and target lengths differ,
    [batch_backprop] returns what the unbatched reference returns (lemma
    [batch_backprop_one_sample]).  On the network of layer sizes [2; 2] the
    lengths are equal: the reference returns a gradient and
    [batch_backprop] raises. *)
Theorem one_sample_square_network_diverges :
  batch_backprop square_network [([1%R; 0%R], [1%R; 0%R])] = Raise ValueError /\
  exists gradient,
    backprop_reference square_network (column [1%R; 0%R]) (column [1%R; 0%R])
    = Ok gradient.
Proof. split; [reflexivity|]. eexists. reflexivity. Qed.

(** ** The derivative of the sigmoid *)

Lemma sigmoid_prime_entries z : sigmoid_prime z = mmap sigmoid_prime1 z.
Proof.
  unfold sigmoid_prime, sigmoid, mzip, mmap.
  induction z as [|row z IH]; [done|]. cbn [map zip_with]. f_equal; [|exact IH].
  clear. induction row as [|t row IH]; [done|]. cbn [map zip_with]. by f_equal.
Qed.

Lemma sigmoid1_derivative t : derivable_pt_lim sigmoid1 t (sigmoid_prime1 t).
Proof.
  pose proof (exp_pos (- t)) as He.
  assert (derivable_pt_lim (comp exp (- id)) t (exp (- t) * - 1)%R) as Hexp.
  { apply (derivable_pt_lim_comp (- id)%F exp).
    - apply derivable_pt_lim_opp, derivable_pt_lim_id.
    - apply derivable_pt_lim_exp. }
  pose proof (derivable_pt_lim_plus _ _ _ _ _
                (derivable_pt_lim_const 1 t) Hexp) as Hden.
  pose proof (derivable_pt_lim_div _ _ _ _ _
                (derivable_pt_lim_const 1 t) Hden) as Hdiv.
  unfold plus_fct, fct_cte, comp, opp_fct, id in Hdiv.
  specialize (Hdiv ltac:(lra)).
  replace (sigmoid_prime1 t)
    with ((0 * (1 + exp (- t)) - (0 + exp (- t) * -1) * 1) / (1 + exp (- t))²)%R.
  - exact Hdiv.
  - unfold sigmoid_prime1, sigmoid1, Rsqr. field. lra.
Qed.

Lemma sigmoid_prime1_bounds t : (0 < sigmoid_prime1 t <= 1 / 4)%R.
Proof.
  unfold sigmoid_prime1. pose proof (sigmoid1_bounds t) as [H0 H1].
  generalize dependent (sigmoid1 t). intros s H0 H1.
  split; [apply Rmult_lt_0_compat; lra|].
  pose proof (Rle_0_sqr (s - 1 / 2)) as Hsq. unfold Rsqr in Hsq. lra.
Qed.

Lemma sigmoid1_increasing t u : (t < u)%R -> (sigmoid1 t < sigmoid1 u)%R.
Proof.
  intros Htu. unfold sigmoid1.
  pose proof (exp_pos (- t)). pose proof (exp_pos (- u)).
  assert (exp (- u) < exp (- t))%R by (apply exp_increasing; lra).
  apply Rmult_lt_reg_r with ((1 + exp (- t)) * (1 + exp (- u)))%R; [nra|].
  field_simplify; lra.
Qed.

(** X1.  [sigmoid_prime] is the derivative of [sigmoid], entry by entry:
    the entry it returns for an entry [t] of [z] is the derivative at [t] of
    the function [sigmoid] applies to each entry. *)
Theorem sigmoid_prime_is_derivative z t :
  sigmoid_prime z = mmap sigmoid_prime1 z
  /\ derivable_pt_lim sigmoid1 t (sigmoid_prime1 t).
Proof. split; [apply sigmoid_prime_entries|apply sigmoid1_derivative]. Qed.

(** X2.  Every entry of [sigmoid_prime(z)] is positive and at most 1/4, the
    value at an entry 0 of [z]: each layer of the backward pass scales the
    error by at most a quarter of the transposed weights. *)
Theorem sigmoid_prime_bounds z :
  Forall (Forall (fun d => (0 < d <= 1 / 4)%R)) (sigmoid_prime z)
  /\ sigmoid_prime [[0%R]] = [[(1 / 4)%R]].
Proof.
  split.
  - rewrite sigmoid_prime_entries. unfold mmap.
    apply Forall_fmap, Forall_true. intros row.
    apply Forall_fmap, Forall_true. intros t. apply sigmoid_prime1_bounds.
  - rewrite sigmoid_prime_entries. cbn [mmap map]. do 2 f_equal.
    unfold sigmoid_prime1, sigmoid1. rewrite Ropp_0, exp_0. field.
Qed.

(** ** MNIST data *)

Lemma one_hot_encode_in_range (j : Z) :
  (0 <= j < 10)%Z ->
  one_hot_encode j = Ok (<[Z.to_nat j := [1%R]]> (replicate 10 [0%R])).
Proof.
  intros Hj. unfold one_hot_encode, py_pos. rewrite length_replicate.
  destruct (Z.ltb_spec j 0); [lia|].
  destruct (Z.leb_spec 0 j); [|lia].
  destruct (Z.ltb_spec j (Z.of_nat 10)); [|lia]. cbn [andb bind].
  assert (Z.to_nat j < 10) as Hlt by lia.
  revert Hlt. generalize (Z.to_nat j). intros i Hi.
  do 10 (destruct i as [|i]; [done|]). lia.
Qed.

Lemma one_hot_encode_negative (j : Z) :
  (-10 <= j < 0)%Z -> one_hot_encode j = one_hot_encode (j + 10).
Proof.
  intros Hj. unfold one_hot_encode, py_pos. rewrite length_replicate.
  destruct (Z.ltb_spec j 0); [|lia].
  destruct (Z.ltb_spec (j + 10) 0); [lia|].
  change (Z.of_nat 10) with 10%Z.
  destruct (Z.leb_spec 0 (j + 10)); [|lia].
  destruct (Z.ltb_spec (j + 10) 10); [|lia]. done.
Qed.

Lemma one_hot_encode_out_of_range (j : Z) :
  (j < -10 \/ 10 <= j)%Z -> one_hot_encode j = Raise IndexError.
Proof.
  intros Hj. unfold one_hot_encode, py_pos. rewrite length_replicate.
  change (Z.of_nat 10) with 10%Z.
  destruct (Z.ltb_spec j 0).
  - destruct (Z.leb_spec 0 (j + 10)); [lia|]. done.
  - destruct (Z.leb_spec 0 j); [|lia].
    destruct (Z.ltb_spec j 10); [lia|]. done.
Qed.

Lemma argmax_one_hot (i : nat) :
  i < 10 -> argmax (<[i := [1%R]]> (replicate 10 [0%R])) = Ok i.
Proof.
  intros Hi. do 10 (destruct i as [|i]; [
    unfold argmax; cbn [replicate flatten concat app list_insert insert argmax_scan];
    repeat (destruct (Rlt_dec _ _) as [?|?]; try lra); reflexivity |]).
  lia.
Qed.

Lemma comprehension_Ok {A B} (f : A -> result B) l ys :
  comprehension f l = Ok ys <-> Forall2 (fun x y => f x = Ok y) l ys.
Proof.
  revert ys. induction l as [|x l IH]; intros ys.
  - simpl. split; [intros [= <-]; constructor|intros H; by inversion H].
  - cbn [comprehension]. split.
    + destruct (f x) as [y|e] eqn:Hx; [|done]. cbn [bind].
      destruct (comprehension f l) as [ys'|e] eqn:Hl; [|done]. cbn [bind].
      intros [= <-]. constructor; [done|]. by apply IH.
    + intros H. inversion H as [|x' y l' ys' Hx Hl]; subst.
      rewrite Hx. cbn [bind]. apply IH in Hl. rewrite Hl. done.
Qed.

Lemma comprehension_reshape (xs ys : list (list R)) :
  comprehension reshape_784 xs = Ok ys <->
  ys = xs /\ Forall (fun x => length x = 784) xs.
Proof.
  rewrite comprehension_Ok. split.
  - intros H. induction H as [|x y xs ys Hx _ [-> IH]]; [done|].
    unfold reshape_784 in Hx. destruct (Nat.eqb_spec (length x) 784); [|done].
    injection Hx as <-. split; [done|]. by constructor.
  - intros [-> H]. induction H as [|x xs Hx _ IH]; constructor; [|done].
    unfold reshape_784. by rewrite Hx.
Qed.

Lemma one_hot_encode_Ok j e :
  one_hot_encode j = Ok e <->
  (-10 <= j < 10)%Z /\ e = <[Z.to_nat (j `mod` 10) := [1%R]]> (replicate 10 [0%R]).
Proof.
  destruct (decide (-10 <= j < 10)%Z) as [Hj|Hj].
  - assert (one_hot_encode j
            = Ok (<[Z.to_nat (j `mod` 10) := [1%R]]> (replicate 10 [0%R]))) as ->.
    { destruct (decide (j < 0)%Z).
      - rewrite one_hot_encode_negative, one_hot_encode_in_range by lia.
        do 3 f_equal. rewrite <- (Z.mod_small (j + 10) 10) by lia.
        by rewrite <- Z.add_mod_idemp_r, Z.mod_same, Z.add_0_r by lia.
      - rewrite one_hot_encode_in_range by lia. by rewrite Z.mod_small by lia. }
    split; [intros [= <-]; done|]. by intros [_ ->].
  - rewrite one_hot_encode_out_of_range by lia. split; [done|]. intros [? _]. lia.
Qed.

Lemma one_hot_shape (k : nat) :
  k < 10 -> has_shape 10 1 (<[k := [1%R]]> (replicate 10 [0%R])).
Proof.
  intros Hk. split; [by rewrite length_insert, length_replicate|].
  do 10 (destruct k as [|k]; [repeat constructor|]). lia.
Qed.

Lemma one_hot_entries (k i : nat) t :
  k < 10 -> flatten (<[k := [1%R]]> (replicate 10 [0%R])) !! i = Some t ->
  t = if decide (i = k) then 1%R else 0%R.
Proof.
  intros Hk. revert i t.
  do 10 (destruct k as [|k];
         [intros i t; do 10 (destruct i as [|i]; [by intros [= <-]|]); done|]).
  lia.
Qed.

Lemma mod_10_lt (j : Z) : Z.to_nat (j `mod` 10) < 10.
Proof. pose proof (Z.mod_pos_bound j 10). lia. Qed.

(** X3.  [one_hot_encode(j)] for a digit, or for a negative index that numpy
    counts from the end, is the (10, 1) array with 1 in row [j mod 10] and 0
    in the other rows; [np.argmax] gets the row back. *)
Theorem one_hot_encode_round_trip (j : Z) :
  (-10 <= j < 10)%Z ->
  exists e,
    one_hot_encode j = Ok e /\ has_shape 10 1 e /\
    argmax e = Ok (Z.to_nat (j `mod` 10)) /\
    forall i t, flatten e !! i = Some t ->
      t = if decide (i = Z.to_nat (j `mod` 10)) then 1%R else 0%R.
Proof.
  intros Hj. eexists. split; [by apply one_hot_encode_Ok|].
  pose proof (mod_10_lt j) as Hk.
  split; [by apply one_hot_shape|].
  split; [by apply argmax_one_hot|].
  intros i t. by apply one_hot_entries.
Qed.

Lemma one_hot_encode_round_trip_witness :
  exists e, one_hot_encode 7 = Ok e /\ argmax e = Ok 7.
Proof.
  destruct (one_hot_encode_round_trip 7 ltac:(lia)) as (e & H1 & _ & H2 & _).
  exists e. split; [exact H1|exact H2].
Defined.

(** X4.  An index outside [-10, 10) is out of the bounds of the array:
    [one_hot_encode] raises [IndexError]. *)
Theorem one_hot_encode_index_error (j : Z) :
  (j < -10 \/ 10 <= j)%Z -> one_hot_encode j = Raise IndexError.
Proof. apply one_hot_encode_out_of_range. Qed.

Lemma one_hot_encode_index_error_witness : one_hot_encode 10 = Raise IndexError.
Proof. apply (one_hot_encode_index_error 10). right. lia. Defined.

Lemma load_data_wrapper_Ok tr_d va_d te_d out :
  load_data_wrapper tr_d va_d te_d = Ok out <->
  Forall (fun x => length x = 784) tr_d.1 /\
  Forall (fun x => length x = 784) va_d.1 /\
  Forall (fun x => length x = 784) te_d.1 /\
  exists es,
    Forall2 (fun j e => one_hot_encode j = Ok e) tr_d.2 es /\
    out = (zip tr_d.1 (flatten <$> es), zip va_d.1 va_d.2, zip te_d.1 te_d.2).
Proof.
  unfold load_data_wrapper. split.
  - destruct (comprehension reshape_784 tr_d.1) as [xs|e] eqn:Hxs; [|done].
    apply comprehension_reshape in Hxs as [-> Htr]. cbn [bind].
    destruct (comprehension one_hot_encode tr_d.2) as [es|e] eqn:Hes; [|done].
    apply comprehension_Ok in Hes. cbn [bind].
    destruct (comprehension reshape_784 va_d.1) as [xs|e] eqn:Hva; [|done].
    apply comprehension_reshape in Hva as [-> Hva]. cbn [bind].
    destruct (comprehension reshape_784 te_d.1) as [xs|e] eqn:Hte; [|done].
    apply comprehension_reshape in Hte as [-> Hte]. cbn [bind].
    intros [= <-]. eauto 10.
  - intros (Htr & Hva & Hte & es & Hes & ->).
    rewrite (proj2 (comprehension_reshape tr_d.1 tr_d.1)) by done. cbn [bind].
    rewrite (proj2 (comprehension_Ok one_hot_encode tr_d.2 es)) by done. cbn [bind].
    rewrite (proj2 (comprehension_reshape va_d.1 va_d.1)) by done. cbn [bind].
    rewrite (proj2 (comprehension_reshape te_d.1 te_d.1)) by done. done.
Qed.

Lemma zip_inputs_784 {B} (xs : list (list R)) (ys : list B) :
  Forall (fun x => length x = 784) xs ->
  Forall (fun s : list R * B => length s.1 = 784) (zip xs ys).
Proof.
  intros Hxs. apply Forall_forall. intros [x y] Hin.
  apply elem_of_zip_with in Hin as (x' & y' & [= <- <-] & Hx & Hy).
  rewrite Forall_forall in Hxs. by apply Hxs.
Qed.

Lemma load_data_wrapper_lengths tr_d va_d te_d training validation test :
  load_data_wrapper tr_d va_d te_d = Ok (training, validation, test) ->
  Forall (fun s : sample => length s.1 = 784 /\ length s.2 = 10) training /\
  Forall (fun s : test_sample => length s.1 = 784) validation /\
  Forall (fun s : test_sample => length s.1 = 784) test.
Proof.
  intros Hout. apply load_data_wrapper_Ok in Hout
    as (Htr & Hva & Hte & es & Hes & [= -> -> ->]).
  split; [|split; by apply zip_inputs_784].
  apply Forall_forall. intros [x y] Hin.
  apply elem_of_zip_with in Hin as (x' & y' & [= <- <-] & Hx & Hy).
  rewrite Forall_forall in Htr. split; [by apply Htr|]. simpl.
  apply list_elem_of_fmap in Hy as (e & -> & He).
  apply list_elem_of_lookup in He as [i He].
  destruct (Forall2_lookup_r _ _ _ _ _ Hes He) as (j & _ & Hj).
  apply one_hot_encode_Ok in Hj as [_ ->].
  destruct (one_hot_shape _ (mod_10_lt j)) as [Hrows Hcols].
  unfold flatten. revert Hrows Hcols.
  generalize (<[Z.to_nat (j `mod` 10):=[1%R]]> (replicate 10 [0%R])).
  intros m <- Hcols. induction Hcols as [|r m Hr _ IH]; [done|].
  simpl. rewrite length_app, IH, Hr. done.
Qed.

(** X5.  [load_data_wrapper] returns if and only if every image of the three
    data sets has 784 pixels and every training digit is an index of the
    ten-row array, in [-10, 10); otherwise a [reshape] or [one_hot_encode]
    raises. *)
Theorem load_data_wrapper_returns tr_d va_d te_d :
  (exists out, load_data_wrapper tr_d va_d te_d = Ok out) <->
  Forall (fun x => length x = 784) tr_d.1 /\
  Forall (fun j => (-10 <= j < 10)%Z) tr_d.2 /\
  Forall (fun x => length x = 784) va_d.1 /\
  Forall (fun x => length x = 784) te_d.1.
Proof.
  split.
  - intros [out Hout]. apply load_data_wrapper_Ok in Hout
      as (Htr & Hva & Hte & es & Hes & _).
    split; [done|]. split; [|done].
    clear -Hes. induction Hes as [|j e js es Hj _ IH]; constructor; [|done].
    by apply one_hot_encode_Ok in Hj as [? _].
  - intros (Htr & Hjs & Hva & Hte).
    assert (exists es, Forall2 (fun j e => one_hot_encode j = Ok e) tr_d.2 es)
      as [es Hes].
    { clear -Hjs. induction Hjs as [|j js Hj _ [es IH]]; [by exists []|].
      eexists (_ :: es). constructor; [|done]. by apply one_hot_encode_Ok. }
    eexists. apply load_data_wrapper_Ok. eauto 10.
Qed.

(** X6.  What [load_data_wrapper] returns: the validation and test data are
    the images zipped with their digits, unchanged; there are as many
    training samples as the shorter of the images and the digits; every
    training sample is an image of 784 entries with a target of 10 entries,
    and the position of the largest target entry is the image's digit. *)
Theorem load_data_wrapper_output tr_d va_d te_d training validation test :
  load_data_wrapper tr_d va_d te_d = Ok (training, validation, test) ->
  validation = zip va_d.1 va_d.2 /\ test = zip te_d.1 te_d.2 /\
  length training = length tr_d.1 `min` length tr_d.2 /\
  Forall (fun s : sample => length s.1 = 784 /\ length s.2 = 10) training /\
  forall i x j, tr_d.1 !! i = Some x -> tr_d.2 !! i = Some j ->
    exists y, training !! i = Some (x, y) /\
      argmax (column y) = Ok (Z.to_nat (j `mod` 10)).
Proof.
  intros Hout.
  destruct (load_data_wrapper_lengths _ _ _ _ _ _ Hout) as (Hlens & _ & _).
  apply load_data_wrapper_Ok in Hout
    as (Htr & Hva & Hte & es & Hes & [= -> -> ->]).
  pose proof (Forall2_length _ _ _ Hes) as Hlen.
  split; [done|]. split; [done|].
  split; [etrans; [apply length_zip|]; by rewrite length_fmap, Hlen|].
  split; [done|].
  intros i x j Hx Hj.
  destruct (Forall2_lookup_l _ _ _ _ _ Hes Hj) as (e & He & Hje).
  apply one_hot_encode_Ok in Hje as [Hjr ->].
  eexists. split.
  - apply lookup_zip_with_Some. eexists _, _. split; [done|]. split; [done|].
    apply list_lookup_fmap_Some. eexists. split; [reflexivity|exact He].
  - pose proof (argmax_one_hot _ (mod_10_lt j)) as Harg.
    pose proof (mod_10_lt j) as Hk.
    revert Harg Hk. generalize (Z.to_nat (j `mod` 10)). intros k Harg Hk.
    do 10 (destruct k as [|k]; [exact Harg|]). lia.
Qed.

Lemma load_data_wrapper_output_witness :
  exists training validation test,
    load_data_wrapper example_dataset example_dataset example_dataset
    = Ok (training, validation, test) /\
    length training = 1.
Proof.
  pose proof (eq_refl :
    load_data_wrapper example_dataset example_dataset example_dataset
    = Ok (zip example_dataset.1 [flatten (<[3 := [1%R]]> (replicate 10 [0%R]))],
          zip example_dataset.1 example_dataset.2,
          zip example_dataset.1 example_dataset.2)) as Hrun.
  destruct (load_data_wrapper_output _ _ _ _ _ _ Hrun) as (_ & _ & Hlen & _).
  eexists _, _, _. split; [exact Hrun|exact Hlen].
Defined.

(** ** Inputs that do not fit, and counts *)

Lemma matmul_mismatch n c a b :
  0 < n -> has_shape n c a -> length b <> c -> matmul a b = Raise ValueError.
Proof.
  intros Hn [Hlen Hrows] Hb. unfold matmul.
  destruct a as [|r a]; [simpl in Hlen; lia|].
  apply Forall_cons in Hrows as [Hr _]. cbn [forallb].
  destruct (Nat.eqb_spec (length r) (length b)); [lia|]. done.
Qed.

Lemma feedforward_mismatch sizes nn n0 x :
  network_ok sizes nn -> positive_sizes sizes -> 2 <= length sizes ->
  head sizes = Some n0 -> length x <> n0 ->
  feedforward nn (column x) = Raise ValueError.
Proof.
  intros Hnn Hpos HL Hhead Hx.
  destruct (network_ok_lookup sizes nn 0 Hnn ltac:(lia))
    as (n_in & n_out & b & w & Hin & Hout & Hb & Hw & _ & Hsw).
  assert (n_in = n0) as -> by (destruct sizes; simplify_eq/=; done).
  assert (0 < n_out) as Hpos_out.
  { unfold positive_sizes in Hpos. rewrite Forall_lookup in Hpos. by eapply Hpos. }
  unfold feedforward.
  destruct (biases nn) as [|b' bs]; [done|]. destruct (weights nn) as [|w' ws]; [done|].
  simpl in Hb, Hw. simplify_eq. cbn [zip_with for_each].
  rewrite (matmul_mismatch n_out n0); [done..|].
  unfold column. by rewrite length_fmap.
Qed.

Lemma comprehension_app {A B} (f : A -> result B) l1 l2 :
  comprehension f (l1 ++ l2)
  = let* ys1 := comprehension f l1 in
    let* ys2 := comprehension f l2 in Ok (ys1 ++ ys2).
Proof.
  induction l1 as [|x l1 IH].
  - simpl. by destruct (comprehension f l2).
  - cbn [app comprehension]. destruct (f x) as [y|e]; [|done]. cbn [bind].
    rewrite IH. destruct (comprehension f l1) as [ys1|e]; [|done]. cbn [bind].
    by destruct (comprehension f l2).
Qed.

Lemma sum_hits_le (rs : list (nat * Z)) :
  foldr Nat.add 0 ((fun '(x, y) => int_of_bool (Z.of_nat x =? y)%Z) <$> rs)
  <= length rs.
Proof.
  induction rs as [|[x y] rs IH]; [done|]. csimpl.
  destruct (Z.of_nat x =? y)%Z; simpl; lia.
Qed.

Lemma sum_hits_app (rs1 rs2 : list (nat * Z)) :
  foldr Nat.add 0 ((fun '(x, y) => int_of_bool (Z.of_nat x =? y)%Z) <$> (rs1 ++ rs2))
  = foldr Nat.add 0 ((fun '(x, y) => int_of_bool (Z.of_nat x =? y)%Z) <$> rs1)
    + foldr Nat.add 0 ((fun '(x, y) => int_of_bool (Z.of_nat x =? y)%Z) <$> rs2).
Proof.
  induction rs1 as [|[x y] rs1 IH]; [done|]. csimpl. rewrite IH. lia.
Qed.

(** X7.  The count [evaluate] returns is at most the number of test samples,
    so the accuracy [learn] prints is at most 100 percent. *)
Theorem evaluate_at_most_all nn (test_data : list test_sample) c :
  evaluate nn test_data = Ok c -> c <= length test_data.
Proof.
  unfold evaluate.
  match goal with
  | |- context [comprehension ?f test_data] =>
      destruct (comprehension f test_data) as [rs|e] eqn:Hrs; [|done]
  end.
  cbn [bind]. intros [= <-].
  apply comprehension_Ok, Forall2_length in Hrs.
  pose proof (sum_hits_le rs) as Hle. unfold test_sample in *. lia.
Qed.

Lemma evaluate_at_most_all_witness :
  exists c, evaluate example_network example_test_data = Ok c /\ c <= 2.
Proof.
  pose proof (eq_refl : evaluate example_network example_test_data
    = Ok (foldr Nat.add 0
            ((fun '(x, y) => int_of_bool (Z.of_nat x =? y)%Z) <$> _))) as Hrun.
  eexists. split; [exact Hrun|].
  exact (evaluate_at_most_all _ _ _ Hrun).
Defined.

(** X8.  [evaluate] on the concatenation of two data sets is the sum of the
    counts on each, and raises what the first failing part raises. *)
Theorem evaluate_concatenation nn (d1 d2 : list test_sample) :
  evaluate nn (d1 ++ d2)
  = let* c1 := evaluate nn d1 in
    let* c2 := evaluate nn d2 in Ok (c1 + c2).
Proof.
  unfold evaluate. rewrite comprehension_app.
  match goal with
  | |- context [comprehension ?f d1] =>
      destruct (comprehension f d1) as [rs1|e]; [|done]; cbn [bind];
      destruct (comprehension f d2) as [rs2|e]; [|done]; cbn [bind]
  end.
  by rewrite sum_hits_app.
Qed.

(** X9.  On a network that satisfies its invariant, an input whose length is
    not the first layer's size makes [feedforward] raise [ValueError] at
    the first product, and a test set with such an input makes [evaluate]
    raise it too: no sample is skipped or counted silently. *)
Theorem evaluate_rejects_misfit sizes nn n0 (test_data : list test_sample) :
  network_ok sizes nn -> positive_sizes sizes -> 2 <= length sizes ->
  head sizes = Some n0 ->
  Exists (fun s => length s.1 <> n0) test_data ->
  evaluate nn test_data = Raise ValueError
  /\ forall x, length x <> n0 -> feedforward nn (column x) = Raise ValueError.
Proof.
  intros Hnn Hpos HL Hhead Hbad. split; [|intros x; by eapply feedforward_mismatch].
  unfold evaluate.
  assert (comprehension
            (fun '(x, y) =>
               let* out := feedforward nn (column x) in
               let* i := argmax out in Ok (i, y)) test_data
          = Raise ValueError) as ->; [|done].
  induction test_data as [|[x y] td IH]; [by apply Exists_nil in Hbad|].
  cbn [comprehension].
  destruct (decide (length x = n0)) as [Hx|Hx].
  - apply Exists_cons in Hbad as [Hbad|Hbad]; [done|].
    destruct (evaluate_results sizes nn [(x, y)] Hnn Hpos) as (ps & _ & Hrun).
    { constructor; [|done]. simpl. congruence. }
    cbn [comprehension] in Hrun.
    destruct (let* out := feedforward nn (column x) in
              let* i := argmax out in Ok (i, y)) as [r|e]; [|done].
    cbn [bind]. by rewrite IH.
  - by rewrite (feedforward_mismatch sizes nn n0).
Qed.

Lemma evaluate_rejects_misfit_witness :
  evaluate example_network [([1%R], 0%Z)] = Raise ValueError.
Proof.
  apply (evaluate_rejects_misfit example_sizes example_network 2 [([1%R], 0%Z)]
           example_network_ok example_sizes_positive ltac:(simpl; lia) eq_refl).
  constructor. simpl. lia.
Defined.

(** X10.  A network from [init_network] accepts every input of the first
    layer's size: [feedforward] returns an output of the last layer's size;
    over the reals, all its entries are strictly between 0 and 1 when there
    are at least two layers (a float64 entry can round to 0.0 or 1.0). *)
Theorem init_network_feedforward (g : nat -> R) layers x :
  positive_sizes layers -> head layers = Some (length x) ->
  exists out,
    feedforward (init_network g layers) (column x) = Ok out /\
    (forall m, last layers = Some m -> has_shape m 1 out) /\
    (2 <= length layers -> unit_interval out).
Proof.
  intros Hpos Hx.
  pose proof (init_network_ok g layers) as Hnn.
  destruct (feedforward_network_ok _ _ _ Hnn Hpos Hx) as [Hrun Hshape].
  eexists. split; [exact Hrun|]. split; [exact Hshape|].
  intros HL. destruct Hnn as (_ & Hb & Hw & _).
  assert (zip (biases (init_network g layers)) (weights (init_network g layers))
          <> []) as Hne.
  { intros H. apply (f_equal length) in H. rewrite length_zip in H.
    simpl in H. lia. }
  destruct (feedforward_ends_in_sigmoid _ _ _ Hne Hrun) as [z Hz].
  rewrite Hz. apply sigmoid_unit_interval.
Qed.

Lemma init_network_feedforward_witness :
  exists out,
    feedforward (init_network INR example_sizes) (column [1%R; 0%R]) = Ok out /\
    unit_interval out.
Proof.
  destruct (init_network_feedforward INR example_sizes [1%R; 0%R]
              example_sizes_positive eq_refl) as (out & H1 & _ & H3).
  exists out. split; [exact H1|]. apply H3. simpl. lia.
Defined.

(** ** No division by zero *)

Lemma nzd_Ok {A} (a : A) : no_zero_division (Ok a).
Proof. done. Qed.

Lemma nzd_ValueError {A} : no_zero_division (@Raise A ValueError).
Proof. done. Qed.

Lemma nzd_IndexError {A} : no_zero_division (@Raise A IndexError).
Proof. done. Qed.

Lemma nzd_Raise {A B} e :
  no_zero_division (@Raise A e) -> no_zero_division (@Raise B e).
Proof. unfold no_zero_division. congruence. Qed.

Lemma nzd_bind {A B} (r : result A) (k : A -> result B) :
  no_zero_division r -> (forall a, no_zero_division (k a)) ->
  no_zero_division (let* a := r in k a).
Proof.
  intros Hr Hk. destruct r as [a|e]; [apply Hk|].
  intros H. apply Hr. simpl in H. congruence.
Qed.

Lemma nzd_for_each {A S} (body : S -> A -> result S) s l :
  (forall s x, no_zero_division (body s x)) ->
  no_zero_division (for_each body s l).
Proof.
  intros Hbody. revert s. induction l as [|x l IH]; intros s; [done|].
  cbn [for_each]. apply nzd_bind; [apply Hbody|apply IH].
Qed.

Lemma nzd_comprehension {A B} (f : A -> result B) l :
  (forall x, no_zero_division (f x)) ->
  no_zero_division (comprehension f l).
Proof.
  intros Hf. induction l as [|x l IH]; [done|].
  cbn [comprehension]. apply nzd_bind; [apply Hf|]. intros y.
  apply nzd_bind; [apply IH|done].
Qed.

Lemma nzd_if {A} (c : bool) (r1 r2 : result A) :
  no_zero_division r1 -> no_zero_division r2 ->
  no_zero_division (if c then r1 else r2).
Proof. by destruct c. Qed.

Create HintDb nzd discriminated.
#[local] Hint Resolve nzd_Ok nzd_ValueError nzd_IndexError nzd_if : nzd.
#[local] Hint Extern 2 (no_zero_division (bind _ _)) =>
  apply nzd_bind; [|intros ?] : nzd.
#[local] Hint Extern 2 (no_zero_division (for_each _ _ _)) =>
  apply nzd_for_each; intros ? ? : nzd.
#[local] Hint Extern 2 (no_zero_division (comprehension _ _)) =>
  apply nzd_comprehension; intros ? : nzd.
#[local] Hint Extern 3 (no_zero_division (match ?x with _ => _ end)) =>
  destruct x : nzd.

Lemma nzd_py_pos {A} (l : list A) k : no_zero_division (py_pos l k).
Proof. unfold py_pos. auto with nzd. Qed.
#[local] Hint Resolve nzd_py_pos : nzd.

Lemma nzd_py_getitem {A} (l : list A) k : no_zero_division (py_getitem l k).
Proof. unfold py_getitem. auto with nzd. Qed.

Lemma nzd_py_setitem {A} (l : list A) k v : no_zero_division (py_setitem l k v).
Proof. unfold py_setitem. auto with nzd. Qed.

Lemma nzd_elementwise f a b : no_zero_division (elementwise f a b).
Proof. unfold elementwise. auto with nzd. Qed.

Lemma nzd_matmul a b : no_zero_division (matmul a b).
Proof. unfold matmul. auto with nzd. Qed.
#[local] Hint Resolve nzd_py_getitem nzd_py_setitem nzd_elementwise nzd_matmul : nzd.

Lemma nzd_zip_checked f s t :
  (forall a b, no_zero_division (f a b)) ->
  no_zero_division (Batch.zip_checked f s t).
Proof. intros Hf. unfold Batch.zip_checked. auto with nzd. Qed.

Lemma nzd_batch_ops :
  (forall w s, no_zero_division (Batch.matmul_left w s)) /\
  (forall s t, no_zero_division (Batch.matmul s t)) /\
  (forall s b, no_zero_division (Batch.add_each s b)) /\
  (forall s t, no_zero_division (Batch.mul s t)) /\
  (forall s t, no_zero_division (Batch.cost_derivative s t)).
Proof.
  repeat split; intros;
    unfold Batch.matmul_left, Batch.matmul, Batch.add_each, Batch.mul,
      Batch.cost_derivative, cost_derivative, madd, mmul, msub;
    try apply nzd_zip_checked; auto with nzd.
Qed.

Lemma nzd_feedforward nn a : no_zero_division (feedforward nn a).
Proof.
  unfold feedforward. apply nzd_for_each. intros a' [b w].
  unfold madd. auto with nzd.
Qed.

Lemma nzd_argmax m : no_zero_division (argmax m).
Proof. unfold argmax. by destruct (flatten m). Qed.

Lemma nzd_evaluate nn test_data : no_zero_division (evaluate nn test_data).
Proof.
  unfold evaluate. apply nzd_bind; [|done].
  apply nzd_comprehension. intros [x y].
  apply nzd_bind; [apply nzd_feedforward|]. intros out.
  apply nzd_bind; [apply nzd_argmax|done].
Qed.

Lemma nzd_batch_backprop nn mini_batch :
  no_zero_division (batch_backprop nn mini_batch).
Proof.
  destruct nzd_batch_ops as (Hml & Hmm & Hadd & Hmul & Hcd).
  unfold batch_backprop.
  apply nzd_bind.
  { unfold unpack_mini_batch. destruct mini_batch as [|[x0 y0] mb]; auto with nzd. }
  intros [ax ay]. apply nzd_bind.
  { unfold np_stack. destruct ax; auto with nzd. }
  intros x. apply nzd_bind.
  { unfold np_stack. destruct ay; auto with nzd. }
  intros y. apply nzd_bind.
  { unfold forward_pass. apply nzd_bind.
    - apply nzd_for_each. intros [[a acts] zs] [b w]. unfold forward_step.
      apply nzd_bind; [apply Hml|]. intros wa.
      apply nzd_bind; [apply Hadd|done].
    - by intros [[a acts] zs]. }
  intros [acts zs]. unfold backward_pass.
  repeat (apply nzd_bind;
          [first [apply nzd_py_getitem | apply nzd_py_setitem | apply Hcd
                 | apply Hmul | apply Hmm | idtac] | intros ?]).
  - apply nzd_for_each. intros [[d nb] nw] i. unfold backward_step.
    repeat (apply nzd_bind;
            [first [apply nzd_py_getitem | apply nzd_py_setitem | apply Hml
                   | apply Hmul | apply Hmm] | intros ?]).
    done.
  - match goal with
    | |- no_zero_division (match ?p with _ => _ end) => by destruct p as [[? ?] ?]
    end.
Qed.

Lemma batch_backprop_Ok_nonempty nn mini_batch g :
  batch_backprop nn mini_batch = Ok g -> mini_batch <> [].
Proof. by intros H ->. Qed.

Lemma nzd_descend eta len params nabla :
  0 < len -> no_zero_division (descend eta len params nabla).
Proof.
  intros Hlen. unfold descend. apply nzd_comprehension. intros [p g].
  unfold py_div. destruct (Nat.eqb_spec len 0); [lia|]. cbn [bind].
  unfold msub. auto with nzd.
Qed.

Lemma nzd_sgd nn mini_batch eta :
  no_zero_division (batch_stochastic_gradient_descent nn mini_batch eta).2.
Proof.
  unfold batch_stochastic_gradient_descent.
  pose proof (nzd_batch_backprop nn mini_batch) as Hbp.
  destruct (batch_backprop nn mini_batch) as [[nb nw]|e] eqn:Hrun;
    [|exact (nzd_Raise e Hbp)].
  apply batch_backprop_Ok_nonempty in Hrun.
  assert (0 < length mini_batch) as Hlen by (destruct mini_batch; [done|simpl; lia]).
  pose proof (nzd_descend eta (length mini_batch) (weights nn) nw Hlen) as Hw.
  destruct (descend eta (length mini_batch) (weights nn) nw) as [ws|e];
    [|exact (nzd_Raise e Hw)].
  cbn [biases].
  pose proof (nzd_descend eta (length mini_batch) (biases nn) nb Hlen) as Hb.
  destruct (descend eta (length mini_batch) (biases nn) nb) as [bs|e];
    [done|exact (nzd_Raise e Hb)].
Qed.

Lemma nzd_train nn bs eta : no_zero_division (train_mini_batches nn bs eta).2.
Proof.
  revert nn. induction bs as [|mb bs IH]; intros nn; [done|].
  cbn [train_mini_batches]. pose proof (nzd_sgd nn mb eta) as Hsgd.
  destruct (batch_stochastic_gradient_descent nn mb eta) as [nn' [[]|e]];
    [apply IH|done].
Qed.

Lemma nzd_learn_epoch n m eta test st j :
  no_zero_division (learn_epoch n m eta test st j).2.
Proof.
  unfold learn_epoch.
  destruct (mini_batches_of _ n m) as [bs|e] eqn:Hbs.
  - match goal with
    | |- context [train_mini_batches ?nn bs eta] =>
        pose proof (nzd_train nn bs eta) as Htrain;
        destruct (train_mini_batches nn bs eta) as [nn' [[]|e]]; [|done]
    end.
    destruct test as [[|t ts]|]; [done| |done].
    pose proof (nzd_evaluate nn' (t :: ts)) as Hev.
    destruct (evaluate nn' (t :: ts)) as [c|e]; [done|exact (nzd_Raise e Hev)].
  - unfold mini_batches_of, py_range0 in Hbs.
    destruct (m =? 0)%Z; [by injection Hbs as <-|].
    by destruct (m <? 0)%Z.
Qed.

(** X11.  No call of [learn] ends in a division by zero: an empty mini-batch
    makes [batch_backprop] raise before [eta / len(mini_batch)] is
    evaluated, and the accuracy is divided by [len(test_data)] only for a
    non-empty test set.  The exceptions [learn] can raise are [ValueError]
    and [IndexError]. *)
Theorem learn_never_divides_by_zero st epochs m eta test :
  (learn st epochs m eta test).2 <> Raise ZeroDivisionError
  /\ forall nn mini_batch,
       (batch_stochastic_gradient_descent nn mini_batch eta).2
       <> Raise ZeroDivisionError.
Proof.
  split; [|intros nn mb; apply nzd_sgd].
  unfold learn. generalize (length (st_training_data st)) as n. intros n.
  generalize (seq 0 epochs) as js. intros js. revert st.
  induction js as [|j js IH]; intros st; [done|].
  cbn [learn_epochs]. pose proof (nzd_learn_epoch n m eta test st j) as Hj.
  destruct (learn_epoch n m eta test st j) as [st' [[]|e]]; [apply IH|exact Hj].
Qed.

(** ** Runs of [learn] *)

Lemma slice_nonempty {A} (l : list A) s i :
  0 < s -> i < (length l + s - 1) / s -> take s (drop (i * s) l) <> [].
Proof.
  intros Hs Hi. destruct (ceil_div_bounds (length l) s Hs) as [Hc _].
  intros H. apply (f_equal length) in H.
  rewrite length_take, length_drop in H. simpl in H. nia.
Qed.

Lemma mini_batches_fit sizes (training_data : list sample) m :
  batch_ok sizes training_data -> (0 < m)%Z ->
  exists bs,
    mini_batches_of training_data (length training_data) m = Ok bs /\
    Forall (fun b => b <> [] /\ batch_ok sizes b) bs.
Proof.
  intros Htd Hm. exists (slices training_data (Z.to_nat m)
                           ((length training_data + Z.to_nat m - 1) / Z.to_nat m)).
  split.
  - rewrite <- (Z2Nat.id m) at 1 by lia. apply mini_batches_of_positive. lia.
  - apply Forall_forall. intros b Hb. apply list_elem_of_lookup in Hb as [i Hb].
    apply slices_lookup in Hb as [Hi ->]. split.
    + apply slice_nonempty; [lia|done].
    + by apply Forall_take, Forall_drop.
Qed.

Lemma train_mini_batches_fit sizes nn bs eta :
  network_ok sizes nn -> positive_sizes sizes -> 2 <= length sizes ->
  head sizes <> last sizes ->
  Forall (fun b => b <> [] /\ batch_ok sizes b) bs ->
  (train_mini_batches nn bs eta).2 = Ok tt.
Proof.
  intros Hnn Hpos HL Hsizes Hbs. revert nn Hnn.
  induction Hbs as [|mb bs [Hne Hmb] _ IH]; intros nn Hnn; [done|].
  cbn [train_mini_batches].
  pose proof (sgd_network_ok sizes nn mb eta Hnn Hpos HL Hmb) as Hok.
  rewrite (sgd_fits sizes) in Hok |- * by done. by apply IH.
Qed.

Lemma evaluate_fit sizes nn (test_data : list test_sample) :
  network_ok sizes nn -> positive_sizes sizes ->
  Forall (fun s => head sizes = Some (length s.1)) test_data ->
  exists c, evaluate nn test_data = Ok c /\ c <= length test_data.
Proof.
  intros Hnn Hpos Htd.
  destruct (evaluate_results _ _ _ Hnn Hpos Htd) as (ps & Hps & Hrun).
  unfold evaluate. rewrite Hrun. cbn [bind]. eexists. split; [done|].
  pose proof (sum_hits_le (zip ps test_data.*2)) as Hle.
  rewrite length_zip, length_fmap in Hle.
  unfold test_sample in *. lia.
Qed.

Lemma learn_epoch_fit sizes m eta test st j :
  positive_sizes sizes -> 2 <= length sizes -> head sizes <> last sizes ->
  (0 < m)%Z ->
  (forall t, test = Some t -> Forall (fun s => head sizes = Some (length s.1)) t) ->
  network_ok sizes (st_nn st) -> batch_ok sizes (st_training_data st) ->
  let after := learn_epoch (length (st_training_data st)) m eta test st j in
  after.2 = Ok tt /\
  exists r, st_printed after.1 = st_printed st ++ [r] /\ epoch_report test j r.
Proof.
  intros Hpos HL Hsizes Hm Htest Hnn Htd. unfold learn_epoch.
  set (shuffled := shuffle (st_rng st) (st_training_data st)).
  assert (batch_ok sizes shuffled.1) as Hsh.
  { unfold batch_ok, shuffled. by rewrite shuffle_Permutation. }
  destruct (mini_batches_fit sizes shuffled.1 m Hsh Hm) as (bs & Hbs & Hfit).
  unfold shuffled in Hbs at 2. rewrite shuffle_length in Hbs.
  cbn [set_shuffled st_training_data st_nn]. fold shuffled. rewrite Hbs.
  pose proof (train_mini_batches_fit sizes _ bs eta Hnn Hpos HL Hsizes Hfit)
    as Htrain.
  assert (network_ok sizes (train_mini_batches (st_nn st) bs eta).1) as Hnn'.
  { apply train_mini_batches_network_ok; [done..|].
    eapply Forall_impl; [exact Hfit|]. by intros b [_ ?]. }
  destruct (train_mini_batches (st_nn st) bs eta) as [nn' r]. simpl in Htrain, Hnn'.
  subst r. cbv beta iota zeta. destruct test as [[|t ts]|]; [| |].
  - simpl. split; [done|]. by eexists.
  - destruct (evaluate_fit sizes nn' (t :: ts) Hnn' Hpos (Htest _ eq_refl))
      as (c & Hc & Hle).
    repeat match goal with
    | |- context [evaluate ?a ?b] =>
        replace (evaluate a b) with (@Ok nat c) by (symmetry; exact Hc)
    end.
    simpl. split; [done|]. eexists. split; [done|]. by exists c.
  - simpl. split; [done|]. by eexists.
Qed.

Lemma learn_epochs_fit sizes m eta test n count :
  positive_sizes sizes -> 2 <= length sizes -> head sizes <> last sizes ->
  (0 < m)%Z ->
  (forall t, test = Some t -> Forall (fun s => head sizes = Some (length s.1)) t) ->
  forall start st,
  network_ok sizes (st_nn st) -> batch_ok sizes (st_training_data st) ->
  length (st_training_data st) = n ->
  let after := learn_epochs (learn_epoch n m eta test) st (seq start count) in
  after.2 = Ok tt /\
  exists reports,
    st_printed after.1 = st_printed st ++ reports /\ length reports = count /\
    forall k r, reports !! k = Some r -> epoch_report test (start + k) r.
Proof.
  intros Hpos HL Hsizes Hm Htest.
  induction count as [|count IH]; intros start st Hnn Htd Hn.
  - simpl. split; [done|]. exists []. by rewrite app_nil_r.
  - cbn [seq learn_epochs].
    destruct (learn_epoch_fit sizes m eta test st start Hpos HL Hsizes Hm Htest Hnn Htd)
      as (Hrun & r & Hprinted & Hr).
    destruct (learn_epoch_network_ok sizes n m eta test st start Hpos HL Hnn Htd)
      as [Hnn' Htd'].
    pose proof (learn_epoch_training_data n m eta test st start) as Hdata.
    rewrite Hn in Hrun, Hprinted.
    destruct (learn_epoch n m eta test st start) as [st' out].
    simpl in Hrun, Hprinted, Hnn', Htd', Hdata. subst out.
    destruct (IH (S start) st' Hnn' Htd') as (Hrun' & reports & Hp & Hlen & Hall).
    { rewrite Hdata, shuffle_length. done. }
    split; [done|]. exists (r :: reports). split; [|split].
    + rewrite Hp, Hprinted, <- app_assoc. done.
    + simpl. by rewrite Hlen.
    + intros [|k] r' Hk.
      * simpl in Hk. injection Hk as <-. by rewrite Nat.add_0_r.
      * simpl in Hk. replace (start + S k) with (S start + k) by lia. by apply Hall.
Qed.

(** X12.  On a network that satisfies its invariant, with training samples
    that fit it, different first and last layer sizes, a positive
    mini-batch size and test inputs of the first layer's size, [learn] runs
    all its epochs without raising and prints one report per epoch, for the
    epochs 1, 2, ... in order: the accuracy, at most 100 percent of the
    test set, or the completion notice when there is no test set. *)
Theorem learn_completes sizes st epochs m eta test :
  positive_sizes sizes -> 2 <= length sizes -> head sizes <> last sizes ->
  (0 < m)%Z ->
  (forall t, test = Some t -> Forall (fun s => head sizes = Some (length s.1)) t) ->
  network_ok sizes (st_nn st) -> batch_ok sizes (st_training_data st) ->
  let after := learn st epochs m eta test in
  after.2 = Ok tt /\
  exists reports,
    st_printed after.1 = st_printed st ++ reports /\ length reports = epochs /\
    forall j r, reports !! j = Some r -> epoch_report test j r.
Proof.
  intros Hpos HL Hsizes Hm Htest Hnn Htd.
  apply (learn_epochs_fit sizes m eta test _ epochs Hpos HL Hsizes Hm Htest 0 st);
    done.
Qed.

Lemma learn_completes_witness :
  (learn example_store 2 1 3 None).2 = Ok tt.
Proof.
  apply (learn_completes example_sizes example_store 2 1 3 None
           example_sizes_positive ltac:(simpl; lia) ltac:(discriminate)
           ltac:(lia) ltac:(discriminate) example_network_ok example_batch_ok).
Defined.

Lemma mini_batches_of_none {A} (l : list A) n m :
  (m < 0)%Z \/ (n = 0 /\ m <> 0%Z) -> mini_batches_of l n m = Ok [].
Proof.
  intros Hm. unfold mini_batches_of, py_range0.
  destruct (Z.eqb_spec m 0); [lia|].
  destruct (Z.ltb_spec m 0); [done|].
  destruct Hm as [?|[-> _]]; [lia|]. cbn [bind].
  replace ((0 + Z.to_nat m - 1) / Z.to_nat m) with 0; [done|].
  symmetry. apply Nat.div_small. lia.
Qed.

Lemma learn_epoch_none n m eta test st j :
  (m < 0)%Z \/ (n = 0 /\ m <> 0%Z) ->
  st_nn (learn_epoch n m eta test st j).1 = st_nn st
  /\ (test = None ->
      learn_epoch n m eta test st j
      = (print (set_shuffled st (shuffle (st_rng st) (st_training_data st)))
           (Complete (j + 1)), Ok tt)).
Proof.
  intros Hm. unfold learn_epoch. rewrite mini_batches_of_none by done.
  cbn [train_mini_batches set_shuffled st_nn]. split.
  - destruct test as [[|t ts]|]; [done| |done].
    by destruct (evaluate (st_nn st) (t :: ts)).
  - by intros ->.
Qed.

Lemma learn_epochs_none n m eta test epochs start st :
  (m < 0)%Z \/ (n = 0 /\ m <> 0%Z) ->
  let after := learn_epochs (learn_epoch n m eta test) st (seq start epochs) in
  st_nn after.1 = st_nn st
  /\ (test = None ->
      after.2 = Ok tt /\
      st_printed after.1
      = st_printed st ++ ((fun j => Complete (j + 1)) <$> seq start epochs)).
Proof.
  intros Hn. revert start st.
  induction epochs as [|epochs IH]; intros start st.
  - simpl. split; [done|]. intros _. by rewrite app_nil_r.
  - cbn [seq learn_epochs].
    destruct (learn_epoch_none n m eta test st start Hn) as [Hnn Hnone].
    destruct (IH (S start) (learn_epoch n m eta test st start).1) as [IHnn IHnone].
    destruct (learn_epoch n m eta test st start) as [st' [[]|e]] eqn:Hrun;
      simpl in Hnn, IHnn, IHnone |- *.
    + split; [congruence|]. intros ->.
      destruct (IHnone eq_refl) as [-> ->]. split; [done|].
      specialize (Hnone eq_refl). injection Hnone as ->.
      cbn [print st_printed set_shuffled]. by rewrite <- app_assoc.
    + split; [done|]. intros ->. by specialize (Hnone eq_refl).
Qed.

(** X13.  With a negative mini-batch size, or with an empty training set and a
    non-zero size, [range(0, n, mini_batch_size)] is empty: [learn] makes
    no update in any epoch and the network after it is the network before,
    whatever else happens; without test data it still ends normally,
    after printing one completion notice per epoch. *)
Theorem learn_trains_nothing st epochs m eta test :
  (m < 0)%Z \/ (st_training_data st = [] /\ m <> 0%Z) ->
  let after := learn st epochs m eta test in
  st_nn after.1 = st_nn st
  /\ (test = None ->
      after.2 = Ok tt /\
      st_printed after.1
      = st_printed st ++ ((fun j => Complete (j + 1)) <$> seq 0 epochs)).
Proof.
  intros Hm. apply learn_epochs_none.
  destruct Hm as [?|[-> ?]]; [by left|by right].
Qed.

Lemma learn_trains_nothing_witness :
  st_nn (learn example_store 2 (-1) 3 None).1 = example_network.
Proof.
  apply (learn_trains_nothing example_store 2 (-1) 3 None). left. lia.
Defined.

(** ** A learning rate of zero *)

Lemma descent_zero_rate len p g :
  length <$> p = length <$> g -> descent 0 len p g = p.
Proof.
  unfold descent, scale, mzip, mmap. revert g.
  induction p as [|row p IH]; intros [|row' g] Hlen; simplify_eq/=; [done|].
  f_equal; [|by apply IH].
  clear -H. revert row' H.
  induction row as [|t row IH]; intros [|u row'] Hlen; simplify_eq/=; [done|].
  f_equal; [|by apply IH]. unfold Rdiv. lra.
Qed.

Lemma zip_with_descent_zero_rate len (params nabla : list matrix) :
  Forall2 (fun p g => exists r c, has_shape r c p /\ has_shape r c g) params nabla ->
  zip_with (descent 0 len) params nabla = params.
Proof.
  induction 1 as [|p g params nabla (r & c & Hp & Hg) _ IH]; [done|].
  cbn [zip_with]. rewrite IH. f_equal. apply descent_zero_rate.
  apply has_shape_lengths in Hp, Hg. congruence.
Qed.

Lemma sgd_zero_rate sizes nn (mini_batch : list sample) :
  network_ok sizes nn -> positive_sizes sizes -> 2 <= length sizes ->
  batch_ok sizes mini_batch ->
  (batch_stochastic_gradient_descent nn mini_batch 0).1 = nn.
Proof.
  intros Hnn Hpos HL Hmb.
  destruct (decide (mini_batch = [])) as [->|Hne]; [done|].
  destruct (decide (head sizes = last sizes)) as [Heq|Hsizes].
  { unfold batch_stochastic_gradient_descent.
    by rewrite (batch_backprop_same_length sizes). }
  rewrite (sgd_fits sizes) by done. cbn [fst].
  destruct (gradients_fit _ _ _ Hnn Hpos HL Hmb Hne) as (Hl1 & Hl2 & Hshapes).
  pose proof Hnn as (_ & Hbl & Hwl & _).
  rewrite !zip_with_descent_zero_rate; [by destruct nn| |].
  - apply Forall2_same_length_lookup_2; [lia|]. intros i w g' Hw Hg.
    destruct (network_ok_lookup _ _ i Hnn)
      as (n_in & n_out & b & w' & Hin & Hout & _ & Hw' & _ & Hsw).
    { apply lookup_lt_Some in Hw. lia. }
    destruct (Hshapes i _ _ Hin Hout) as (_ & gw' & _ & Hgw & _ & Hs).
    simplify_eq. eauto.
  - apply Forall2_same_length_lookup_2; [lia|]. intros i b g' Hb Hg.
    destruct (network_ok_lookup _ _ i Hnn)
      as (n_in & n_out & b' & w & Hin & Hout & Hb' & _ & Hsb & _).
    { apply lookup_lt_Some in Hb. lia. }
    destruct (Hshapes i _ _ Hin Hout) as (gb' & _ & Hgb & _ & Hs & _).
    simplify_eq. eauto.
Qed.

Lemma train_mini_batches_zero_rate sizes nn bs :
  network_ok sizes nn -> positive_sizes sizes -> 2 <= length sizes ->
  Forall (batch_ok sizes) bs ->
  (train_mini_batches nn bs 0).1 = nn.
Proof.
  intros Hnn Hpos HL Hbs.
  induction Hbs as [|mb bs Hmb _ IH]; [done|].
  cbn [train_mini_batches].
  pose proof (sgd_zero_rate sizes nn mb Hnn Hpos HL Hmb) as Hstep.
  destruct (batch_stochastic_gradient_descent nn mb 0) as [nn' [[]|e]];
    simpl in Hstep; subst nn'; done.
Qed.

Lemma learn_epoch_zero_rate sizes n m test st j :
  positive_sizes sizes -> 2 <= length sizes ->
  network_ok sizes (st_nn st) -> batch_ok sizes (st_training_data st) ->
  st_nn (learn_epoch n m 0 test st j).1 = st_nn st.
Proof.
  intros Hpos HL Hnn Htd. unfold learn_epoch.
  destruct (mini_batches_of _ n m) as [bs|e] eqn:Hbs; [|done].
  apply (mini_batches_batch_ok sizes) in Hbs.
  - pose proof (train_mini_batches_zero_rate sizes _ bs Hnn Hpos HL Hbs)
      as Htrain. cbn [set_shuffled st_nn] in *.
    destruct (train_mini_batches _ bs 0) as [nn' [[]|e]]; simpl in Htrain;
      subst nn'; [|done].
    destruct test as [[|t ts]|]; [done| |done].
    destruct (evaluate (st_nn st) (t :: ts)); done.
  - cbn [set_shuffled st_training_data]. unfold batch_ok.
    by rewrite shuffle_Permutation.
Qed.

(** X14.  With a learning rate of zero every parameter is left as it is: on
    a network that satisfies its invariant and samples that fit it,
    [batch_stochastic_gradient_descent] returns the network it was given,
    and so does [learn] after any number of epochs. *)
Theorem learn_zero_learning_rate sizes st epochs m test :
  positive_sizes sizes -> 2 <= length sizes ->
  network_ok sizes (st_nn st) -> batch_ok sizes (st_training_data st) ->
  st_nn (learn st epochs m 0 test).1 = st_nn st
  /\ forall mini_batch, batch_ok sizes mini_batch ->
       (batch_stochastic_gradient_descent (st_nn st) mini_batch 0).1 = st_nn st.
Proof.
  intros Hpos HL Hnn Htd. split; [|intros mb Hmb; by eapply sgd_zero_rate].
  unfold learn. generalize (length (st_training_data st)) as n. intros n.
  generalize (seq 0 epochs) as js. intros js. revert st Hnn Htd.
  induction js as [|j js IH]; intros st Hnn Htd; [done|].
  cbn [learn_epochs].
  pose proof (learn_epoch_zero_rate sizes n m test st j Hpos HL Hnn Htd) as Hj.
  destruct (learn_epoch_network_ok sizes n m 0 test st j Hpos HL Hnn Htd)
    as [Hnn' Htd'].
  destruct (learn_epoch n m 0 test st j) as [st' [[]|e]]; [|done].
  simpl in Hj, Hnn', Htd'. rewrite IH by done. done.
Qed.

Lemma learn_zero_learning_rate_witness :
  st_nn (learn example_store 2 1 0 None).1 = st_nn example_store.
Proof.
  destruct (learn_zero_learning_rate example_sizes example_store 2 1 None
              example_sizes_positive ltac:(simpl; lia)
              example_network_ok example_batch_ok) as [H _].
  exact H.
Defined.

(** ** The forward pass of [batch_backprop] and [feedforward] *)

Lemma batch_sigmoid_affine b w (x : stack) :
  Batch.sigmoid (affine b w x) = transition b w <$> x.
Proof. unfold Batch.sigmoid, affine, transition. by rewrite <- list_fmap_compose. Qed.

Lemma last_forward_activations layers (x : stack) :
  last (forward_activations layers x) = Some (forward layers <$> x).
Proof.
  revert x. induction layers as [|[b w] layers IH]; intros x.
  - simpl. f_equal. induction x as [|a x IHx]; csimpl; [done|]. by rewrite <- IHx.
  - rewrite forward_activations_cons, last_cons, IH, batch_sigmoid_affine.
    by rewrite <- list_fmap_compose.
Qed.

(** X15.  The forward pass inside [batch_backprop] computes, for every sample
    of the stacked inputs, what [feedforward] returns for that sample: the
    last of the activations it keeps is the stack of the network's
    outputs. *)
Theorem batch_forward_pass_is_feedforward sizes nn n0 B (x : stack) :
  network_ok sizes nn -> positive_sizes sizes -> head sizes = Some n0 ->
  stack_shape B n0 1 x ->
  exists activations zs outputs,
    forward_pass nn x = Ok (activations, zs) /\
    last activations = Some outputs /\
    Forall2 (fun a out => feedforward nn a = Ok out) x outputs.
Proof.
  intros Hnn Hpos Hhead Hx. destruct sizes as [|n0' outs]; [done|].
  injection Hhead as ->.
  pose proof (network_ok_layers _ _ _ Hnn) as Hl.
  destruct (forward_pass_ok B n0 outs nn x Hl Hpos Hx) as [Hrun _].
  eexists _, _, _. split; [exact Hrun|].
  split; [apply last_forward_activations|].
  apply Forall2_fmap_r, Forall_Forall2_diag.
  destruct Hx as [_ Hx]. eapply Forall_impl; [exact Hx|].
  intros a Ha. simpl. by apply (feedforward_layers n0 outs).
Qed.

Lemma batch_forward_pass_is_feedforward_witness :
  exists activations zs outputs,
    forward_pass example_network (column <$> example_batch.*1)
    = Ok (activations, zs) /\
    last activations = Some outputs /\
    Forall2 (fun a out => feedforward example_network a = Ok out)
      (column <$> example_batch.*1) outputs.
Proof.
  apply (batch_forward_pass_is_feedforward example_sizes example_network 2 2
           (column <$> example_batch.*1)
           example_network_ok example_sizes_positive eq_refl).
  split; [reflexivity|]. repeat constructor.
Defined.

(** ** The gradient of a mini-batch is the sum over its parts *)

Lemma mzip_Rplus_assoc (a b c : matrix) :
  mzip Rplus (mzip Rplus a b) c = mzip Rplus a (mzip Rplus b c).
Proof.
  unfold mzip. revert b c.
  induction a as [|ra a IH]; intros [|rb b] [|rc c]; csimpl; try done.
  f_equal; [|apply IH]. clear. revert rb rc.
  induction ra as [|t ra IH]; intros [|u rb] [|v rc]; csimpl; try done.
  f_equal; [lra|apply IH].
Qed.

Lemma foldl_mzip_Rplus (a m : matrix) (ms : list matrix) :
  foldl (mzip Rplus) (mzip Rplus a m) ms = mzip Rplus a (foldl (mzip Rplus) m ms).
Proof.
  revert m. induction ms as [|m' ms IH]; intros m; [done|].
  cbn [foldl]. by rewrite mzip_Rplus_assoc, IH.
Qed.

Lemma batch_sum_app (s1 s2 : stack) :
  s1 <> [] -> s2 <> [] ->
  Batch.sum (s1 ++ s2) = mzip Rplus (Batch.sum s1) (Batch.sum s2).
Proof.
  intros H1 H2. destruct s1 as [|m1 s1]; [done|]. destruct s2 as [|m2 s2]; [done|].
  cbn [Batch.sum app]. rewrite foldl_app. cbn [foldl].
  by rewrite foldl_mzip_Rplus.
Qed.

Lemma forward_zs_app layers (x1 x2 : stack) :
  forward_zs layers (x1 ++ x2)
  = zip_with app (forward_zs layers x1) (forward_zs layers x2).
Proof.
  revert x1 x2. induction layers as [|[b w] layers IH]; intros x1 x2; [done|].
  cbn [forward_zs zip_with]. unfold affine, Batch.sigmoid.
  rewrite !fmap_app. f_equal. apply IH.
Qed.

Lemma forward_zs_stack_length layers (x z : stack) t :
  forward_zs layers x !! t = Some z -> length z = length x.
Proof.
  revert x t. induction layers as [|[b w] layers IH]; intros x t Hz; [done|].
  destruct t as [|t]; cbn [forward_zs] in Hz; simpl in Hz.
  - injection Hz as <-. unfold affine. by rewrite length_fmap.
  - apply IH in Hz. rewrite Hz. unfold Batch.sigmoid, affine.
    by rewrite !length_fmap.
Qed.

Section additive.
Context (layers : list (matrix * matrix)) (ws : list matrix).
Context (x1 x2 y1 y2 : stack).
Local Abbreviation K := (length layers).
Local Abbreviation zs1 := (forward_zs layers x1).
Local Abbreviation zs2 := (forward_zs layers x2).
Local Abbreviation zs12 := (forward_zs layers (x1 ++ x2)).
Local Abbreviation acts1 := (forward_activations layers x1).
Local Abbreviation acts2 := (forward_activations layers x2).
Local Abbreviation acts12 := (forward_activations layers (x1 ++ x2)).
Hypothesis Hy1 : length y1 = length x1.
Hypothesis Hy2 : length y2 = length x2.

Lemma additive_zs t :
  t < K ->
  exists z1 z2,
    zs1 !! t = Some z1 /\ zs2 !! t = Some z2 /\ zs12 !! t = Some (z1 ++ z2)
    /\ length z1 = length x1 /\ length z2 = length x2.
Proof.
  intros Ht.
  destruct (lookup_lt_is_Some_2 zs1 t) as [z1 Hz1]; [by rewrite forward_zs_length|].
  destruct (lookup_lt_is_Some_2 zs2 t) as [z2 Hz2]; [by rewrite forward_zs_length|].
  exists z1, z2. split; [done|]. split; [done|].
  split; [|split; by eapply forward_zs_stack_length].
  rewrite forward_zs_app. apply lookup_zip_with_Some. eauto.
Qed.

Lemma additive_acts t :
  t <= K ->
  exists a1 a2,
    acts1 !! t = Some a1 /\ acts2 !! t = Some a2 /\ acts12 !! t = Some (a1 ++ a2)
    /\ length a1 = length x1 /\ length a2 = length x2.
Proof.
  intros Ht. destruct t as [|t]; [by exists x1, x2|].
  destruct (additive_zs t) as (z1 & z2 & Hz1 & Hz2 & Hz & Hl1 & Hl2); [lia|].
  exists (Batch.sigmoid z1), (Batch.sigmoid z2).
  assert (forall x z, forward_zs layers x !! t = Some z ->
            forward_activations layers x !! S t = Some (Batch.sigmoid z)) as Hstep.
  { intros x z Hx. unfold forward_activations.
    rewrite lookup_cons_ne_0 by done. simpl. by rewrite list_lookup_fmap, Hx. }
  split; [by apply Hstep|]. split; [by apply Hstep|].
  split; [|unfold Batch.sigmoid; by rewrite !length_fmap].
  etrans; [apply (Hstep _ _ Hz)|]. unfold Batch.sigmoid. by rewrite fmap_app.
Qed.

Lemma additive_delta d :
  d < K ->
  delta_back ws zs12 acts12 (y1 ++ y2) d
  = delta_back ws zs1 acts1 y1 d ++ delta_back ws zs2 acts2 y2 d
  /\ length (delta_back ws zs1 acts1 y1 d) = length x1
  /\ length (delta_back ws zs2 acts2 y2 d) = length x2.
Proof.
  induction d as [|d IH]; intros Hd.
  - cbn [delta_back]. rewrite !forward_zs_length.
    destruct (additive_zs (K - 1)) as (z1 & z2 & Hz1 & Hz2 & Hz & Hl1 & Hl2); [lia|].
    destruct (additive_acts K) as (a1 & a2 & Ha1 & Ha2 & Ha & Hm1 & Hm2); [lia|].
    rewrite (list_lookup_total_correct _ _ _ Hz1), (list_lookup_total_correct _ _ _ Hz2),
      (list_lookup_total_correct _ _ _ Hz), (list_lookup_total_correct _ _ _ Ha1),
      (list_lookup_total_correct _ _ _ Ha2), (list_lookup_total_correct _ _ _ Ha).
    unfold output_delta, Batch.sigmoid_prime.
    rewrite fmap_app.
    rewrite (zip_with_app (mzip Rminus)) by lia.
    rewrite (zip_with_app (mzip Rmult))
      by (rewrite length_zip_with, length_fmap; lia).
    split; [done|].
    rewrite !length_zip_with, !length_fmap. lia.
  - destruct IH as (IH & IH1 & IH2); [lia|].
    cbn [delta_back]. rewrite !forward_zs_length.
    destruct (additive_zs (K - 2 - d)) as (z1 & z2 & Hz1 & Hz2 & Hz & Hl1 & Hl2); [lia|].
    rewrite (list_lookup_total_correct _ _ _ Hz1), (list_lookup_total_correct _ _ _ Hz2),
      (list_lookup_total_correct _ _ _ Hz).
    rewrite IH. unfold hidden_delta, Batch.sigmoid_prime.
    rewrite !fmap_app.
    rewrite (zip_with_app (mzip Rmult)) by (rewrite !length_fmap; lia).
    split; [done|].
    rewrite !length_zip_with, !length_fmap. lia.
Qed.

Lemma additive_bias_gradient d :
  d < K -> x1 <> [] -> x2 <> [] ->
  bias_gradient (delta_back ws zs12 acts12 (y1 ++ y2) d)
  = mzip Rplus (bias_gradient (delta_back ws zs1 acts1 y1 d))
      (bias_gradient (delta_back ws zs2 acts2 y2 d)).
Proof.
  intros Hd H1 H2. destruct (additive_delta d Hd) as (-> & Hl1 & Hl2).
  unfold bias_gradient. apply batch_sum_app.
  - intros Hnil. rewrite Hnil in Hl1. by destruct x1.
  - intros Hnil. rewrite Hnil in Hl2. by destruct x2.
Qed.

Lemma additive_weight_gradient d t :
  d < K -> t <= K -> x1 <> [] -> x2 <> [] ->
  weight_gradient (delta_back ws zs12 acts12 (y1 ++ y2) d) (acts12 !!! t)
  = mzip Rplus
      (weight_gradient (delta_back ws zs1 acts1 y1 d) (acts1 !!! t))
      (weight_gradient (delta_back ws zs2 acts2 y2 d) (acts2 !!! t)).
Proof.
  intros Hd Ht H1 H2. destruct (additive_delta d Hd) as (-> & Hl1 & Hl2).
  destruct (additive_acts t Ht) as (a1 & a2 & Ha1 & Ha2 & Ha & Hm1 & Hm2).
  rewrite (list_lookup_total_correct _ _ _ Ha1), (list_lookup_total_correct _ _ _ Ha2),
    (list_lookup_total_correct _ _ _ Ha).
  unfold weight_gradient, Batch.transpose. rewrite fmap_app.
  rewrite (zip_with_app matmul_entries) by (rewrite length_fmap; lia).
  apply batch_sum_app.
  - intros Hnil. apply (f_equal length) in Hnil.
    rewrite length_zip_with, length_fmap in Hnil. simpl in Hnil.
    destruct x1; [done|]. simpl in *. lia.
  - intros Hnil. apply (f_equal length) in Hnil.
    rewrite length_zip_with, length_fmap in Hnil. simpl in Hnil.
    destruct x2; [done|]. simpl in *. lia.
Qed.
End additive.

Lemma zip_with_fmap_seq {A B} (g : A -> A -> B) (f1 f2 f : nat -> A) h n :
  (forall t, t < n -> h t = g (f1 t) (f2 t)) ->
  h <$> seq 0 n = zip_with g (f1 <$> seq 0 n) (f2 <$> seq 0 n).
Proof.
  intros Hh. apply list_eq. intros t.
  rewrite list_lookup_fmap, lookup_zip_with, !list_lookup_fmap.
  destruct (decide (t < n)) as [Ht|Ht].
  - rewrite lookup_seq_lt by done. simpl. by rewrite Hh.
  - rewrite lookup_seq_ge by lia. done.
Qed.

Lemma backprop_gradients_app nn (x1 x2 y1 y2 : stack) :
  length y1 = length x1 -> length y2 = length x2 -> x1 <> [] -> x2 <> [] ->
  backprop_gradients nn (x1 ++ x2) (y1 ++ y2)
  = (zip_with (mzip Rplus) (backprop_gradients nn x1 y1).1
       (backprop_gradients nn x2 y2).1,
     zip_with (mzip Rplus) (backprop_gradients nn x1 y1).2
       (backprop_gradients nn x2 y2).2).
Proof.
  intros Hy1 Hy2 H1 H2. unfold backprop_gradients. cbn [fst snd].
  rewrite !forward_zs_length. f_equal.
  - apply (zip_with_fmap_seq _ _ _ (fun _ => [])). intros t Ht.
    apply additive_bias_gradient; [done..|lia|done|done].
  - apply (zip_with_fmap_seq _ _ _ (fun _ => [])). intros t Ht.
    apply additive_weight_gradient; [done..|lia|lia|done|done].
Qed.

Lemma batch_ok_app sizes (mb1 mb2 : list sample) :
  batch_ok sizes mb1 -> batch_ok sizes mb2 -> batch_ok sizes (mb1 ++ mb2).
Proof. apply Forall_app_2. Qed.

(** X16.  The gradients of a mini-batch are the sums of the gradients of its
    parts: when a mini-batch is split in two non-empty parts,
    [batch_backprop] on the whole returns, for every bias and every weight,
    the entrywise sum of what it returns on each part.  So the gradient of
    a mini-batch is the sum of the gradients of its samples. *)
Theorem batch_backprop_additive sizes nn (mb1 mb2 : list sample) :
  network_ok sizes nn -> positive_sizes sizes -> 2 <= length sizes ->
  head sizes <> last sizes ->
  batch_ok sizes mb1 -> batch_ok sizes mb2 -> mb1 <> [] -> mb2 <> [] ->
  exists b1 w1 b2 w2,
    batch_backprop nn mb1 = Ok (b1, w1) /\
    batch_backprop nn mb2 = Ok (b2, w2) /\
    batch_backprop nn (mb1 ++ mb2)
    = Ok (zip_with (mzip Rplus) b1 b2, zip_with (mzip Rplus) w1 w2).
Proof.
  intros Hnn Hpos HL Hsizes Hmb1 Hmb2 Hne1 Hne2.
  eexists _, _, _, _.
  split; [rewrite (batch_backprop_fits sizes) by done; apply f_equal, surjective_pairing|].
  split; [rewrite (batch_backprop_fits sizes) by done; apply f_equal, surjective_pairing|].
  rewrite (batch_backprop_fits sizes); try done.
  - rewrite !fmap_app. f_equal. apply backprop_gradients_app.
    + by rewrite !length_fmap.
    + by rewrite !length_fmap.
    + by destruct mb1.
    + by destruct mb2.
  - by apply batch_ok_app.
  - by destruct mb1.
Qed.

Lemma batch_backprop_additive_witness :
  exists b1 w1 b2 w2,
    batch_backprop example_network [([1%R; 0%R], [1%R; 0%R; 0%R])] = Ok (b1, w1) /\
    batch_backprop example_network [([0%R; 1%R], [0%R; 0%R; 1%R])] = Ok (b2, w2) /\
    batch_backprop example_network example_batch
    = Ok (zip_with (mzip Rplus) b1 b2, zip_with (mzip Rplus) w1 w2).
Proof.
  apply (batch_backprop_additive example_sizes example_network
           [([1%R; 0%R], [1%R; 0%R; 0%R])] [([0%R; 1%R], [0%R; 0%R; 1%R])]
           example_network_ok example_sizes_positive ltac:(simpl; lia)
           ltac:(discriminate));
    try discriminate; repeat constructor.
Defined.

(** ** The notebook's run: load, build, learn, validate *)

Lemma mnist_sizes_positive : positive_sizes mnist_sizes.
Proof.
  unfold positive_sizes, mnist_sizes.
  repeat (apply Forall_cons; split; [apply Nat.lt_0_succ|]). constructor.
Qed.

Lemma load_data_wrapper_batch_ok tr_d va_d te_d training validation test :
  load_data_wrapper tr_d va_d te_d = Ok (training, validation, test) ->
  batch_ok mnist_sizes training
  /\ Forall (fun s : test_sample => head mnist_sizes = Some (length s.1)) validation
  /\ Forall (fun s : test_sample => head mnist_sizes = Some (length s.1)) test.
Proof.
  intros Hout.
  destruct (load_data_wrapper_lengths _ _ _ _ _ _ Hout) as (Htr & Hva & Hte).
  split; [|split].
  - eapply Forall_impl; [exact Htr|]. intros s [-> ->]. split; reflexivity.
  - eapply Forall_impl; [exact Hva|]. intros s ->. reflexivity.
  - eapply Forall_impl; [exact Hte|]. intros s ->. reflexivity.
Qed.

Lemma run_completes sizes (g : nat -> R) (r : rng) (training : list sample)
    (validation test : list test_sample) epochs m eta :
  positive_sizes sizes -> 2 <= length sizes -> head sizes <> last sizes ->
  batch_ok sizes training ->
  Forall (fun s : test_sample => head sizes = Some (length s.1)) validation ->
  Forall (fun s : test_sample => head sizes = Some (length s.1)) test ->
  (0 < m)%Z ->
  let nn := init_network g sizes in
  let st := {| st_nn := nn; st_training_data := training;
               st_rng := r; st_printed := [] |} in
  let after := learn st epochs m eta (Some test) in
  after.2 = Ok tt /\
  length (st_printed after.1) = epochs /\
  network_ok sizes (st_nn after.1) /\
  exists c, evaluate (st_nn after.1) validation = Ok c /\ c <= length validation.
Proof.
  intros Hpos HL Hsizes Htr Hva Hte Hm nn st after.
  pose proof (init_network_ok g sizes) as Hnn. fold nn in Hnn.
  assert (network_ok sizes (st_nn after.1)) as Hafter.
  { by apply learn_network_ok. }
  destruct (learn_epochs_fit sizes m eta (Some test) (length training) epochs
              Hpos HL Hsizes Hm ltac:(by intros t [= <-]) 0 st Hnn Htr eq_refl)
    as (Hrun & reports & Hprinted & Hlen & _).
  split; [exact Hrun|]. split; [|split; [exact Hafter|]].
  - etrans; [apply (f_equal length Hprinted)|]. done.
  - by apply (evaluate_fit sizes).
Qed.

(** X17.  The notebook's run fits together: whatever [load_data_wrapper]
    returns, [learn] on the network of [init_network([784, 30, 10])] with
    the training and the test data, any number of epochs, a positive
    mini-batch size and any learning rate runs to its end without raising
    and prints one report per epoch; the network it leaves satisfies the
    invariant of the layer sizes, and [evaluate] on the validation data
    returns a count of at most their number. *)
Theorem notebook_run_completes (g : nat -> R) (r : rng) tr_d va_d te_d
    training validation test epochs m eta :
  load_data_wrapper tr_d va_d te_d = Ok (training, validation, test) ->
  (0 < m)%Z ->
  let nn := init_network g mnist_sizes in
  let st := {| st_nn := nn; st_training_data := training;
               st_rng := r; st_printed := [] |} in
  let after := learn st epochs m eta (Some test) in
  after.2 = Ok tt /\
  length (st_printed after.1) = epochs /\
  network_ok mnist_sizes (st_nn after.1) /\
  exists c, evaluate (st_nn after.1) validation = Ok c /\ c <= length validation.
Proof.
  intros Hout Hm.
  destruct (load_data_wrapper_batch_ok _ _ _ _ _ _ Hout) as (Htr & Hva & Hte).
  apply run_completes; try assumption.
  - apply mnist_sizes_positive.
  - apply le_S, le_n.
  - discriminate.
Qed.

Lemma notebook_run_completes_witness :
  (learn {| st_nn := init_network INR mnist_sizes;
            st_training_data :=
              zip example_dataset.1
                [flatten (<[3 := [1%R]]> (replicate 10 [0%R]))];
            st_rng := example_rng; st_printed := [] |}
     15 10 3 (Some (zip example_dataset.1 example_dataset.2))).2 = Ok tt.
Proof.
  pose proof (eq_refl :
    load_data_wrapper example_dataset example_dataset example_dataset
    = Ok (zip example_dataset.1 [flatten (<[3 := [1%R]]> (replicate 10 [0%R]))],
          zip example_dataset.1 example_dataset.2,
          zip example_dataset.1 example_dataset.2)) as Hload.
  exact (proj1 (notebook_run_completes INR example_rng _ _ _ _ _ _ 15 10 3 Hload
                  ltac:(lia))).
Defined.

(** ** Predictions and the last sigmoid *)

Lemma flatten_mmap f (m : matrix) : flatten (mmap f m) = map f (flatten m).
Proof.
  unfold flatten, mmap. induction m as [|row m IH]; [done|].
  cbn [map concat]. by rewrite IH, map_app.
Qed.

Lemma argmax_scan_increasing (f : R -> R) best best_i i l :
  (forall t u, (t < u)%R -> (f t < f u)%R) ->
  argmax_scan (f best) best_i i (map f l) = argmax_scan best best_i i l.
Proof.
  intros Hf. revert best best_i i.
  induction l as [|t l IH]; intros best best_i i; [done|].
  cbn [map argmax_scan].
  destruct (Rlt_dec best t) as [Hlt|Hge], (Rlt_dec (f best) (f t)) as [Hlt'|Hge'];
    try apply IH.
  - destruct Hge'. by apply Hf.
  - destruct (Rtotal_order t best) as [Htb|[->|Hbt]]; [|lra|done].
    apply Hf in Htb. lra.
Qed.

(** X18.  [sigmoid] is strictly increasing in every entry, so it keeps the
    position of the largest entry: [np.argmax(sigmoid(z))] is
    [np.argmax(z)], and both raise on an empty array.  The class
    [evaluate] predicts is decided by the last layer's [z]. *)
Theorem sigmoid_preserves_argmax z :
  argmax (sigmoid z) = argmax z
  /\ forall t u, (t < u)%R -> (sigmoid1 t < sigmoid1 u)%R.
Proof.
  split; [|apply sigmoid1_increasing].
  unfold argmax, sigmoid. rewrite flatten_mmap.
  destruct (flatten z) as [|t l]; [done|]. cbn [map]. f_equal.
  apply argmax_scan_increasing, sigmoid1_increasing.
Qed.
